(** * gym_malmo: the Rosalind experiment runner and the Malmo gym environment

    A shallow embedding of

    - [rosalind/experiment_runners/experiment_utils.py]: log directories and
      their checkpoints, the worker supervisor [train_model] and the three
      orchestration entry points;
    - [common/malmo/malmo_env.py]: [MalmoEnvironment.step],
      [MalmoEnvironment.reset] and the methods they call, the two polling
      loops and [_create_action_space].

    Python code is translated as state-passing functions in an exception
    monad.  Unbounded [while] loops take a fuel argument and answer [Hang]
    when it runs out.  Calls to collaborators that live outside these two
    files (the database queries, the Telegram bot, the trainers, MalmoPython,
    numpy) are either modelled from their documented contract or taken as
    section variables. *)

From stdpp Require Import gmap strings list pretty.
From Stdlib Require Import Ascii QArith.
Close Scope Q_scope.
Open Scope string_scope.
Open Scope Z_scope.

Set Warnings "-register-all".

(** ** Python exceptions and the exception/state monad *)

Inductive exn_class :=
| KeyError | IndexError | TypeError | ValueError | UnboundLocalError
| AttributeError | AssertionError | ZeroDivisionError
| RuntimeError | NotImplementedError
| FileExistsError | FileNotFoundError | NotADirectoryError | IsADirectoryError
| SameFileError
| NotFound | DuplicateKey
| ParseError | JSONDecodeError
| OtherException.

(** An exception object: its class, its message and the stack frames that
    [traceback.format_exc] prints for it. *)
Record exn := Exn {
  exn_cls : exn_class;
  exn_msg : string;
  exn_stack : string
}.

Definition exn_class_name (c : exn_class) : string :=
  match c with
  | KeyError => "KeyError" | IndexError => "IndexError"
  | TypeError => "TypeError" | ValueError => "ValueError"
  | UnboundLocalError => "UnboundLocalError"
  | AttributeError => "AttributeError" | AssertionError => "AssertionError"
  | ZeroDivisionError => "ZeroDivisionError"
  | RuntimeError => "RuntimeError" | NotImplementedError => "NotImplementedError"
  | FileExistsError => "FileExistsError" | FileNotFoundError => "FileNotFoundError"
  | NotADirectoryError => "NotADirectoryError"
  | IsADirectoryError => "IsADirectoryError"
  | SameFileError => "shutil.SameFileError"
  | NotFound => "NotFound" | DuplicateKey => "DuplicateKey"
  | ParseError => "xml.etree.ElementTree.ParseError"
  | JSONDecodeError => "json.decoder.JSONDecodeError"
  | OtherException => "Exception"
  end.

(** [isinstance(e, RuntimeError)]: [NotImplementedError] derives from
    [RuntimeError]. *)
Definition is_RuntimeError (e : exn) : bool :=
  match exn_cls e with
  | RuntimeError | NotImplementedError => true
  | _ => false
  end.

(** [traceback.format_exc()] while [e] is being handled. *)
Definition format_exc (e : exn) : string :=
  "Traceback (most recent call last):" +:+ exn_stack e +:+
  exn_class_name (exn_cls e) +:+ ": " +:+ exn_msg e.

Inductive result (A : Type) :=
| Ret (a : A)
| Raise (e : exn)
| Hang.
Arguments Ret {A} a.
Arguments Raise {A} e.
Arguments Hang {A}.

Definition M (S A : Type) : Type := S -> result A * S.

Definition ret {S A} (a : A) : M S A := fun s => (Ret a, s).
Definition raise {S A} (e : exn) : M S A := fun s => (Raise e, s).
Definition hang {S A} : M S A := fun s => (Hang, s).

Definition bind {S A B} (m : M S A) (k : A -> M S B) : M S B :=
  fun s =>
    match m s with
    | (Ret a, s') => k a s'
    | (Raise e, s') => (Raise e, s')
    | (Hang, s') => (Hang, s')
    end.

Notation "x <- m ;; k" := (bind m (fun x => k))
  (at level 20, m at level 99, k at level 200).
Notation "m ;;; k" := (bind m (fun _ => k))
  (at level 100, k at level 200, right associativity).

Definition get {S} : M S S := fun s => (Ret s, s).
Definition modify {S} (f : S -> S) : M S unit := fun s => (Ret tt, f s).

(** [for x in xs: body(x)] *)
Fixpoint for_each {S A} (xs : list A) (body : A -> M S unit) : M S unit :=
  match xs with
  | [] => ret tt
  | x :: xs' => body x ;;; for_each xs' body
  end.

(** [try: body / except Exception as e: handler(e) / else: orelse /
    finally: final].  The handler and the [else] suite are not protected by
    the [except] clause; [final] runs on every exit that is not a hang, and
    an exception raised by [final] replaces the pending outcome. *)
Definition try_except_else_finally {S A}
    (body : M S unit) (handler : exn -> M S A) (orelse : M S A)
    (final : M S unit) : M S A :=
  fun s =>
    let '(r, s1) :=
      match body s with
      | (Ret _, s') => orelse s'
      | (Raise e, s') => handler e s'
      | (Hang, s') => (Hang, s')
      end in
    match r with
    | Hang => (Hang, s1)
    | _ =>
      match final s1 with
      | (Ret _, s2) => (r, s2)
      | (Raise e, s2) => (Raise e, s2)
      | (Hang, s2) => (Hang, s2)
      end
    end.

(** [try: body / except Exception as e: handler(e)] *)
Definition try_except {S A} (body : M S A) (handler : exn -> M S A) : M S A :=
  fun s =>
    match body s with
    | (Raise e, s') => handler e s'
    | other => other
    end.

(** ** The file system *)

Module Fs.

(** A regular file with its contents (data and the metadata [copy2]
    preserves), or a directory with its entries in listing order.  Symbolic
    links and special files are not modelled. *)
Inductive node :=
| File (data : string)
| Dir (entries : list (string * node)).

Abbreviation dir := (list (string * node)).

(** A path is the list of its components below the root of the tree. *)
Abbreviation path := (list string).

Fixpoint lookup (d : dir) (name : string) : option node :=
  match d with
  | [] => None
  | (n, x) :: d' => if String.eqb n name then Some x else lookup d' name
  end.

(** Replace the entry [name] in place, or append it when it is new. *)
Fixpoint put (d : dir) (name : string) (x : node) : dir :=
  match d with
  | [] => [(name, x)]
  | (n, y) :: d' =>
    if String.eqb n name then (n, x) :: d' else (n, y) :: put d' name x
  end.

Fixpoint resolve (p : path) (n : node) : option node :=
  match p with
  | [] => Some n
  | c :: p' =>
    match n with
    | Dir es =>
      match lookup es c with
      | Some x => resolve p' x
      | None => None
      end
    | File _ => None
    end
  end.

(** Replace the node at [p] by [x]; the tree is unchanged when [p] does not
    resolve. *)
Fixpoint graft (p : path) (x : node) (n : node) : node :=
  match p with
  | [] => x
  | c :: p' =>
    match n with
    | Dir es =>
      match lookup es c with
      | Some y => Dir (put es c (graft p' x y))
      | None => n
      end
    | File _ => n
    end
  end.

(** [os.path.split]: the parent path and the base name. *)
Fixpoint split_last (p : path) : option (path * string) :=
  match p with
  | [] => None
  | [c] => Some ([], c)
  | c :: p' =>
    match split_last p' with
    | Some (q, b) => Some (c :: q, b)
    | None => None
    end
  end.

Definition os_path_join (p : path) (name : string) : path := p ++ [name].

Definition os_error (c : exn_class) (what : string) : exn :=
  Exn c what "".

Definition os_path_isdir (p : path) : M node bool :=
  fun fs =>
    (Ret match resolve p fs with Some (Dir _) => true | _ => false end, fs).

Definition os_listdir (p : path) : M node (list string) :=
  fun fs =>
    match resolve p fs with
    | Some (Dir es) => (Ret (map fst es), fs)
    | Some (File _) => (Raise (os_error NotADirectoryError "listdir"), fs)
    | None => (Raise (os_error FileNotFoundError "listdir"), fs)
    end.

(** Create or overwrite the entry [name] of the directory at [parent]. *)
Definition set_entry (parent : path) (name : string) (x : node) (fs : node)
  : node :=
  match resolve parent fs with
  | Some (Dir es) => graft parent (Dir (put es name x)) fs
  | _ => fs
  end.

Definition os_mkdir (p : path) : M node unit :=
  fun fs =>
    match split_last p with
    | None => (Raise (os_error FileExistsError "mkdir"), fs)
    | Some (parent, name) =>
      match resolve parent fs with
      | Some (Dir es) =>
        match lookup es name with
        | Some _ => (Raise (os_error FileExistsError "mkdir"), fs)
        | None => (Ret tt, set_entry parent name (Dir []) fs)
        end
      | Some (File _) => (Raise (os_error NotADirectoryError "mkdir"), fs)
      | None => (Raise (os_error FileNotFoundError "mkdir"), fs)
      end
    end.

(** Write [data] to the file at [p], creating or truncating it. *)
Definition write_file (p : path) (data : string) : M node unit :=
  fun fs =>
    match split_last p with
    | None => (Raise (os_error IsADirectoryError "open"), fs)
    | Some (parent, name) =>
      match resolve parent fs with
      | Some (Dir es) =>
        match lookup es name with
        | Some (Dir _) => (Raise (os_error IsADirectoryError "open"), fs)
        | _ => (Ret tt, set_entry parent name (File data) fs)
        end
      | Some (File _) => (Raise (os_error NotADirectoryError "open"), fs)
      | None => (Raise (os_error FileNotFoundError "open"), fs)
      end
    end.

(** [open(p, 'a')]: the file is created empty when it is missing and left
    as it is otherwise. *)
Definition open_append (p : path) : M node unit :=
  fun fs =>
    match split_last p with
    | None => (Raise (os_error IsADirectoryError "open"), fs)
    | Some (parent, name) =>
      match resolve parent fs with
      | Some (Dir es) =>
        match lookup es name with
        | Some (Dir _) => (Raise (os_error IsADirectoryError "open"), fs)
        | Some (File _) => (Ret tt, fs)
        | None => (Ret tt, set_entry parent name (File "") fs)
        end
      | Some (File _) => (Raise (os_error NotADirectoryError "open"), fs)
      | None => (Raise (os_error FileNotFoundError "open"), fs)
      end
    end.

Definition path_eqb (p q : path) : bool := bool_decide (p = q).

(** [shutil.copy2(src, dst)]: when [dst] is a directory the file is copied
    into it under the base name of [src]; an existing file is overwritten;
    copying a file onto itself is refused. *)
Definition shutil_copy2 (src dst : path) : M node unit :=
  fun fs =>
    let target :=
      match resolve dst fs, split_last src with
      | Some (Dir _), Some (_, base) => os_path_join dst base
      | _, _ => dst
      end in
    match resolve src fs with
    | Some (File data) =>
      if path_eqb src target
      then (Raise (os_error SameFileError "copy2"), fs)
      else write_file target data fs
    | Some (Dir _) => (Raise (os_error IsADirectoryError "copy2"), fs)
    | None => (Raise (os_error FileNotFoundError "copy2"), fs)
    end.

(** [copy_files(src, dst)] *)
Definition copy_files (src dst : path) : M node unit :=
  items <- os_listdir src ;;
  for_each items (fun item =>
    let s := os_path_join src item in
    let d := os_path_join dst item in
    isd <- os_path_isdir s ;;
    if negb isd then shutil_copy2 s d else ret tt).

(** [save_experiment_checkpoint(log_dir)] *)
Definition save_experiment_checkpoint (log_dir : path) : M node unit :=
  let checkpoint_dir := os_path_join log_dir "checkpoint" in
  isd <- os_path_isdir checkpoint_dir ;;
  (if negb isd then os_mkdir checkpoint_dir else ret tt) ;;;
  copy_files log_dir checkpoint_dir.

End Fs.

(** ** Frame relations

    [keeps R P m]: the computation [m] terminates, relates the state it
    starts in to the state it leaves by [R], and its value, if it returns
    one, satisfies [P]. *)
Definition keeps {S A} (R : S -> S -> Prop) (P : A -> Prop) (m : M S A) : Prop :=
  forall s,
    let '(r, s') := m s in
    R s s' /\ match r with Ret a => P a | Raise _ => True | Hang => False end.

(** Specification of one checkpoint pass, on the checkpoint directory alone. *)

Module FsSpec.
Import Fs.

(** What [shutil.copy2] does to the entries [D] of the checkpoint directory
    when it copies a top-level file [item] with contents [c]. *)
Definition copy_into (item c : string) : M dir unit :=
  fun D =>
    match lookup D item with
    | Some (Dir sub) =>
      match lookup sub item with
      | Some (Dir _) => (Raise (os_error IsADirectoryError "open"), D)
      | _ => (Ret tt, put D item (Dir (put sub item (File c))))
      end
    | _ => (Ret tt, put D item (File c))
    end.

(** The pass over the listing [items] of a log directory whose entries are
    [es]. *)
Definition copy_all (es : dir) (items : list string) : M dir unit :=
  for_each items (fun item =>
    match lookup es item with
    | Some (File c) => copy_into item c
    | Some (Dir _) => ret tt
    | None => raise (os_error FileNotFoundError "copy2")
    end).

(** The checkpoint directory holds a copy of [item] with contents [c]:
    as the entry [item], or inside it when [item] was a directory of the
    checkpoint. *)
Definition copied (D : dir) (item c : string) : Prop :=
  lookup D item = Some (File c) \/
  exists sub, lookup D item = Some (Dir sub) /\ lookup sub item = Some (File c).

(** The entries of the checkpoint directory before a pass: none when the
    directory is yet to be created. *)
Definition checkpoint_entries (es : dir) : dir :=
  match lookup es "checkpoint" with
  | Some (Dir D) => D
  | _ => []
  end.

(** The log directory [L] of [fs] has entries [es], and its checkpoint
    subdirectory has entries [D]. *)
Definition at_log_dir (L : path) (fs : node) (es D : dir) : Prop :=
  resolve L fs = Some (Dir es) /\ lookup es "checkpoint" = Some (Dir D).

(** One iteration of the loop of [copy_files] for the log directory [L]. *)
Definition copy_step (L : path) (item : string) : M node unit :=
  let s := os_path_join L item in
  let d := os_path_join (os_path_join L "checkpoint") item in
  isd <- os_path_isdir s ;;
  if negb isd then shutil_copy2 s d else ret tt.

(** The copy of [item] cannot be written: [item] is a regular file of the
    log directory, and the checkpoint directory holds a directory [item]
    with a directory [item] inside. *)
Definition blocked (es D : dir) (item : string) : bool :=
  match lookup es item, lookup D item with
  | Some (File _), Some (Dir sub) =>
    match lookup sub item with
    | Some (Dir _) => true
    | _ => false
    end
  | _, _ => false
  end.

(** When a checkpoint of [log_dir] can be taken: [log_dir] is a directory,
    its entry [checkpoint] is missing or a directory, and no copy is
    blocked. *)
Definition checkpoint_ready (log_dir : path) (fs : node) : bool :=
  match resolve log_dir fs with
  | Some (Dir es) =>
    match lookup es "checkpoint" with
    | Some (File _) => false
    | Some (Dir D) =>
      forallb (fun item => negb (blocked es D item)) (map fst es)
    | None => true
    end
  | _ => false
  end.

End FsSpec.


(** ** Python values *)

(** The values that occur in hyperparameter maps and client lists. *)
Inductive pyval :=
| PNone
| PStr (s : string)
| PInt (z : Z)
| PTuple (items : list pyval)
| PList (items : list pyval).

Definition nl : string := String (Ascii.ascii_of_nat 10) "".

(** [s.split(sep)] for a one-character separator. *)
Fixpoint str_split (sep : Ascii.ascii) (s : string) : list string :=
  match s with
  | EmptyString => [""]
  | String c s' =>
    if Ascii.eqb c sep then "" :: str_split sep s'
    else
      match str_split sep s' with
      | t :: ts => String c t :: ts
      | [] => [String c ""]
      end
  end.

Definition digit_of (c : Ascii.ascii) : option Z :=
  let n := Z.of_nat (Ascii.nat_of_ascii c) in
  if (48 <=? n) && (n <=? 57) then Some (n - 48) else None.

Fixpoint digits_value (acc : Z) (s : string) : option Z :=
  match s with
  | EmptyString => Some acc
  | String c s' =>
    match digit_of c with
    | Some d => digits_value (10 * acc + d) s'
    | None => None
    end
  end.

(** [int(s)] for a string of decimal digits with an optional sign. *)
Definition int_of_string (s : string) : option Z :=
  match s with
  | EmptyString => None
  | String "-"%char (String c r) => Z.opp <$> digits_value 0 (String c r)
  | String "+"%char (String c r) => digits_value 0 (String c r)
  | _ => digits_value 0 s
  end.

Definition here (line : string) (fn : string) : string :=
  nl +:+ "  File experiment_utils.py, line " +:+ line +:+ ", in " +:+ fn +:+ nl.

(** [int(v)] *)
Definition py_int {S} (line fn : string) (v : pyval) : M S Z :=
  match v with
  | PInt z => ret z
  | PStr s =>
    match int_of_string s with
    | Some z => ret z
    | None =>
      raise (Exn ValueError "invalid literal for int() with base 10" (here line fn))
    end
  | _ =>
    raise (Exn TypeError
             "int() argument must be a string, a bytes-like object or a number"
             (here line fn))
  end.

(** [l[i]] for a list and a non-negative constant index. *)
Definition py_index {S} (line fn : string) (l : list pyval) (i : nat)
  : M S pyval :=
  match l !! i with
  | Some v => ret v
  | None => raise (Exn IndexError "list index out of range" (here line fn))
  end.

(** [d.get(k)] on a dictionary kept in insertion order. *)
Fixpoint dict_get {V} (k : string) (d : list (string * V)) : option V :=
  match d with
  | [] => None
  | (k', v) :: d' => if String.eqb k' k then Some v else dict_get k d'
  end.

(** ** The experiment runner *)

Module Rosalind.

Abbreviation params := (gmap string pyval).

Inductive ClientStatus := AVALIABLE | RESERVED.
Inductive ExperimentStatus := PENDING | RUNNING | COMPLETED | FAILED.

(** Rows of the three tables of [rosalind.db.schema]. *)
Module ClientPool.
Record t := Build {
  address : string;
  status : ClientStatus;
  current_experiment : option string
}.
End ClientPool.

Module Experiments.
Record t := Build {
  id : string;
  group_id : string;
  model : string;
  env_id : string;
  owner : string;
  total_timesteps : Z;
  log_dir : Fs.path;
  model_params : params;
  pid : option Z;
  status : ExperimentStatus;
  end_date : option Z
}.
End Experiments.

Module Users.
Record t := Build {
  id : string;
  chat_id : Z
}.
End Users.

(** The field maps passed to [update_experiment] and [update_client]. *)
Inductive experiment_field :=
| Set_status (s : ExperimentStatus)
| Set_end_date (t : Z)
| Set_total_timesteps (n : Z)
| Set_model_params (p : params)
| Set_owner (u : string)
| Set_pid (p : Z).

Inductive client_field :=
| Set_client_status (s : ClientStatus)
| Set_current_experiment (e : option string).

(** What the runner does to the outside world, in order.  [EvEnter] and
    [EvCheckpoint] mark the entry into [continue_experiement_with_monitoring]
    and the call of [save_experiment_checkpoint]; the other events are the
    calls that reach the database, the bot, the monitor, the trainer and the
    operating system. *)
Inductive event :=
| EvEnter (experiment_id : string)
| EvCheckpoint (log_dir : Fs.path)
| EvCreateExperiment (experiment_id : string) (status : ExperimentStatus)
| EvUpdateExperiment (experiment_id : string) (fields : list experiment_field)
| EvReserveClient (address : string) (experiment_id : string)
| EvUpdateClient (address : string) (fields : list client_field)
| EvSendMessage (chat_id : Z) (text : string)
| EvMonitorStart (name : string)
| EvMonitorStop (name : string)
| EvMonitorJoin (name : string) (timeout : Z)
| EvModelRunner (log_dir : Fs.path) (env_id : string)
    (client_pool : list pyval) (model_params : params)
| EvProcessStart (experiment_id : string) (pid : Z)
| EvSleep (seconds : Z).

(** The database, the file system below the package directory, the clock,
    the number of UUIDs drawn so far, and the history. *)
Record World := BuildWorld {
  experiments : list Experiments.t;
  client_pool : list ClientPool.t;
  users : list Users.t;
  fs : Fs.node;
  now : Z;
  uuids_drawn : nat;
  trace : list event
}.

Definition set_experiments (x : list Experiments.t) (w : World) : World :=
  BuildWorld x (client_pool w) (users w) (fs w) (now w) (uuids_drawn w) (trace w).
Definition set_client_pool (x : list ClientPool.t) (w : World) : World :=
  BuildWorld (experiments w) x (users w) (fs w) (now w) (uuids_drawn w) (trace w).
Definition set_fs (x : Fs.node) (w : World) : World :=
  BuildWorld (experiments w) (client_pool w) (users w) x (now w) (uuids_drawn w)
    (trace w).
Definition set_now (x : Z) (w : World) : World :=
  BuildWorld (experiments w) (client_pool w) (users w) (fs w) x (uuids_drawn w)
    (trace w).
Definition set_uuids_drawn (x : nat) (w : World) : World :=
  BuildWorld (experiments w) (client_pool w) (users w) (fs w) (now w) x (trace w).
Definition set_trace (x : list event) (w : World) : World :=
  BuildWorld (experiments w) (client_pool w) (users w) (fs w) (now w)
    (uuids_drawn w) x.

Definition emit (e : event) : M World unit :=
  modify (fun w => set_trace (trace w ++ [e]) w).

(** Run a file-system action on the file system of the world. *)
Definition on_fs {A} (m : M Fs.node A) : M World A :=
  fun w => let '(r, fs') := m (fs w) in (r, set_fs fs' w).

(** *** The database queries of [rosalind.db.queries] *)

Definition db_error (c : exn_class) (what : string) : exn :=
  Exn c what (nl +:+ "  File queries.py, in " +:+ what +:+ nl).

Definition apply_experiment_field (f : experiment_field) (e : Experiments.t)
  : Experiments.t :=
  let '(Experiments.Build i g m v o n l p pr s d) := e in
  match f with
  | Set_status s' => Experiments.Build i g m v o n l p pr s' d
  | Set_end_date t => Experiments.Build i g m v o n l p pr s (Some t)
  | Set_total_timesteps n' => Experiments.Build i g m v o n' l p pr s d
  | Set_model_params p' => Experiments.Build i g m v o n l p' pr s d
  | Set_owner o' => Experiments.Build i g m v o' n l p pr s d
  | Set_pid x => Experiments.Build i g m v o n l p (Some x) s d
  end.

Definition apply_client_field (f : client_field) (c : ClientPool.t)
  : ClientPool.t :=
  let '(ClientPool.Build a s h) := c in
  match f with
  | Set_client_status s' => ClientPool.Build a s' h
  | Set_current_experiment h' => ClientPool.Build a s h'
  end.

Definition find_experiment (experiment_id : string) (rows : list Experiments.t)
  : option Experiments.t :=
  List.find (fun e => String.eqb (Experiments.id e) experiment_id) rows.

Definition find_client (address : string) (rows : list ClientPool.t)
  : option ClientPool.t :=
  List.find (fun c => String.eqb (ClientPool.address c) address) rows.

Definition find_user (user_id : string) (rows : list Users.t)
  : option Users.t :=
  List.find (fun u => String.eqb (Users.id u) user_id) rows.

(** Modelled from the spec: [create_experiment] is not in the sources.  It
    persists a new record in state PENDING and fails with DuplicateKey when
    the id exists already.  The column [total_timesteps] holds an integer:
    a value that is none is refused. *)
Definition create_experiment (experiment_id group_id model env_id owner : string)
    (total_timesteps : pyval) (log_dir : Fs.path) (model_params : params)
  : M World unit :=
  w <- get ;;
  match find_experiment experiment_id (experiments w) with
  | Some _ => raise (db_error DuplicateKey "create_experiment")
  | None =>
    match total_timesteps with
    | PInt n =>
      modify (set_experiments
                (experiments w ++
                 [Experiments.Build experiment_id group_id model env_id owner
                    n log_dir model_params None PENDING None])) ;;;
      emit (EvCreateExperiment experiment_id PENDING)
    | _ => raise (db_error TypeError "create_experiment")
    end
  end.

(** Modelled from the spec: [update_experiment] is not in the sources.  It
    updates the given fields of one record and fails with NotFound when the
    id is absent. *)
Definition update_experiment (experiment_id : string)
    (fields : list experiment_field) : M World unit :=
  w <- get ;;
  match find_experiment experiment_id (experiments w) with
  | None => raise (db_error NotFound "update_experiment")
  | Some _ =>
    modify (set_experiments
              (map (fun e =>
                      if String.eqb (Experiments.id e) experiment_id
                      then fold_left (fun e f => apply_experiment_field f e) fields e
                      else e)
                   (experiments w))) ;;;
    emit (EvUpdateExperiment experiment_id fields)
  end.

(** Modelled from the spec: [get_experiment] is not in the sources.  A read
    accessor that fails with NotFound when the id is absent. *)
Definition get_experiment (experiment_id : string) : M World Experiments.t :=
  w <- get ;;
  match find_experiment experiment_id (experiments w) with
  | Some e => ret e
  | None => raise (db_error NotFound "get_experiment")
  end.

(** Modelled from the spec: [get_experiments_by_group_id] is not in the
    sources.  It returns the experiments of a group in insertion order. *)
Definition get_experiments_by_group_id (group_id : string)
  : M World (list Experiments.t) :=
  w <- get ;;
  ret (List.filter (fun e => String.eqb (Experiments.group_id e) group_id)
         (experiments w)).

(** Modelled from the spec: [get_user] is not in the sources.  A read
    accessor that fails with NotFound when the id is absent. *)
Definition get_user (user_id : string) : M World Users.t :=
  w <- get ;;
  match find_user user_id (users w) with
  | Some u => ret u
  | None => raise (db_error NotFound "get_user")
  end.

Definition is_available (c : ClientPool.t) : bool :=
  match ClientPool.status c with AVALIABLE => true | RESERVED => false end.

Fixpoint reserve_first (experiment_id : string) (rows : list ClientPool.t)
  : option (string * list ClientPool.t) :=
  match rows with
  | [] => None
  | c :: rows' =>
    if is_available c
    then Some (ClientPool.address c,
               ClientPool.Build (ClientPool.address c) RESERVED (Some experiment_id)
               :: rows')
    else
      match reserve_first experiment_id rows' with
      | Some (a, rows'') => Some (a, c :: rows'')
      | None => None
      end
  end.

(** Modelled from the spec: [find_and_reserve_client] is not in the sources.
    In one step it picks an AVAILABLE entry, marks it RESERVED for the
    experiment and returns its address; it returns [None], and does not
    raise, when no entry is available. *)
Definition find_and_reserve_client (experiment_id : string)
  : M World (option string) :=
  w <- get ;;
  match reserve_first experiment_id (client_pool w) with
  | Some (a, rows) =>
    modify (set_client_pool rows) ;;;
    emit (EvReserveClient a experiment_id) ;;;
    ret (Some a)
  | None => ret None
  end.

(** Modelled from the spec: [update_client] is not in the sources.  It
    updates the given fields of the entry with that address and fails with
    NotFound when there is none. *)
Definition update_client (client_address : string) (fields : list client_field)
  : M World unit :=
  w <- get ;;
  match find_client client_address (client_pool w) with
  | None => raise (db_error NotFound "update_client")
  | Some _ =>
    modify (set_client_pool
              (map (fun c =>
                      if String.eqb (ClientPool.address c) client_address
                      then fold_left (fun c f => apply_client_field f c) fields c
                      else c)
                   (client_pool w))) ;;;
    emit (EvUpdateClient client_address fields)
  end.

(** *** Collaborators reached through the standard library and the bot *)

(** [time.sleep(seconds)] *)
Definition time_sleep (seconds : Z) : M World unit :=
  modify (fun w => set_now (now w + seconds) w) ;;;
  emit (EvSleep seconds).

(** [datetime.datetime.utcnow()] *)
Definition utcnow : M World Z := w <- get ;; ret (now w).

(** [bot.send_message(chat_id, text)]: the transport accepts the message. *)
Definition bot_send_message (chat_id : Z) (text : string) : M World unit :=
  emit (EvSendMessage chat_id text).

(** The side-car [ExperimentMonitor] thread: [start], [stop], [join]. *)
Definition monitor_start (name : string) : M World unit :=
  emit (EvMonitorStart name).
Definition monitor_stop (name : string) : M World unit :=
  emit (EvMonitorStop name).
Definition monitor_join (name : string) (timeout : Z) : M World unit :=
  emit (EvMonitorJoin name timeout).

(** A training entry point: called with the log directory, the environment
    id, the client list, the step parameter and the hyperparameters, it
    returns ([None]) or raises. *)
Definition runner : Type :=
  Fs.path -> string -> list pyval -> Z -> params -> option exn.

(** [os.path.join(p, name)] for a name that may hold separators: its
    components follow those of [p].  The tree has no entries for the empty
    name, [.] and [..], and nothing above its root: a name with such a
    component, or an absolute one, is not covered. *)
Definition os_path_join_name (p : Fs.path) (name : string) : Fs.path :=
  (p ++ str_split "/"%char name)%list.

(** [build_log_dir(experiment_id)], below the directory of the module. *)
Definition build_log_dir (experiment_id : string) : M Fs.node Fs.path :=
  let base_log_dir := Fs.os_path_join [] "logs" in
  isd <- Fs.os_path_isdir base_log_dir ;;
  (if negb isd then Fs.os_mkdir base_log_dir else ret tt) ;;;
  let log_dir := os_path_join_name base_log_dir experiment_id in
  isd <- Fs.os_path_isdir log_dir ;;
  (if negb isd then Fs.os_mkdir log_dir else ret tt) ;;;
  ret log_dir.

Definition path_string (p : Fs.path) : string := String.concat "/" p.

(** [send_message_to_owner(bot, experiment, message)] *)
Definition send_message_to_owner (experiment : Experiments.t) (message : string)
  : M World unit :=
  user <- get_user (Experiments.owner experiment) ;;
  bot_send_message (Users.chat_id user) message.

Definition failed_message (experiment_id tb : string) : string :=
  "The experiment with id " +:+ experiment_id +:+ " failed!" +:+
  "Traceback: " +:+ nl +:+ " " +:+ tb.

Definition completed_message (experiment_id : string) : string :=
  "The experiment with id " +:+ experiment_id +:+ " completed!".

(** The loop [while not client_address] of [train_model]: every pass asks
    for a client and then sleeps ten seconds, whether or not it got one. *)
Fixpoint wait_for_client (fuel : nat) (experiment_id : string) : M World string :=
  match fuel with
  | O => hang
  | S fuel' =>
    client_address <- find_and_reserve_client experiment_id ;;
    time_sleep 10 ;;;
    match client_address with
    | Some a =>
      if String.eqb a "" then wait_for_client fuel' experiment_id else ret a
    | None => wait_for_client fuel' experiment_id
    end
  end.

(** The loop [for i in range(num_envs)] of [train_model].  It returns the
    client list and the last value of the local [client_address], which is
    unbound ([None]) when the loop body never ran. *)
Fixpoint reserve_clients (fuel : nat) (experiment_id : string) (n : nat)
    (client_pool : list pyval) (client_address : option string)
  : M World (list pyval * option string) :=
  match n with
  | O => ret (client_pool, client_address)
  | S n' =>
    client_address <- wait_for_client fuel experiment_id ;;
    let client := PList (map PStr (str_split ":"%char client_address)) in
    host <- py_index "113" "train_model" client_pool 0 ;;
    port <- py_index "113" "train_model" client_pool 1 ;;
    port <- py_int "113" "train_model" port ;;
    let client := PTuple [host; PInt port] in
    reserve_clients fuel experiment_id n' (client_pool ++ [client])
      (Some client_address)
  end.

(** [train_model(bot, experiment, log_dir, model_runner, env_id,
    model_params, num_envs=1)].  Of the logging, the file handler is kept:
    it opens [train.log] in the log directory for appending, which creates
    the file when it is not there and raises when it cannot be opened.
    Which records reach the file depends on the logging configuration of the
    process, which this module does not set: the text of [train.log] is not
    followed.  The new database connection and the construction of the
    monitor thread have no effect on the world. *)
Definition train_model (fuel : nat) (experiment : Experiments.t)
    (log_dir : Fs.path) (model_runner : runner) (env_id : string)
    (model_params : params) (num_envs : Z) : M World unit :=
  let experiment_id := Experiments.id experiment in
  on_fs (Fs.open_append (Fs.os_path_join log_dir "train.log")) ;;;
  let experiment_monitor := "ExperimentMonitor-" +:+ experiment_id in
  reserved <- reserve_clients fuel experiment_id (Z.to_nat num_envs) [] None ;;
  let client_pool := fst reserved in
  let client_address := snd reserved in
  try_except_else_finally
    (update_experiment experiment_id [Set_status RUNNING] ;;;
     monitor_start experiment_monitor ;;;
     emit (EvModelRunner log_dir env_id client_pool model_params) ;;;
     match model_runner log_dir env_id client_pool 10 model_params with
     | None => ret tt
     | Some e => raise e
     end)
    (fun e =>
       monitor_stop experiment_monitor ;;;
       monitor_join experiment_monitor 2 ;;;
       end_date <- utcnow ;;
       update_experiment experiment_id [Set_status FAILED; Set_end_date end_date] ;;;
       let tb := format_exc e in
       send_message_to_owner experiment (failed_message experiment_id tb) ;;;
       raise e)
    (end_date <- utcnow ;;
     update_experiment experiment_id
       [Set_status COMPLETED; Set_end_date end_date] ;;;
     send_message_to_owner experiment (completed_message experiment_id))
    (monitor_stop experiment_monitor ;;;
     monitor_join experiment_monitor 2 ;;;
     match client_address with
     | None =>
       raise (Exn UnboundLocalError
                "local variable 'client_address' referenced before assignment"
                (here "163" "train_model"))
     | Some a =>
       update_client a [Set_client_status AVALIABLE; Set_current_experiment None]
     end).

(** *** The orchestration entry points *)

Section Facade.

(** The trainers [experiments.a2c.train.train_a2c] and
    [experiments.deep_dqn.train.train_dqn]. *)
Variable train_a2c : runner.
Variable train_dqn : runner.

(** The values [uuid.uuid4()] returns, in the order of the calls. *)
Variable uuid4_value : nat -> string.

(** What [Process(target=train_model, args=...).start()] does for an
    experiment: it raises, or the child runs under the given pid. *)
Variable process_start : Experiments.t -> exn + Z.

Definition _MODELS : list (string * runner) :=
  [("a2c", train_a2c); ("deepq", train_dqn)].

Definition uuid4 : M World string :=
  w <- get ;;
  modify (set_uuids_drawn (S (uuids_drawn w))) ;;;
  ret (uuid4_value (uuids_drawn w)).

(** Create the process object for [train_model] and start it. *)
Definition start_training_process (experiment : Experiments.t) : M World Z :=
  match process_start experiment with
  | inl e => raise e
  | inr pid =>
    emit (EvProcessStart (Experiments.id experiment) pid) ;;; ret pid
  end.

Definition unknown_model (model fn line : string) : exn :=
  Exn KeyError ("The model " +:+ model +:+ " has not been implemented.")
    (here line fn).

(** [run_new_single_experiment_with_monitoring(bot, user, model, env_id,
    model_params, group_id=None)] *)
Definition run_new_single_experiment_with_monitoring (user model env_id : string)
    (model_params : params) (group_id : option string)
  : M World Experiments.t :=
  match dict_get model _MODELS with
  | None =>
    raise (unknown_model model "run_new_single_experiment_with_monitoring" "177")
  | Some model_runner =>
    experiment_id <- uuid4 ;;
    group_id <-
      match group_id with
      | Some g => if String.eqb g "" then uuid4 else ret g
      | None => uuid4
      end ;;
    log_dir <- on_fs (build_log_dir experiment_id) ;;
    total_timesteps <-
      match model_params !! "total_timesteps" with
      | Some v => ret v
      | None =>
        raise (Exn KeyError "'total_timesteps'"
                 (here "192" "run_new_single_experiment_with_monitoring"))
      end ;;
    create_experiment experiment_id group_id model env_id user
      total_timesteps log_dir model_params ;;;
    experiment <- get_experiment experiment_id ;;
    training_process <-
      try_except (start_training_process experiment)
        (fun e =>
           let tb := format_exc e in
           send_message_to_owner experiment
             (failed_message (Experiments.id experiment) tb) ;;;
           raise e) ;;
    update_experiment (Experiments.id experiment) [Set_pid training_process] ;;;
    ret experiment
  end.

(** The in-memory experiment object after its [model_params] dictionary
    was changed in place. *)
Definition with_model_params (p : params) (e : Experiments.t)
  : Experiments.t :=
  apply_experiment_field (Set_model_params p) e.

(** [continue_experiement_with_monitoring(bot, user, experiment,
    total_timesteps=500000)].  [model_params] is the dictionary of the
    experiment object itself, so the two item assignments change the
    object: from there on [experiment] is the object with the new
    dictionary. *)
Definition continue_experiement_with_monitoring (user : Users.t)
    (experiment : Experiments.t) (total_timesteps : Z)
  : M World Experiments.t :=
  emit (EvEnter (Experiments.id experiment)) ;;;
  match dict_get (Experiments.model experiment) _MODELS with
  | None =>
    raise (unknown_model (Experiments.model experiment)
             "continue_experiement_with_monitoring" "238")
  | Some model_runner =>
    let model_params := Experiments.model_params experiment in
    log_dir <- on_fs (build_log_dir (Experiments.id experiment)) ;;
    emit (EvCheckpoint log_dir) ;;;
    on_fs (Fs.save_experiment_checkpoint log_dir) ;;;
    let model_params :=
      <["load_path" := PStr (path_string (Fs.os_path_join log_dir "model.pkl"))]>
        model_params in
    let model_params :=
      <["total_timesteps" := PInt total_timesteps]> model_params in
    let experiment := with_model_params model_params experiment in
    update_experiment (Experiments.id experiment)
      [Set_total_timesteps
         (Experiments.total_timesteps experiment + total_timesteps);
       Set_status PENDING;
       Set_model_params model_params;
       Set_owner (Users.id user)] ;;;
    training_process <-
      try_except (start_training_process experiment)
        (fun e =>
           let tb := format_exc e in
           send_message_to_owner experiment
             (failed_message (Experiments.id experiment) tb) ;;;
           raise e) ;;
    update_experiment (Experiments.id experiment) [Set_pid training_process] ;;;
    ret experiment
  end.

(** [continue_experiment_group(bot, user, group_id,
    total_timesteps=500000)] *)
Definition continue_experiment_group (user : Users.t) (group_id : string)
    (total_timesteps : Z) : M World unit :=
  experiments <- get_experiments_by_group_id group_id ;;
  for_each experiments (fun experiment =>
    continue_experiement_with_monitoring user experiment total_timesteps ;;;
    ret tt).

End Facade.

End Rosalind.


(** ** What the history of the experiment runner shows *)

Module RosalindSpec.
Import Rosalind.

Definition status_of_fields (fields : list experiment_field)
  : list ExperimentStatus :=
  flat_map (fun f => match f with Set_status s => [s] | _ => [] end) fields.

(** The status values persisted and the messages sent, in order. *)
Inductive notice :=
| Wrote (experiment_id : string) (status : ExperimentStatus)
| Sent (chat_id : Z) (text : string).

Definition notices (tr : list event) : list notice :=
  flat_map (fun e =>
    match e with
    | EvCreateExperiment i s => [Wrote i s]
    | EvUpdateExperiment i fields => map (Wrote i) (status_of_fields fields)
    | EvSendMessage c t => [Sent c t]
    | _ => []
    end) tr.

(** The status values persisted, with the experiment they are for. *)
Definition status_writes (tr : list event) : list (string * ExperimentStatus) :=
  flat_map (fun n =>
    match n with
    | Wrote i s => [(i, s)]
    | Sent _ _ => []
    end) (notices tr).

(** The status values persisted for one experiment, in order. *)
Definition status_history (experiment_id : string) (tr : list event)
  : list ExperimentStatus :=
  flat_map (fun n =>
    match n with
    | Wrote i s => if String.eqb i experiment_id then [s] else []
    | Sent _ _ => []
    end) (notices tr).

(** The life cycle of the specification, as an automaton over the status
    values written: PENDING, RUNNING, then COMPLETED or FAILED, and again
    from PENDING after a resume.  A history is valid when the automaton
    accepts it; it may stop at any point of a cycle. *)
Inductive phase := Fresh | Pending | Running | Terminal.

Definition next_phase (p : phase) (s : ExperimentStatus) : option phase :=
  match p, s with
  | Fresh, PENDING => Some Pending
  | Pending, RUNNING => Some Running
  | Running, COMPLETED => Some Terminal
  | Running, FAILED => Some Terminal
  | Terminal, PENDING => Some Pending
  | _, _ => None
  end.

Fixpoint run_phases (p : phase) (h : list ExperimentStatus) : option phase :=
  match h with
  | [] => Some p
  | s :: h' =>
    match next_phase p s with
    | Some p' => run_phases p' h'
    | None => None
    end
  end.

Definition valid_history (h : list ExperimentStatus) : bool :=
  match run_phases Fresh h with Some _ => true | None => false end.

(** The client lists the training entry point was called with. *)
Definition entry_point_calls (tr : list event) : list (list pyval) :=
  flat_map (fun e =>
    match e with
    | EvModelRunner _ _ client_pool _ => [client_pool]
    | _ => []
    end) tr.

(** [sub] occurs in [s]. *)
Definition contains (sub s : string) : Prop :=
  exists pre post, s = pre +:+ sub +:+ post.

(** Whether [continue_experiement_with_monitoring] was entered for the
    experiment. *)
Definition relaunch_attempted (experiment_id : string) (tr : list event) : bool :=
  existsb (fun e =>
    match e with
    | EvEnter i => String.eqb i experiment_id
    | _ => false
    end) tr.

(** The message [send_message_to_owner] gets through, if the owner is a
    known user. *)
Definition sent_to_owner (w : World) (experiment : Experiments.t)
    (text : string) : list notice :=
  match find_user (Experiments.owner experiment) (users w) with
  | Some u => [Sent (Users.chat_id u) text]
  | None => []
  end.

(** *** Auxiliary definitions for the statements about the runner *)

(** The experiments table after [update_experiment]. *)
Definition updated_experiments (experiment_id : string)
    (fields : list experiment_field) (rows : list Experiments.t) :=
  map (fun e =>
         if String.eqb (Experiments.id e) experiment_id
         then fold_left (fun e f => apply_experiment_field f e) fields e
         else e) rows.

(** What a step of the runner may change without writing a status or
    sending a message: it only appends events that are neither. *)
Definition silent (w w' : World) : Prop :=
  experiments w' = experiments w /\ users w' = users w /\
  exists delta, trace w' = (trace w ++ delta)%list /\ notices delta = [].

(** Steps that leave the history alone. *)
Definition same_trace (w w' : World) : Prop := trace w' = trace w.

(** The four suites of the [try] statement of [train_model]. *)
Definition try_body_with (experiment : Experiments.t) (log_dir : Fs.path)
    (model_runner : runner) (env_id : string) (model_params : params)
    (client_pool : list pyval) : M World unit :=
  update_experiment (Experiments.id experiment) [Set_status RUNNING] ;;;
  monitor_start ("ExperimentMonitor-" +:+ Experiments.id experiment) ;;;
  emit (EvModelRunner log_dir env_id client_pool model_params) ;;;
  match model_runner log_dir env_id client_pool 10 model_params with
  | None => ret tt
  | Some e => raise e
  end.

Definition on_exception (experiment : Experiments.t) (e : exn) : M World unit :=
  monitor_stop ("ExperimentMonitor-" +:+ Experiments.id experiment) ;;;
  monitor_join ("ExperimentMonitor-" +:+ Experiments.id experiment) 2 ;;;
  end_date <- utcnow ;;
  update_experiment (Experiments.id experiment)
    [Set_status FAILED; Set_end_date end_date] ;;;
  let tb := format_exc e in
  send_message_to_owner experiment
    (failed_message (Experiments.id experiment) tb) ;;;
  raise e.

Definition on_return (experiment : Experiments.t) : M World unit :=
  end_date <- utcnow ;;
  update_experiment (Experiments.id experiment)
    [Set_status COMPLETED; Set_end_date end_date] ;;;
  send_message_to_owner experiment
    (completed_message (Experiments.id experiment)).

Definition finally_release (experiment : Experiments.t)
    (client_address : option string) : M World unit :=
  monitor_stop ("ExperimentMonitor-" +:+ Experiments.id experiment) ;;;
  monitor_join ("ExperimentMonitor-" +:+ Experiments.id experiment) 2 ;;;
  match client_address with
  | None =>
    raise (Exn UnboundLocalError
             "local variable 'client_address' referenced before assignment"
             (here "163" "train_model"))
  | Some a =>
    update_client a [Set_client_status AVALIABLE; Set_current_experiment None]
  end.

(** [train_model] once its log file is open: the reservation loop and the
    [try] statement. *)
Definition supervise (experiment : Experiments.t) (log_dir : Fs.path)
    (model_runner : runner) (env_id : string) (model_params : params)
    (fuel : nat) (num_envs : Z) : M World unit :=
  reserved <-
    reserve_clients fuel (Experiments.id experiment) (Z.to_nat num_envs) [] None ;;
  try_except_else_finally
    (try_body_with experiment log_dir model_runner env_id model_params
       (fst reserved))
    (on_exception experiment) (on_return experiment)
    (finally_release experiment (snd reserved)).

(** What one run of [train_model] writes and sends: nothing; or RUNNING,
    COMPLETED and the completion message; or RUNNING, FAILED and the failure
    message with the traceback of the exception the trainer raised. *)
Definition run_notices (w : World) (experiment : Experiments.t)
    (log_dir : Fs.path) (model_runner : runner) (env_id : string)
    (model_params : params) (ns : list notice) : Prop :=
  let i := Experiments.id experiment in
  ns = [] \/
  ns = (Wrote i RUNNING :: Wrote i COMPLETED ::
        sent_to_owner w experiment (completed_message i)) \/
  exists e client_pool,
    model_runner log_dir env_id client_pool 10 model_params = Some e /\
    ns = (Wrote i RUNNING :: Wrote i FAILED ::
          sent_to_owner w experiment (failed_message i (format_exc e))).

(** The tail the two entry points share once the record is stored: start
    the process, report a failed start to the owner, record the pid. *)
Definition launch (process_start : Experiments.t -> exn + Z)
    (experiment : Experiments.t) : M World Experiments.t :=
  training_process <-
    try_except (start_training_process process_start experiment)
      (fun e =>
         let tb := format_exc e in
         send_message_to_owner experiment
           (failed_message (Experiments.id experiment) tb) ;;;
         raise e) ;;
  update_experiment (Experiments.id experiment) [Set_pid training_process] ;;;
  ret experiment.

(** Two records that differ in the pid at most. *)
Definition same_but_pid (e e' : Experiments.t) : Prop :=
  Experiments.id e' = Experiments.id e /\
  Experiments.status e' = Experiments.status e /\
  Experiments.total_timesteps e' = Experiments.total_timesteps e /\
  Experiments.model_params e' = Experiments.model_params e /\
  Experiments.owner e' = Experiments.owner e.

(** The hyperparameters and the field map of a resume. *)
Definition resumed_params (log_dir : Fs.path) (total_timesteps : Z)
    (p : params) : params :=
  <["total_timesteps" := PInt total_timesteps]>
    (<["load_path" := PStr (path_string (Fs.os_path_join log_dir "model.pkl"))]> p).

Definition resume_fields (user : Users.t) (experiment : Experiments.t)
    (log_dir : Fs.path) (total_timesteps : Z) : list experiment_field :=
  [Set_total_timesteps (Experiments.total_timesteps experiment + total_timesteps);
   Set_status PENDING;
   Set_model_params
     (resumed_params log_dir total_timesteps (Experiments.model_params experiment));
   Set_owner (Users.id user)].

(** The members [get_experiments_by_group_id] returns, and the loop of
    [continue_experiment_group] over them. *)
Definition group_members (group_id : string) (w : World) : list Experiments.t :=
  List.filter (fun e => String.eqb (Experiments.group_id e) group_id)
    (experiments w).

Definition relaunch_all (train_a2c train_dqn : runner)
    (process_start : Experiments.t -> exn + Z) (user : Users.t)
    (total_timesteps : Z) (members : list Experiments.t) : M World unit :=
  for_each members (fun experiment =>
    continue_experiement_with_monitoring train_a2c train_dqn process_start
      user experiment total_timesteps ;;; ret tt).

(** Two steps of [run_new_single_experiment_with_monitoring]: the group id
    and [model_params['total_timesteps']]. *)
Definition draw_group_id (uuid4_value : nat -> string)
    (group_id : option string) : M World string :=
  match group_id with
  | Some g => if String.eqb g "" then uuid4 uuid4_value else ret g
  | None => uuid4 uuid4_value
  end.

Definition requested_timesteps (model_params : params) : M World pyval :=
  match model_params !! "total_timesteps" with
  | Some v => ret v
  | None =>
    raise (Exn KeyError "'total_timesteps'"
             (here "192" "run_new_single_experiment_with_monitoring"))
  end.

End RosalindSpec.


(** ** The Malmo gym environment *)

Module Malmo.

(** What [agent_host.peekWorldState()] and [getWorldState()] return: the
    fields of [MalmoPython.WorldState] the environment reads.  Messages,
    errors and observations are kept as their [text], rewards as their
    value. *)
Record WorldState (frame : Type) := BuildWorldState {
  has_mission_begun : bool;
  is_mission_running : bool;
  number_of_video_frames_since_last_state : Z;
  number_of_rewards_since_last_state : Z;
  number_of_observations_since_last_state : Z;
  mission_control_messages : list string;
  errors : list string;
  rewards : list Q;
  observations : list string;
  video_frames : list frame
}.
Arguments BuildWorldState {frame}.
Arguments has_mission_begun {frame}.
Arguments is_mission_running {frame}.
Arguments number_of_video_frames_since_last_state {frame}.
Arguments number_of_rewards_since_last_state {frame}.
Arguments number_of_observations_since_last_state {frame}.
Arguments mission_control_messages {frame}.
Arguments errors {frame}.
Arguments rewards {frame}.
Arguments observations {frame}.
Arguments video_frames {frame}.

(** The libraries the environment is written against: MalmoPython's agent
    host and mission specification, numpy arrays, [json] and
    [xml.etree.ElementTree], and the two methods a concrete environment
    overrides.  The state of the agent host stands for the Minecraft client
    behind it; [elapse] is what happens to it while Python sleeps. *)
Class Externals := {
  host : Type;
  mission : Type;
  frame : Type;
  ndarray : Type;
  json : Type;
  peekWorldState : host -> WorldState frame;
  getWorldState : host -> WorldState frame * host;
  sendCommand : string -> host -> host;
  (** [startMission] starts the mission or raises a [RuntimeError] with
      the given message. *)
  startMission : mission -> option (list (string * Z)) -> host ->
                 option string * host;
  elapse : Q -> host -> host;
  mission_forceWorldReset : mission -> mission;
  np_zeros : list Z -> ndarray;
  np_vstack : list ndarray -> exn + ndarray;
  (** [np.frombuffer(frame.pixels, dtype=np.uint8).reshape((frame.height,
      frame.width, frame.channels))] *)
  frame_image : frame -> exn + ndarray;
  json_loads : string -> exn + json;
  (** [ET.fromstring(text)] parses or raises [ParseError]; the parsed tree
      is only logged. *)
  ET_fromstring : string -> option exn;
  _load_mission : exn + mission;
  _world_state_parser : WorldState frame -> exn + (ndarray * Q)
}.

Inductive space :=
| Discrete (n : Z)
| Box (n : Z)
| MultiDiscrete (ranges : list (Z * Z)).

(** An action as gym hands it over: a number, or a sequence (tuple, list or
    array) of actions.  A number that is not an integer is kept as the text
    [str] gives for it. *)
Inductive scalar :=
| SInt (i : Z)
| SFloat (text : string).

Inductive action :=
| AScalar (x : scalar)
| ASeq (items : list action).

Definition str_scalar (x : scalar) : string :=
  match x with
  | SInt i => pretty i
  | SFloat text => text
  end.

(** [str(val)] *)
Fixpoint py_str (a : action) : string :=
  match a with
  | AScalar x => str_scalar x
  | ASeq items =>
    "[" +:+ String.concat ", " (map py_str items) +:+ "]"
  end.

(** What the environment did to the agent host and the clock, in order. *)
Inductive journal_event :=
| JStartMission (error : option string)
| JSendCommand (command : string)
| JPeekWorldState
| JGetWorldState
| JSleep (seconds : Q).

Section Environment.
Context {X : Externals}.

(** The attributes of a [MalmoEnvironment] object, and the journal. *)
Record MalmoEnvironment := BuildEnv {
  agent_host : host;
  parse_world_state : bool;
  client_pool : option (list (string * Z));
  mission_spec : option mission;
  max_retries : Z;
  retry_sleep : Q;
  step_sleep : Q;
  skip_steps : Z;
  forceWorldReset : bool;
  previous_observations : option json;
  num_actions : Z;
  _num_resets : Z;
  _reset_counter : Z;
  replay_buffer_size : Z;
  replay_buffer : list ndarray;
  last_image : ndarray;
  observation_space_shape : list Z;
  action_spaces : list space;
  action_names : list (list string);
  journal : list journal_event
}.

Definition set_agent_host (x : host) (s : MalmoEnvironment) :=
  BuildEnv x (parse_world_state s) (client_pool s) (mission_spec s)
    (max_retries s) (retry_sleep s) (step_sleep s) (skip_steps s)
    (forceWorldReset s) (previous_observations s) (num_actions s)
    (_num_resets s) (_reset_counter s) (replay_buffer_size s)
    (replay_buffer s) (last_image s) (observation_space_shape s)
    (action_spaces s) (action_names s) (journal s).
Definition set_mission_spec (x : option mission) (s : MalmoEnvironment) :=
  BuildEnv (agent_host s) (parse_world_state s) (client_pool s) x
    (max_retries s) (retry_sleep s) (step_sleep s) (skip_steps s)
    (forceWorldReset s) (previous_observations s) (num_actions s)
    (_num_resets s) (_reset_counter s) (replay_buffer_size s)
    (replay_buffer s) (last_image s) (observation_space_shape s)
    (action_spaces s) (action_names s) (journal s).
Definition set_previous_observations (x : option json) (s : MalmoEnvironment) :=
  BuildEnv (agent_host s) (parse_world_state s) (client_pool s)
    (mission_spec s) (max_retries s) (retry_sleep s) (step_sleep s)
    (skip_steps s) (forceWorldReset s) x (num_actions s)
    (_num_resets s) (_reset_counter s) (replay_buffer_size s)
    (replay_buffer s) (last_image s) (observation_space_shape s)
    (action_spaces s) (action_names s) (journal s).
Definition set_num_actions (x : Z) (s : MalmoEnvironment) :=
  BuildEnv (agent_host s) (parse_world_state s) (client_pool s)
    (mission_spec s) (max_retries s) (retry_sleep s) (step_sleep s)
    (skip_steps s) (forceWorldReset s) (previous_observations s) x
    (_num_resets s) (_reset_counter s) (replay_buffer_size s)
    (replay_buffer s) (last_image s) (observation_space_shape s)
    (action_spaces s) (action_names s) (journal s).
Definition set_num_resets (x : Z) (s : MalmoEnvironment) :=
  BuildEnv (agent_host s) (parse_world_state s) (client_pool s)
    (mission_spec s) (max_retries s) (retry_sleep s) (step_sleep s)
    (skip_steps s) (forceWorldReset s) (previous_observations s)
    (num_actions s) x (_reset_counter s) (replay_buffer_size s)
    (replay_buffer s) (last_image s) (observation_space_shape s)
    (action_spaces s) (action_names s) (journal s).
Definition set_replay_buffer (x : list ndarray) (s : MalmoEnvironment) :=
  BuildEnv (agent_host s) (parse_world_state s) (client_pool s)
    (mission_spec s) (max_retries s) (retry_sleep s) (step_sleep s)
    (skip_steps s) (forceWorldReset s) (previous_observations s)
    (num_actions s) (_num_resets s) (_reset_counter s)
    (replay_buffer_size s) x (last_image s) (observation_space_shape s)
    (action_spaces s) (action_names s) (journal s).
Definition set_last_image (x : ndarray) (s : MalmoEnvironment) :=
  BuildEnv (agent_host s) (parse_world_state s) (client_pool s)
    (mission_spec s) (max_retries s) (retry_sleep s) (step_sleep s)
    (skip_steps s) (forceWorldReset s) (previous_observations s)
    (num_actions s) (_num_resets s) (_reset_counter s)
    (replay_buffer_size s) (replay_buffer s) x (observation_space_shape s)
    (action_spaces s) (action_names s) (journal s).
Definition set_journal (x : list journal_event) (s : MalmoEnvironment) :=
  BuildEnv (agent_host s) (parse_world_state s) (client_pool s)
    (mission_spec s) (max_retries s) (retry_sleep s) (step_sleep s)
    (skip_steps s) (forceWorldReset s) (previous_observations s)
    (num_actions s) (_num_resets s) (_reset_counter s)
    (replay_buffer_size s) (replay_buffer s) (last_image s)
    (observation_space_shape s) (action_spaces s) (action_names s) x.

Abbreviation Env := (M MalmoEnvironment).

Definition note (e : journal_event) : Env unit :=
  modify (fun s => set_journal (journal s ++ [e]) s).

Definition malmo_error (c : exn_class) (msg line fn : string) : exn :=
  Exn c msg (nl +:+ "  File malmo_env.py, line " +:+ line +:+ ", in " +:+ fn +:+ nl).

(** Raise what a library call raised, or return its value. *)
Definition lift_exn {A} (r : exn + A) : Env A :=
  match r with
  | inl e => raise e
  | inr a => ret a
  end.

(** [time.sleep(seconds)] *)
Definition time_sleep (seconds : Q) : Env unit :=
  modify (fun s => set_agent_host (elapse seconds (agent_host s)) s) ;;;
  note (JSleep seconds).

Definition agent_peekWorldState : Env (WorldState frame) :=
  s <- get ;;
  note JPeekWorldState ;;;
  ret (peekWorldState (agent_host s)).

Definition agent_getWorldState : Env (WorldState frame) :=
  s <- get ;;
  let '(ws, h) := getWorldState (agent_host s) in
  modify (set_agent_host h) ;;;
  note JGetWorldState ;;;
  ret ws.

(** [_send_command(command, world_state)] *)
Definition _send_command (command : string) : Env unit :=
  modify (fun s => set_agent_host (sendCommand command (agent_host s)) s) ;;;
  note (JSendCommand command).

(** [l[i]] with Python's negative indices. *)
Definition py_getitem {A} (line fn : string) (l : list A) (i : Z) : Env A :=
  let n := Z.of_nat (length l) in
  let j := if i <? 0 then i + n else i in
  match (if (0 <=? j) && (j <? n) then l !! Z.to_nat j else None) with
  | Some a => ret a
  | None => raise (malmo_error IndexError "list index out of range" line fn)
  end.

Fixpoint zip3 {A B C} (a : list A) (b : list B) (c : list C)
  : list (A * B * C) :=
  match a, b, c with
  | x :: a', y :: b', z :: c' => (x, y, z) :: zip3 a' b' c'
  | _, _, _ => []
  end.

(** [_take_action(actions, world_state)] *)
Definition _take_action (actions : action) : Env unit :=
  s <- get ;;
  actions <-
    (if (length (action_spaces s) =? 1)%nat then ret [actions]
     else
       match actions with
       | ASeq acts => ret acts
       | AScalar _ =>
         raise (malmo_error TypeError "zip argument #3 must support iteration"
                  "313" "_take_action")
       end) ;;
  for_each (zip3 (action_spaces s) (action_names s) actions)
    (fun '(spc, cmds, acts) =>
       match spc with
       | Discrete _ =>
         match acts with
         | AScalar (SInt i) =>
           cmd <- py_getitem "316" "_take_action" cmds i ;;
           _send_command cmd
         | _ =>
           raise (malmo_error TypeError "list indices must be integers"
                    "316" "_take_action")
         end
       | Box _ | MultiDiscrete _ =>
         match acts with
         | ASeq vals =>
           for_each (zip cmds vals) (fun '(cmd, val) =>
             _send_command (cmd +:+ " " +:+ py_str val))
         | AScalar _ =>
           raise (malmo_error TypeError "zip argument #2 must support iteration"
                    "318" "_take_action")
         end
       end).

(** [_get_world_state(ignore_rewards=False)]: the polling loop runs at
    most [fuel] times. *)
Fixpoint _get_world_state (fuel : nat) (ignore_rewards : bool)
  : Env (WorldState frame) :=
  match fuel with
  | O => hang
  | S fuel' =>
    s <- get ;;
    time_sleep (step_sleep s) ;;;
    world_state <- agent_peekWorldState ;;
    if ((0 <? Z.of_nat (length (rewards world_state))) || ignore_rewards)
         && (skip_steps s <? number_of_observations_since_last_state world_state)
       || negb (is_mission_running world_state)
    then agent_getWorldState
    else _get_world_state fuel' ignore_rewards
  end.

(** [xs[-1]] *)
Definition py_last {A} (line fn : string) (xs : list A) : Env A :=
  match last xs with
  | Some x => ret x
  | None => raise (malmo_error IndexError "list index out of range" line fn)
  end.

Definition py_assert (b : bool) (line fn : string) : Env unit :=
  if b then ret tt else raise (malmo_error AssertionError "" line fn).

(** [_get_video_frame(world_state)] *)
Definition _get_video_frame (world_state : WorldState frame) : Env ndarray :=
  if 0 <? number_of_video_frames_since_last_state world_state then
    py_assert (length (video_frames world_state) =? 1)%nat
      "364" "_get_video_frame" ;;;
    frame <- py_last "365" "_get_video_frame" (video_frames world_state) ;;
    image <- lift_exn (frame_image frame) ;;
    modify (set_last_image image) ;;;
    ret image
  else
    s <- get ;;
    ret (last_image s).

(** [_get_observation(world_state)] *)
Definition _get_observation (world_state : WorldState frame)
  : Env (option json) :=
  if (0 <? number_of_observations_since_last_state world_state)
     && is_mission_running world_state
  then
    py_assert (length (observations world_state) =? 1)%nat
      "391" "_get_observation" ;;;
    text <- py_last "392" "_get_observation" (observations world_state) ;;
    observations <- lift_exn (json_loads text) ;;
    modify (set_previous_observations (Some observations)) ;;;
    ret (Some observations)
  else
    s <- get ;;
    ret (previous_observations s).

(** [_update_replay_buffer_and_get_observation(observation)] *)
Definition _update_replay_buffer_and_get_observation (observation : ndarray)
  : Env ndarray :=
  s <- get ;;
  let buffer := removelast (observation :: replay_buffer s) in
  modify (set_replay_buffer buffer) ;;;
  lift_exn (np_vstack buffer).

(** The [info] dictionary [step] returns. *)
Record Info := BuildInfo {
  info_has_mission_begun : bool;
  info_is_mission_running : bool;
  info_number_of_video_frames_since_last_state : Z;
  info_number_of_rewards_since_last_state : Z;
  info_number_of_observations_since_last_state : Z;
  info_mission_control_messages : list string;
  info_observation : option json
}.

(** The tuple [step] returns. *)
Record StepResult := BuildStep {
  obs : ndarray;
  reward : Q;
  done : bool;
  info : Info
}.

(** [step(action)] *)
Definition step (fuel : nat) (action : action) : Env StepResult :=
  world_state <- agent_peekWorldState ;;
  world_state <-
    (if is_mission_running world_state then
       _take_action action ;;;
       s <- get ;;
       modify (set_num_actions (num_actions s + 1)) ;;;
       _get_world_state fuel false
     else ret world_state) ;;
  for_each (mission_control_messages world_state) (fun text =>
    match ET_fromstring text with
    | Some e => raise e
    | None => ret tt
    end) ;;;
  let done := negb (is_mission_running world_state) in
  observation <- _get_observation world_state ;;
  let info :=
    BuildInfo (has_mission_begun world_state)
      (is_mission_running world_state)
      (number_of_video_frames_since_last_state world_state)
      (number_of_rewards_since_last_state world_state)
      (number_of_observations_since_last_state world_state)
      (mission_control_messages world_state)
      observation in
  s <- get ;;
  obs_reward <-
    (if parse_world_state s then
       lift_exn (_world_state_parser world_state)
     else
       let reward := fold_left Qplus (rewards world_state) (0 : Q) in
       obs_frame <- _get_video_frame world_state ;;
       obs <- _update_replay_buffer_and_get_observation obs_frame ;;
       ret (obs, reward)) ;;
  ret (BuildStep (fst obs_reward) (snd obs_reward) done info).

(** [range(n)] *)
Definition py_range (n : Z) : list Z :=
  map Z.of_nat (seq 0 (Z.to_nat n)).

Definition startup_error (msg : string) : exn :=
  malmo_error RuntimeError msg "480" "reset".

Definition agent_startMission : Env (option string) :=
  s <- get ;;
  match mission_spec s with
  | None =>
    raise (malmo_error AttributeError
             "'MalmoEnvironment' object has no attribute 'mission_spec'"
             "480" "reset")
  | Some spec =>
    let '(r, h) := startMission spec (client_pool s) (agent_host s) in
    modify (set_agent_host h) ;;;
    note (JStartMission r) ;;;
    ret r
  end.

(** The loop [for retry in range(self.max_retries + 1)] of [reset]. *)
Fixpoint start_mission (retries : list Z) : Env unit :=
  match retries with
  | [] => ret tt
  | retry :: retries' =>
    r <- agent_startMission ;;
    match r with
    | None => ret tt
    | Some msg =>
      s <- get ;;
      if retry =? max_retries s then raise (startup_error msg)
      else time_sleep (retry_sleep s) ;;; start_mission retries'
    end
  end.

(** The first part of [reset]: counters and the mission specification. *)
Definition reset_prepare (force_reset : bool) : Env unit :=
  modify (set_num_actions 0) ;;;
  spec <- lift_exn _load_mission ;;
  modify (set_mission_spec (Some spec)) ;;;
  s <- get ;;
  (if forceWorldReset s || force_reset
   then modify (set_mission_spec (Some (mission_forceWorldReset spec)))
   else if _reset_counter s =? 0
        then raise (malmo_error ZeroDivisionError
                      "integer division or modulo by zero" "468" "reset")
        else if _num_resets s mod _reset_counter s =? 0
             then modify (set_mission_spec (Some (mission_forceWorldReset spec)))
             else ret tt) ;;;
  modify (set_num_resets (_num_resets s + 1)) ;;;
  time_sleep (1 # 10).

(** The loop [while not world_state.has_mission_begun] of [reset]. *)
Fixpoint wait_for_mission (fuel : nat) (world_state : WorldState frame)
  : Env unit :=
  if has_mission_begun world_state then ret tt
  else
    match fuel with
    | O => hang
    | S fuel' =>
      time_sleep (1 # 10) ;;;
      world_state <- agent_getWorldState ;;
      wait_for_mission fuel' world_state
    end.

(** [_init_replay_buffer()]; [int(a / b)] truncates towards zero. *)
Definition _init_replay_buffer : Env unit :=
  s <- get ;;
  match observation_space_shape s with
  | [] =>
    raise (malmo_error IndexError "list index out of range"
             "87" "_init_replay_buffer")
  | rows :: dims =>
    if replay_buffer_size s =? 0
    then raise (malmo_error ZeroDivisionError "division by zero"
                  "87" "_init_replay_buffer")
    else
      let shape := (rows ÷ replay_buffer_size s) :: dims in
      let initial_observation := np_zeros shape in
      modify (set_replay_buffer
                (repeat initial_observation (Z.to_nat (replay_buffer_size s))))
  end.

(** The rest of [reset], once the mission was started. *)
Definition reset_after_start (fuel : nat) : Env ndarray :=
  world_state <- agent_getWorldState ;;
  wait_for_mission fuel world_state ;;;
  _init_replay_buffer ;;;
  world_state <- _get_world_state fuel true ;;
  s <- get ;;
  if parse_world_state s then
    obs_reward <- lift_exn (_world_state_parser world_state) ;;
    ret (fst obs_reward)
  else
    obs_frame <- _get_video_frame world_state ;;
    _update_replay_buffer_and_get_observation obs_frame.

(** [reset(force_reset=False)] *)
Definition reset (fuel : nat) (force_reset : bool) : Env ndarray :=
  reset_prepare force_reset ;;;
  s <- get ;;
  start_mission (py_range (max_retries s + 1)) ;;;
  reset_after_start fuel.

End Environment.

End Malmo.


Module MalmoSpec.
Import Malmo.

Section Spec.
Context {X : Externals}.

(** The part of [step] after the action was taken or skipped: what it
    does with the world state it ends up with. *)
Definition step_finish (world_state : WorldState frame)
  : M MalmoEnvironment StepResult :=
  for_each (mission_control_messages world_state) (fun text =>
    match ET_fromstring text with
    | Some e => raise e
    | None => ret tt
    end) ;;;
  let done := negb (is_mission_running world_state) in
  observation <- _get_observation world_state ;;
  let info :=
    BuildInfo (has_mission_begun world_state)
      (is_mission_running world_state)
      (number_of_video_frames_since_last_state world_state)
      (number_of_rewards_since_last_state world_state)
      (number_of_observations_since_last_state world_state)
      (mission_control_messages world_state)
      observation in
  s <- get ;;
  obs_reward <-
    (if parse_world_state s then
       lift_exn (_world_state_parser world_state)
     else
       let reward := fold_left Qplus (rewards world_state) (0 : Q) in
       obs_frame <- _get_video_frame world_state ;;
       obs <- _update_replay_buffer_and_get_observation obs_frame ;;
       ret (obs, reward)) ;;
  ret (BuildStep (fst obs_reward) (snd obs_reward) done info).



(** The parts of the environment [step] must leave alone once the mission
    is over. *)
Definition untouched (s s' : MalmoEnvironment) : Prop :=
  agent_host s' = agent_host s /\ journal s' = journal s /\
  num_actions s' = num_actions s.



End Spec.
End MalmoSpec.

(** A Minecraft client that refuses the first [n] missions: the state of the
    agent host is the number of refusals left.  Its mission has begun and is
    already over; images are their number of rows. *)
Module MalmoScenario.
Import Malmo MalmoSpec.

Definition over_state : WorldState unit :=
  BuildWorldState true false 0 0 0 [] [] [] [] [].

Definition busy_client : Externals := {|
  host := nat;
  mission := bool;
  frame := unit;
  ndarray := Z;
  json := string;
  peekWorldState := fun _ => over_state;
  getWorldState := fun h => (over_state, h);
  sendCommand := fun _ h => h;
  startMission := fun _ _ h =>
    match h with
    | O => (None, O)
    | S h' => (Some "Failed to find an available client", h')
    end;
  elapse := fun _ h => h;
  mission_forceWorldReset := fun _ => true;
  np_zeros := fun shape => match shape with rows :: _ => rows | [] => 0 end;
  np_vstack := fun imgs => inr (fold_right Z.add 0 imgs);
  frame_image := fun _ => inr 84;
  json_loads := fun text => inr text;
  ET_fromstring := fun _ => None;
  _load_mission := inr false;
  _world_state_parser := fun _ => inr (0, 0%Q)
|}.

(** An environment as [__init__] and [init] leave it, with two retries and
    the client refusing [refusals] missions. *)
Definition fresh_env (refusals : nat) : MalmoEnvironment (X := busy_client) :=
  BuildEnv (X := busy_client) refusals false (Some [("127.0.0.1", 10000)]) (Some false)
    2 (10 # 1) (1 # 1000) 0 false None 0 0 20 5 [] 84 [420; 84; 3]
    [Discrete 2] [["move 1"; "move -1"]] [].

End MalmoScenario.


(** ** Example worlds *)

Module Scenario.
Import Rosalind.

Definition ok_runner : runner := fun _ _ _ _ _ => None.

Definition boom : exn :=
  Exn RuntimeError "boom" (nl +:+ "  File train.py, line 1, in train" +:+ nl).

Definition boom_runner : runner := fun _ _ _ _ _ => Some boom.

Definition uuids (n : nat) : string := "uuid-" +:+ pretty n.

Definition spawn_ok (e : Experiments.t) : exn + Z := inr 4242.

Definition alice : Users.t := Users.Build "alice" 1001.

Definition params0 : params := {[ "total_timesteps" := PInt 1000 ]}.

Definition experiment (i model : string) (status : ExperimentStatus)
  : Experiments.t :=
  Experiments.Build i "g1" model "MalmoMaze-v0" "alice" 1000 ["logs"; i]
    params0 None status None.

Definition log_tree (i : string) : string * Fs.node :=
  (i, Fs.Dir [("train.log", Fs.File "log");
              ("model.pkl", Fs.File "weights")]).

Definition files : Fs.node :=
  Fs.Dir [("logs", Fs.Dir [log_tree "e1"; log_tree "e2"; log_tree "e3"])].

Definition one_client : list ClientPool.t :=
  [ClientPool.Build "127.0.0.1:10000" AVALIABLE None].

(** One experiment, just created, and one free client. *)
Definition pending_world : World :=
  BuildWorld [experiment "e1" "a2c" PENDING] one_client [alice] files 0 0
    [EvCreateExperiment "e1" PENDING].

(** One experiment that ran to completion. *)
Definition completed_world : World :=
  BuildWorld [experiment "e1" "a2c" COMPLETED] one_client [alice] files 0 0
    [EvCreateExperiment "e1" PENDING;
     EvUpdateExperiment "e1" [Set_status RUNNING];
     EvUpdateExperiment "e1" [Set_status COMPLETED; Set_end_date 0]].

(** A group of three completed experiments; the model kind of the second
    is not registered. *)
Definition group_world : World :=
  BuildWorld
    [experiment "e1" "a2c" COMPLETED; experiment "e2" "ppo" COMPLETED;
     experiment "e3" "a2c" COMPLETED]
    one_client [alice] files 0 0 [].

(** The pending experiment in a database that does not know its owner. *)
Definition ownerless_world : World :=
  BuildWorld [experiment "e1" "a2c" PENDING] one_client [] files 0 0
    [EvCreateExperiment "e1" PENDING].

End Scenario.


(** ** Frame conditions that tolerate a hang

    [preserves R P m]: however [m] ends, the state it leaves is related by
    [R] to the state it starts in; the value it returns, if it returns,
    satisfies [P]. *)
Definition preserves {S A} (R : S -> S -> Prop) (P : A -> Prop) (m : M S A)
  : Prop :=
  forall s,
    let '(r, s') := m s in
    R s s' /\ match r with Ret a => P a | _ => True end.

(** ** What a run of the worker and of the entry points may do *)

Module RunnerSpec.
Import Rosalind RosalindSpec.

(** The history grows by events that satisfy [P]. *)
Definition appends (P : event -> bool) (w w' : World) : Prop :=
  exists delta, trace w' = (trace w ++ delta)%list /\ forallb P delta = true.

(** The calls one run of [train_model] for [experiment] can make: it asks
    for a client and sleeps ten seconds; it writes RUNNING, then FAILED or
    COMPLETED with an end date; it starts, stops and joins its monitor; it
    calls the trainer, with an empty client list; it sends messages. *)
Definition train_model_event (experiment : Experiments.t) (e : event) : bool :=
  let i := Experiments.id experiment in
  let monitor := "ExperimentMonitor-" +:+ i in
  match e with
  | EvReserveClient _ j => String.eqb j i
  | EvSleep n => n =? 10
  | EvUpdateExperiment j [Set_status RUNNING] => String.eqb j i
  | EvUpdateExperiment j [Set_status FAILED; Set_end_date _] => String.eqb j i
  | EvUpdateExperiment j [Set_status COMPLETED; Set_end_date _] => String.eqb j i
  | EvMonitorStart m => String.eqb m monitor
  | EvMonitorStop m => String.eqb m monitor
  | EvMonitorJoin m t => String.eqb m monitor && (t =? 2)
  | EvModelRunner _ _ [] _ => true
  | EvSendMessage _ _ => true
  | _ => false
  end.

(** The addresses [update_client] was called for. *)
Definition client_updates (tr : list event) : list string :=
  flat_map (fun e =>
    match e with
    | EvUpdateClient a _ => [a]
    | _ => []
    end) tr.

(** The exceptions [train_model] raises itself. *)
Definition unbound_client_address : exn :=
  Exn UnboundLocalError
    "local variable 'client_address' referenced before assignment"
    (here "163" "train_model").

Definition empty_client_pool : exn :=
  Exn IndexError "list index out of range" (here "113" "train_model").

Definition is_enter (e : event) : bool :=
  match e with EvEnter _ => true | _ => false end.

(** The experiments [continue_experiement_with_monitoring] was entered
    for, in order. *)
Definition entered (tr : list event) : list string :=
  flat_map (fun e =>
    match e with
    | EvEnter i => [i]
    | _ => []
    end) tr.

(** What the three entry points leave alone: the client pool and the
    clock. *)
Definition same_clients (w w' : World) : Prop :=
  Rosalind.client_pool w' = Rosalind.client_pool w /\ now w' = now w /\
  users w' = users w.

(** Two records of the same experiment: they agree on the columns no
    field map of [update_experiment] names. *)
Definition same_identity (e e' : Experiments.t) : Prop :=
  Experiments.id e' = Experiments.id e /\
  Experiments.group_id e' = Experiments.group_id e /\
  Experiments.model e' = Experiments.model e /\
  Experiments.env_id e' = Experiments.env_id e /\
  Experiments.log_dir e' = Experiments.log_dir e.

Definition same_records (w w' : World) : Prop :=
  Forall2 same_identity (experiments w) (experiments w').

(** The record [run_new_single_experiment_with_monitoring] creates. *)
Definition new_record (experiment_id group_id model env_id user : string)
    (total_timesteps : Z) (log_dir : Fs.path) (model_params : params)
  : Experiments.t :=
  Experiments.Build experiment_id group_id model env_id user total_timesteps
    log_dir model_params None PENDING None.

(** The group id [run_new_single_experiment_with_monitoring] uses: the one
    it is given, or the second UUID it draws. *)
Definition chosen_group_id (uuid4_value : nat -> string)
    (group_id : option string) (w : World) : string :=
  match group_id with
  | Some g => if String.eqb g "" then uuid4_value (S (uuids_drawn w)) else g
  | None => uuid4_value (S (uuids_drawn w))
  end.

(** The two steps of [build_log_dir]: make the directory unless it is
    one. *)
Definition ensure_dir (p : Fs.path) : M Fs.node unit :=
  isd <- Fs.os_path_isdir p ;;
  if negb isd then Fs.os_mkdir p else ret tt.

(** A name that is one path component: it is not empty, not [.] or [..],
    and holds no separator. *)
Fixpoint has_separator (s : string) : bool :=
  match s with
  | EmptyString => false
  | String c s' => Ascii.eqb c "/"%char || has_separator s'
  end.

Definition plain_name (s : string) : bool :=
  negb (String.eqb s "") && negb (String.eqb s ".") && negb (String.eqb s "..")
  && negb (has_separator s).

Definition is_dir (x : Fs.node) : bool :=
  match x with Fs.Dir _ => true | Fs.File _ => false end.

End RunnerSpec.


(** ** More of the Malmo environment *)

Module MalmoMore.
Import Malmo.

(** The lists [discrete_actions], [continuous_actions],
    [multidiscrete_actions] and [multidiscrete_action_ranges] of
    [_create_action_space]. *)
Record ActionLists := BuildActionLists {
  discrete_actions : list string;
  continuous_actions : list string;
  multidiscrete_actions : list string;
  multidiscrete_action_ranges : list (Z * Z)
}.

Definition SINGLE_DIRECTION_DISCRETE_MOVEMENTS : list string :=
  ["jumpeast"; "jumpnorth"; "jumpsouth"; "jumpwest";
   "movenorth"; "moveeast"; "movesouth"; "movewest";
   "jumpuse"; "use"; "attack"; "jump"].

Definition MULTIPLE_DIRECTION_DISCRETE_MOVEMENTS : list string :=
  ["move"; "turn"; "look"; "strafe"; "jumpmove"; "jumpstrafe"].

(** [cmd in names] *)
Definition py_in (cmd : string) (names : list string) : bool :=
  existsb (String.eqb cmd) names.

(** The body of the loop [for cmd in cmds] for the command handler [ch]. *)
Definition add_command (continuous_discrete : bool) (ch cmd : string)
    (acc : ActionLists) : exn + ActionLists :=
  let '(BuildActionLists discrete continuous multidiscrete ranges) := acc in
  if String.eqb ch "ContinuousMovement" then
    if py_in cmd ["move"; "strafe"; "pitch"; "turn"] then
      if continuous_discrete
      then inr (BuildActionLists (discrete ++ [cmd +:+ " 1"; cmd +:+ " -1"])%list
                  continuous multidiscrete ranges)
      else inr (BuildActionLists discrete (continuous ++ [cmd])%list multidiscrete
                  ranges)
    else if py_in cmd ["crouch"; "jump"; "attack"; "use"] then
      if continuous_discrete
      then inr (BuildActionLists (discrete ++ [cmd +:+ " 1"; cmd +:+ " 0"])%list
                  continuous multidiscrete ranges)
      else inr (BuildActionLists discrete continuous (multidiscrete ++ [cmd])%list
                  (ranges ++ [(0, 1)])%list)
    else inl (malmo_error ValueError ("Unknown continuous action " +:+ cmd)
                "269" "_create_action_space")
  else if String.eqb ch "DiscreteMovement" then
    if py_in cmd SINGLE_DIRECTION_DISCRETE_MOVEMENTS then
      inr (BuildActionLists (discrete ++ [cmd +:+ " 1"])%list continuous
             multidiscrete ranges)
    else if py_in cmd MULTIPLE_DIRECTION_DISCRETE_MOVEMENTS then
      inr (BuildActionLists (discrete ++ [cmd +:+ " 1"; cmd +:+ " -1"])%list
             continuous multidiscrete ranges)
    else inl (malmo_error ValueError
                ("(False, 'Unknown discrete action " +:+ cmd +:+ "')")
                "277" "_create_action_space")
  else inr acc.

Fixpoint add_commands (continuous_discrete : bool) (ch : string)
    (cmds : list string) (acc : ActionLists) : exn + ActionLists :=
  match cmds with
  | [] => inr acc
  | cmd :: cmds' =>
    match add_command continuous_discrete ch cmd acc with
    | inl e => inl e
    | inr acc' => add_commands continuous_discrete ch cmds' acc'
    end
  end.

(** The loop [for ch in chs]; a handler comes with the commands
    [getAllowedCommands(0, ch)] answers for it. *)
Fixpoint add_handlers (continuous_discrete : bool)
    (chs : list (string * list string)) (acc : ActionLists)
  : exn + ActionLists :=
  match chs with
  | [] => inr acc
  | (ch, cmds) :: chs' =>
    match add_commands continuous_discrete ch cmds acc with
    | inl e => inl e
    | inr acc' => add_handlers continuous_discrete chs' acc'
    end
  end.

(** [_create_action_space()]: the attributes [action_names] and
    [action_spaces] it sets, from [add_noop_command], [continuous_discrete]
    and the command handlers of the mission. *)
Definition _create_action_space (add_noop_command continuous_discrete : bool)
    (chs : list (string * list string))
  : exn + (list (list string) * list space) :=
  let discrete_actions :=
    if add_noop_command then ["move 0" +:+ nl +:+ "turn 0"] else [] in
  match add_handlers continuous_discrete chs
          (BuildActionLists discrete_actions [] [] []) with
  | inl e => inl e
  | inr (BuildActionLists discrete continuous multidiscrete ranges) =>
    let action_names : list (list string) := [] in
    let action_spaces : list space := [] in
    let '(action_names, action_spaces) :=
      if (0 <? length discrete)%nat
      then ((action_names ++ [discrete])%list,
            (action_spaces ++ [Discrete (Z.of_nat (length discrete))])%list)
      else (action_names, action_spaces) in
    let '(action_names, action_spaces) :=
      if (0 <? length continuous)%nat
      then ((action_names ++ [continuous])%list,
            (action_spaces ++ [Box (Z.of_nat (length continuous))])%list)
      else (action_names, action_spaces) in
    let '(action_names, action_spaces) :=
      if (0 <? length multidiscrete)%nat
      then ((action_names ++ [multidiscrete])%list,
            (action_spaces ++ [MultiDiscrete ranges])%list)
      else (action_names, action_spaces) in
    inr (action_names, action_spaces)
  end.

(** An action space describes its list of command names. *)
Definition space_fits (spc : space) (names : list string) : Prop :=
  names <> [] /\
  match spc with
  | Discrete n => n = Z.of_nat (length names)
  | Box n => n = Z.of_nat (length names)
  | MultiDiscrete ranges => ranges = repeat (0, 1) (length names)
  end.

(** What the loops of [_create_action_space] maintain: every multidiscrete
    action has the range [[0, 1]], and with [continuous_discrete] every
    action is a discrete one. *)
Definition lists_ok (continuous_discrete : bool) (acc : ActionLists) : Prop :=
  multidiscrete_action_ranges acc =
    repeat (0, 1) (length (multidiscrete_actions acc)) /\
  (continuous_discrete = true ->
   continuous_actions acc = [] /\ multidiscrete_actions acc = []).

(** The handlers of the default mission of the examples. *)
Definition example_handlers : list (string * list string) :=
  [("ContinuousMovement", ["move"; "turn"; "jump"]);
   ("DiscreteMovement", ["use"]);
   ("Inventory", ["swapInventoryItems"])].

Definition is_command (e : journal_event) : bool :=
  match e with JSendCommand _ => true | _ => false end.

(** The commands sent to the agent host, in order. *)
Definition commands (j : list journal_event) : list string :=
  flat_map (fun e => match e with JSendCommand c => [c] | _ => [] end) j.


Section Environment.
Context {X : Externals}.

(** [_peek_valid_world_state()]: the polling loop runs at most [fuel]
    times. *)
Fixpoint _peek_valid_world_state (fuel : nat) : M MalmoEnvironment (WorldState frame) :=
  match fuel with
  | O => hang
  | S fuel' =>
    s <- get ;;
    time_sleep (step_sleep s) ;;;
    world_state <- agent_peekWorldState ;;
    if (0 <? Z.of_nat (length (rewards world_state)))
         && (skip_steps s <? number_of_observations_since_last_state world_state)
       || negb (is_mission_running world_state)
    then ret world_state
    else _peek_valid_world_state fuel'
  end.

(** The condition that ends the polling loops. *)
Definition valid_world_state (ignore_rewards : bool) (skip_steps : Z)
    (world_state : WorldState frame) : bool :=
  ((0 <? Z.of_nat (length (rewards world_state))) || ignore_rewards)
    && (skip_steps <? number_of_observations_since_last_state world_state)
  || negb (is_mission_running world_state).

(** The journal grows by events that are no commands. *)
Definition no_command (s s' : MalmoEnvironment) : Prop :=
  exists delta,
    journal s' = (journal s ++ delta)%list /\ commands delta = [].

Definition same_num_actions (s s' : MalmoEnvironment) : Prop :=
  num_actions s' = num_actions s.

Definition same_buffer_length (s s' : MalmoEnvironment) : Prop :=
  length (replay_buffer s') = length (replay_buffer s).

(** The mission specification and the reset counter stay. *)
Definition same_mission (s s' : MalmoEnvironment) : Prop :=
  mission_spec s' = mission_spec s /\ _num_resets s' = _num_resets s.

(** Whether [reset] forces a new world. *)
Definition forces_world_reset (force_reset : bool) (s : MalmoEnvironment) : bool :=
  forceWorldReset s || force_reset || (_num_resets s mod _reset_counter s =? 0).

Definition same_buffer_size (s s' : MalmoEnvironment) : Prop :=
  replay_buffer_size s' = replay_buffer_size s.

End Environment.

(** The class [MalmoEnvironment] itself, whose [_load_mission] and
    [_world_state_parser] raise [NotImplementedError], in front of the
    client of [MalmoScenario]. *)
Definition base_class : Externals := {|
  host := nat;
  mission := bool;
  frame := unit;
  ndarray := Z;
  json := string;
  peekWorldState := peekWorldState (Externals := MalmoScenario.busy_client);
  getWorldState := getWorldState (Externals := MalmoScenario.busy_client);
  sendCommand := sendCommand (Externals := MalmoScenario.busy_client);
  startMission := startMission (Externals := MalmoScenario.busy_client);
  elapse := elapse (Externals := MalmoScenario.busy_client);
  mission_forceWorldReset := fun _ => true;
  np_zeros := np_zeros (Externals := MalmoScenario.busy_client);
  np_vstack := np_vstack (Externals := MalmoScenario.busy_client);
  frame_image := frame_image (Externals := MalmoScenario.busy_client);
  json_loads := json_loads (Externals := MalmoScenario.busy_client);
  ET_fromstring := fun _ => None;
  _load_mission :=
    inl (malmo_error NotImplementedError
           "You must Implement a Mission Spec in order to start a mission!"
           "59" "_load_mission");
  _world_state_parser := fun _ =>
    inl (malmo_error NotImplementedError
           "If not collecting data from images you must implement a world state parser."
           "69" "_world_state_parser")
|}.

Definition base_env : MalmoEnvironment (X := base_class) :=
  BuildEnv (X := base_class) 0%nat false None None 90 (10 # 1) (1 # 1000) 0
    false None 7 0 20 5 [] 0 [] [] [] [].

End MalmoMore.


(** * Proofs *)

(** ** The monad *)

Lemma bind_unfold {S A B} (m : M S A) (k : A -> M S B) s :
  bind m k s =
  match m s with
  | (Ret a, s') => k a s'
  | (Raise e, s') => (Raise e, s')
  | (Hang, s') => (Hang, s')
  end.
Proof. reflexivity. Qed.

Lemma for_each_app {S A} (xs ys : list A) (body : A -> M S unit) s :
  for_each (xs ++ ys) body s =
  match for_each xs body s with
  | (Ret _, s1) => for_each ys body s1
  | other => other
  end.
Proof.
  revert s. induction xs as [|x xs IH]; intros s; [done|].
  cbn [app for_each]. rewrite !bind_unfold.
  destruct (body x s) as [[[]|e|] s1]; [apply IH|done|done].
Qed.

Section Keeps.
Context {S : Type} (R : S -> S -> Prop).
Hypothesis R_refl : forall s, R s s.
Hypothesis R_trans : forall s1 s2 s3, R s1 s2 -> R s2 s3 -> R s1 s3.

Lemma keeps_ret {A} (P : A -> Prop) a : P a -> keeps R P (ret a).
Proof using R_refl. intros H s. simpl. auto. Qed.

Lemma keeps_raise {A} (P : A -> Prop) e : keeps R P (raise e).
Proof using R_refl. intros s. simpl. auto. Qed.

Lemma keeps_get (P : S -> Prop) : (forall s, P s) -> keeps R P get.
Proof using R_refl. intros H s. simpl. auto. Qed.

Lemma keeps_modify (f : S -> S) :
  (forall s, R s (f s)) -> keeps R (fun _ => True) (modify f).
Proof. intros H s. simpl. auto. Qed.

Lemma keeps_bind {A B} (Q : A -> Prop) (P : B -> Prop) m (k : A -> M S B) :
  keeps R Q m -> (forall a, Q a -> keeps R P (k a)) -> keeps R P (bind m k).
Proof using R_trans.
  intros Hm Hk s. unfold bind. specialize (Hm s).
  destruct (m s) as [[a|e|] s1]; destruct Hm as [HR HQ]; [|done|done].
  specialize (Hk a HQ s1). destruct (k a s1) as [r s2].
  destruct Hk as [HR2 HP]. eauto.
Qed.

Lemma keeps_weaken {A} (P Q : A -> Prop) m :
  (forall a, P a -> Q a) -> keeps R P m -> keeps R Q m.
Proof.
  intros HPQ Hm s. specialize (Hm s). destruct (m s) as [[a|e|] s1];
    destruct Hm; auto.
Qed.

Lemma keeps_for_each {A} (xs : list A) (body : A -> M S unit) :
  (forall x, keeps R (fun _ => True) (body x)) ->
  keeps R (fun _ => True) (for_each xs body).
Proof using R_refl R_trans.
  intros H. induction xs as [|x xs IH]; simpl.
  - by apply keeps_ret.
  - eapply keeps_bind; [apply H|]. intros _ _. apply IH.
Qed.

End Keeps.

Module FsFacts.
Import Fs FsSpec.

Lemma lookup_put_eq d k x : lookup (put d k x) k = Some x.
Proof.
  induction d as [|[n y] d IH]; simpl.
  - by rewrite String.eqb_refl.
  - destruct (String.eqb_spec n k) as [->|Hne]; simpl.
    + by rewrite String.eqb_refl.
    + destruct (String.eqb_spec n k); [done|]. apply IH.
Qed.

Lemma lookup_put_ne d k k' x : k <> k' -> lookup (put d k x) k' = lookup d k'.
Proof.
  intros Hne. induction d as [|[n y] d IH]; simpl.
  - destruct (String.eqb_spec k k'); done.
  - destruct (String.eqb_spec n k) as [->|Hnk]; simpl.
    + destruct (String.eqb_spec k k'); done.
    + by rewrite IH.
Qed.

Lemma put_id d k x : lookup d k = Some x -> put d k x = d.
Proof.
  induction d as [|[n y] d IH]; simpl; [done|].
  destruct (String.eqb_spec n k) as [->|Hnk].
  - by intros [= ->].
  - intros H. by rewrite IH.
Qed.

Lemma put_put d k x y : put (put d k x) k y = put d k y.
Proof.
  induction d as [|[n z] d IH]; simpl.
  - by rewrite String.eqb_refl.
  - destruct (String.eqb_spec n k) as [->|Hnk]; simpl.
    + by rewrite String.eqb_refl.
    + destruct (String.eqb_spec n k); [done|]. by rewrite IH.
Qed.

Lemma map_fst_put d k x y :
  lookup d k = Some y -> map fst (put d k x) = map fst d.
Proof.
  induction d as [|[n z] d IH]; simpl; [done|].
  destruct (String.eqb_spec n k) as [->|Hnk]; simpl; [done|].
  intros H. by rewrite IH.
Qed.

Lemma resolve_app p q n :
  resolve (p ++ q) n =
  match resolve p n with Some x => resolve q x | None => None end.
Proof.
  revert n. induction p as [|c p IH]; intros n; simpl; [done|].
  destruct n as [|es]; [done|]. destruct (lookup es c); [apply IH|done].
Qed.

Lemma graft_app p q x y n :
  resolve p n = Some y -> graft (p ++ q) x n = graft p (graft q x y) n.
Proof.
  revert n. induction p as [|c p IH]; intros n; simpl.
  - by intros [= ->].
  - destruct n as [|es]; [done|]. destruct (lookup es c) as [z|]; [|done].
    intros H. by rewrite (IH _ H).
Qed.

Lemma resolve_graft p x y n :
  resolve p n = Some y -> resolve p (graft p x n) = Some x.
Proof.
  revert n. induction p as [|c p IH]; intros n; simpl; [done|].
  destruct n as [|es]; [done|]. destruct (lookup es c) as [z|] eqn:E; [|done].
  intros H. simpl. rewrite lookup_put_eq. by apply IH.
Qed.

Lemma graft_graft p x1 x2 y n :
  resolve p n = Some y -> graft p x2 (graft p x1 n) = graft p x2 n.
Proof.
  revert n. induction p as [|c p IH]; intros n; simpl; [done|].
  destruct n as [|es]; [done|]. destruct (lookup es c) as [z|] eqn:E; [|done].
  intros H. simpl. rewrite lookup_put_eq, put_put. by rewrite (IH _ H).
Qed.

Lemma graft_id p x n : resolve p n = Some x -> graft p x n = n.
Proof.
  revert n. induction p as [|c p IH]; intros n; simpl.
  - by intros [= ->].
  - destruct n as [|es]; [done|]. destruct (lookup es c) as [z|] eqn:E; [|done].
    intros H. rewrite (IH _ H). by rewrite put_id.
Qed.

Lemma split_last_app p c : split_last (p ++ [c]) = Some (p, c).
Proof.
  induction p as [|a p IH]; simpl; [done|].
  rewrite IH. by destruct p.
Qed.

Lemma split_last_join p c : split_last (os_path_join p c) = Some (p, c).
Proof. apply split_last_app. Qed.

Lemma resolve_join p c n :
  resolve (os_path_join p c) n =
  match resolve p n with
  | Some (Dir es) => lookup es c
  | _ => None
  end.
Proof.
  unfold os_path_join. rewrite resolve_app.
  destruct (resolve p n) as [[|es]|]; simpl; try done.
  by destruct (lookup es c).
Qed.

Lemma graft_join p c x y es n :
  resolve p n = Some (Dir es) -> lookup es c = Some y ->
  graft (os_path_join p c) x n = graft p (Dir (put es c x)) n.
Proof.
  intros Hp Hc. unfold os_path_join. rewrite (graft_app _ _ _ _ _ Hp).
  simpl. by rewrite Hc.
Qed.

Lemma path_neq_join1 (L : path) item ck :
  path_eqb (os_path_join L item) (os_path_join (os_path_join L ck) item) = false.
Proof.
  unfold path_eqb, os_path_join. apply bool_decide_eq_false. intros H.
  apply (f_equal length) in H. rewrite !length_app in H. simpl in H. lia.
Qed.

Lemma path_neq_join2 (L : path) item ck :
  path_eqb (os_path_join L item)
    (os_path_join (os_path_join (os_path_join L ck) item) item) = false.
Proof.
  unfold path_eqb, os_path_join. apply bool_decide_eq_false. intros H.
  apply (f_equal length) in H. rewrite !length_app in H. simpl in H. lia.
Qed.

Section AtLogDir.
Variable L : path.
Local Abbreviation ckp := (os_path_join L "checkpoint").

Lemma at_log_dir_checkpoint fs es D :
  at_log_dir L fs es D -> resolve ckp fs = Some (Dir D).
Proof. intros [HL Hck]. by rewrite resolve_join, HL. Qed.

Lemma graft_checkpoint fs es D X :
  at_log_dir L fs es D ->
  graft ckp X fs = graft L (Dir (put es "checkpoint" X)) fs.
Proof. intros [HL Hck]. by erewrite graft_join. Qed.

Lemma at_log_dir_graft fs es D D' :
  at_log_dir L fs es D ->
  at_log_dir L (graft ckp (Dir D') fs) (put es "checkpoint" (Dir D')) D'.
Proof.
  intros H. rewrite (graft_checkpoint _ _ _ _ H). destruct H as [HL Hck].
  split; [by eapply resolve_graft | apply lookup_put_eq].
Qed.

Lemma shutil_copy2_spec fs es D item c :
  at_log_dir L fs es D ->
  lookup es item = Some (File c) ->
  shutil_copy2 (os_path_join L item) (os_path_join ckp item) fs =
  let '(r, D') := copy_into item c D in (r, graft ckp (Dir D') fs).
Proof.
  intros H Eitem. pose proof (at_log_dir_checkpoint _ _ _ H) as Hckp.
  destruct H as [HL Hck].
  assert (Hs : resolve (os_path_join L item) fs = Some (File c)).
  { by rewrite resolve_join, HL. }
  assert (Hd : resolve (os_path_join ckp item) fs = lookup D item).
  { by rewrite resolve_join, Hckp. }
  unfold shutil_copy2. rewrite Hs, Hd, split_last_join.
  unfold copy_into.
  destruct (lookup D item) as [[c'|sub]|] eqn:ED.
  - rewrite path_neq_join1.
    unfold write_file. rewrite split_last_join, Hckp, ED.
    unfold set_entry. by rewrite Hckp.
  - rewrite path_neq_join2.
    unfold write_file. rewrite split_last_join, Hd.
    destruct (lookup sub item) as [[c'|sub']|] eqn:Esub.
    + unfold set_entry. rewrite Hd.
      by rewrite (graft_join _ _ _ _ _ _ Hckp ED).
    + by rewrite graft_id.
    + unfold set_entry. rewrite Hd.
      by rewrite (graft_join _ _ _ _ _ _ Hckp ED).
  - rewrite path_neq_join1.
    unfold write_file. rewrite split_last_join, Hckp, ED.
    unfold set_entry. by rewrite Hckp.
Qed.

Lemma copy_step_spec fs es D item :
  at_log_dir L fs es D ->
  copy_step L item fs =
  match lookup es item with
  | Some (Dir _) => (Ret tt, fs)
  | Some (File c) =>
    let '(r, D') := copy_into item c D in (r, graft ckp (Dir D') fs)
  | None => (Raise (os_error FileNotFoundError "copy2"), fs)
  end.
Proof.
  intros H.
  assert (Hs : resolve (os_path_join L item) fs = lookup es item).
  { destruct H as [HL Hck]. by rewrite resolve_join, HL. }
  unfold copy_step, bind, os_path_isdir. rewrite Hs.
  destruct (lookup es item) as [[c|sub]|] eqn:Eitem; cbn [negb].
  - by apply (shutil_copy2_spec fs es D).
  - done.
  - unfold shutil_copy2. by rewrite Hs.
Qed.

End AtLogDir.

Section Checkpoint.
Variable L : path.
Local Abbreviation ckp := (os_path_join L "checkpoint").

(** [copy_all] reads the entries of the log directory only to tell files
    from directories, and the checkpoint pass changes neither. *)
Lemma copy_all_ext es es' items :
  (forall item, item <> "checkpoint" -> lookup es' item = lookup es item) ->
  (exists D D', lookup es "checkpoint" = Some (Dir D) /\
                lookup es' "checkpoint" = Some (Dir D')) ->
  copy_all es' items = copy_all es items.
Proof.
  intros Hsame (D & D' & Hck & Hck'). unfold copy_all.
  induction items as [|item items IH]; simpl; [done|].
  rewrite IH. f_equal.
  destruct (String.eqb_spec item "checkpoint") as [->|Hne].
  - by rewrite Hck, Hck'.
  - by rewrite Hsame.
Qed.

Lemma copy_all_cons es item items D :
  copy_all es (item :: items) D =
  match lookup es item with
  | Some (File c) =>
    match copy_into item c D with
    | (Ret _, D1) => copy_all es items D1
    | (Raise e, D1) => (Raise e, D1)
    | (Hang, D1) => (Hang, D1)
    end
  | Some (Dir _) => copy_all es items D
  | None => (Raise (os_error FileNotFoundError "copy2"), D)
  end.
Proof.
  unfold copy_all. cbn [for_each]. unfold bind at 1.
  by destruct (lookup es item) as [[c|sub]|].
Qed.

Lemma for_each_copy_step fs es D items :
  at_log_dir L fs es D ->
  for_each items (copy_step L) fs =
  let '(r, D') := copy_all es items D in (r, graft ckp (Dir D') fs).
Proof.
  revert fs es D. induction items as [|item items IH]; intros fs es D H.
  - simpl. unfold ret. f_equal. symmetry. apply graft_id.
    by eapply at_log_dir_checkpoint.
  - pose proof (at_log_dir_checkpoint _ _ _ _ H) as Hckp.
    cbn [for_each]. unfold bind at 1. rewrite (copy_step_spec L fs es D item H).
    rewrite copy_all_cons.
    destruct (lookup es item) as [[c|sub]|] eqn:Eitem.
    + destruct (copy_into item c D) as [[[]|e|] D1] eqn:Ecp.
      * rewrite (IH _ _ _ (at_log_dir_graft L fs es D D1 H)).
        rewrite (copy_all_ext es (put es "checkpoint" (Dir D1))).
        -- destruct (copy_all es items D1) as [r D2].
           f_equal. by eapply graft_graft.
        -- intros i Hi. by apply lookup_put_ne.
        -- exists D, D1. split; [apply H | apply lookup_put_eq].
      * done.
      * done.
    + apply (IH _ _ _ H).
    + f_equal. symmetry. by apply graft_id.
Qed.

Lemma copy_files_spec fs es D :
  at_log_dir L fs es D ->
  copy_files L ckp fs =
  let '(r, D') := copy_all es (map fst es) D in (r, graft ckp (Dir D') fs).
Proof.
  intros H. unfold copy_files, bind, os_listdir.
  destruct H as [HL Hck] eqn:EH. rewrite HL.
  by apply (for_each_copy_step fs es D).
Qed.

(** *** The pass on the checkpoint directory is idempotent *)

Lemma copy_into_cases item c D :
  (exists D1, copy_into item c D = (Ret tt, D1) /\ copied D1 item c /\
              forall i, i <> item -> lookup D1 i = lookup D i) \/
  (exists e, copy_into item c D = (Raise e, D)).
Proof.
  unfold copy_into, copied.
  destruct (lookup D item) as [[c'|sub]|] eqn:ED.
  - left. eexists. split; [done|]. split.
    + left. apply lookup_put_eq.
    + intros i Hi. by apply lookup_put_ne.
  - destruct (lookup sub item) as [[c'|sub']|] eqn:Esub.
    + left. eexists. split; [done|]. split.
      * right. eexists. split; [apply lookup_put_eq | apply lookup_put_eq].
      * intros i Hi. by apply lookup_put_ne.
    + right. by eexists.
    + left. eexists. split; [done|]. split.
      * right. eexists. split; [apply lookup_put_eq | apply lookup_put_eq].
      * intros i Hi. by apply lookup_put_ne.
  - left. eexists. split; [done|]. split.
    + left. apply lookup_put_eq.
    + intros i Hi. by apply lookup_put_ne.
Qed.

Lemma copied_settled D item c :
  copied D item c -> copy_into item c D = (Ret tt, D).
Proof.
  unfold copied, copy_into. intros [H|(sub & H & Hsub)]; rewrite H.
  - by rewrite put_id.
  - rewrite Hsub. rewrite (put_id sub) by done. by rewrite put_id.
Qed.

Lemma copied_ext D D' item c :
  lookup D' item = lookup D item -> copied D item c -> copied D' item c.
Proof. unfold copied. intros ->. done. Qed.

Lemma copy_all_idem es items :
  forall (seen : list string) D r D1,
    (forall i c, i ∈ seen -> lookup es i = Some (File c) -> copied D i c) ->
    copy_all es items D = (r, D1) ->
    copy_all es items D1 = (r, D1) /\
    (forall i c, i ∈ seen \/ (r = Ret tt /\ i ∈ items) ->
                 lookup es i = Some (File c) -> copied D1 i c).
Proof.
  induction items as [|item items IH]; intros seen D r D1 Hseen Hrun.
  - unfold copy_all in *. simpl in *. unfold ret in *.
    injection Hrun as <- <-. split; [done|].
    intros i c [Hi|[_ Hi]]; [by apply Hseen | by apply elem_of_nil in Hi].
  - rewrite copy_all_cons in Hrun. rewrite copy_all_cons.
    destruct (lookup es item) as [[c|sub]|] eqn:Eitem.
    + destruct (copy_into_cases item c D)
        as [(D' & Hcp & Hcopied & Hother)|(e & Hcp)]; rewrite Hcp in Hrun.
      * destruct (IH (item :: seen) D' r D1) as [Hidem Hall]; [|done|].
        { intros i c' Hi Hfile. apply elem_of_cons in Hi.
          destruct (decide (i = item)) as [->|Hne].
          - rewrite Eitem in Hfile. by injection Hfile as <-.
          - destruct Hi as [?|Hi]; [done|].
            apply (copied_ext D); [by apply Hother | by apply Hseen]. }
        split.
        -- rewrite (copied_settled D1 item c); [done|].
           apply Hall; [left; apply elem_of_cons; by left | done].
        -- intros i c' [Hi|[Hr Hi]] Hfile.
           ++ apply Hall; [left; apply elem_of_cons; by right | done].
           ++ apply Hall; [|done]. apply elem_of_cons in Hi.
              destruct Hi as [->|Hi]; [left; apply elem_of_cons; by left|].
              by right.
      * injection Hrun as <- <-. rewrite Hcp. split; [done|].
        intros i c' [Hi|[Hr _]]; [by apply Hseen | done].
    + destruct (IH seen D r D1 Hseen Hrun) as [Hidem Hall]. split; [done|].
      intros i c' [Hi|[Hr Hi]] Hfile.
      * apply Hall; [by left | done].
      * apply elem_of_cons in Hi. destruct Hi as [->|Hi]; [congruence|].
        apply Hall; [by right | done].
    + injection Hrun as <- <-. split; [done|].
      intros i c' [Hi|[Hr _]]; [by apply Hseen | done].
Qed.

(** Names that are not regular files of the log directory keep their
    entry in the checkpoint directory. *)
Lemma copy_all_others es items :
  forall D r D1 i,
    copy_all es items D = (r, D1) ->
    (forall c, lookup es i <> Some (File c)) ->
    lookup D1 i = lookup D i.
Proof.
  induction items as [|item items IH]; intros D r D1 i Hrun Hi.
  - unfold copy_all in Hrun. simpl in Hrun. unfold ret in Hrun.
    by injection Hrun as <- <-.
  - rewrite copy_all_cons in Hrun.
    destruct (lookup es item) as [[c|sub]|] eqn:Eitem.
    + destruct (copy_into_cases item c D)
        as [(D' & Hcp & Hcopied & Hother)|(e & Hcp)]; rewrite Hcp in Hrun.
      * rewrite (IH _ _ _ _ Hrun Hi). apply Hother. intros ->.
        by apply (Hi c).
      * by injection Hrun as <- <-.
    + by apply (IH _ _ _ _ Hrun Hi).
    + by injection Hrun as <- <-.
Qed.

(** *** When the pass returns *)

Lemma forallb_same {A} (f g : A -> bool) l :
  (forall x, f x = g x) -> forallb f l = forallb g l.
Proof.
  intros H. induction l as [|x l IH]; [done|]. cbn [forallb].
  by rewrite H, IH.
Qed.

Lemma forallb_always {A} (f : A -> bool) l :
  (forall x, f x = true) -> forallb f l = true.
Proof.
  intros H. induction l as [|x l IH]; [done|]. cbn [forallb].
  by rewrite H, IH.
Qed.

Lemma listed_lookup (es : dir) name :
  In name (map fst es) -> exists x, lookup es name = Some x.
Proof.
  induction es as [|[n y] es IH]; cbn [lookup map fst]; [done|].
  intros [->|Hin].
  - rewrite String.eqb_refl. by eexists.
  - destruct (String.eqb n name); [by eexists | by apply IH].
Qed.

Lemma copy_into_blocked es D item c :
  lookup es item = Some (File c) ->
  if blocked es D item
  then exists e, copy_into item c D = (Raise e, D)
  else exists D1,
         copy_into item c D = (Ret tt, D1) /\
         forall i, blocked es D1 i = blocked es D i.
Proof.
  intros Hfile. unfold blocked at 1. rewrite Hfile. unfold copy_into.
  destruct (lookup D item) as [[c'|sub]|] eqn:ED.
  - eexists. split; [done|]. intros i. unfold blocked.
    destruct (String.eqb_spec item i) as [<-|Hne].
    + by rewrite lookup_put_eq, ED, Hfile.
    + by rewrite lookup_put_ne.
  - destruct (lookup sub item) as [[c'|sub']|] eqn:Esub.
    + eexists. split; [done|]. intros i. unfold blocked.
      destruct (String.eqb_spec item i) as [<-|Hne].
      * by rewrite lookup_put_eq, lookup_put_eq, ED, Esub, Hfile.
      * by rewrite lookup_put_ne.
    + by eexists.
    + eexists. split; [done|]. intros i. unfold blocked.
      destruct (String.eqb_spec item i) as [<-|Hne].
      * by rewrite lookup_put_eq, lookup_put_eq, ED, Esub, Hfile.
      * by rewrite lookup_put_ne.
  - eexists. split; [done|]. intros i. unfold blocked.
    destruct (String.eqb_spec item i) as [<-|Hne].
    + by rewrite lookup_put_eq, ED, Hfile.
    + by rewrite lookup_put_ne.
Qed.

(** The pass returns exactly when no copy is blocked. *)
Lemma copy_all_returns es items :
  (forall item, In item items -> exists x, lookup es item = Some x) ->
  forall D,
    if forallb (fun item => negb (blocked es D item)) items
    then exists D1, copy_all es items D = (Ret tt, D1)
    else exists e D1, copy_all es items D = (Raise e, D1).
Proof.
  induction items as [|item items IH]; intros Hlisted D.
  - by eexists.
  - rewrite copy_all_cons. cbn [forallb].
    assert (Hrest : forall i, In i items -> exists x, lookup es i = Some x).
    { intros i Hi. apply Hlisted. by right. }
    specialize (IH Hrest).
    destruct (Hlisted item) as [[c|sub] Hitem]; [by left| |]; rewrite Hitem.
    + pose proof (copy_into_blocked es D item c Hitem) as Hcp.
      destruct (blocked es D item); cbn [negb andb].
      * destruct Hcp as [e ->]. by eexists _, _.
      * destruct Hcp as (D1 & -> & Hsame). specialize (IH D1).
        rewrite (forallb_same _ (fun item => negb (blocked es D item))) in IH;
          [exact IH|].
        intros i. by rewrite Hsame.
    + assert (blocked es D item = false) as ->.
      { unfold blocked. by rewrite Hitem. }
      cbn [negb andb]. apply IH.
Qed.

End Checkpoint.
End FsFacts.

Module CheckpointFacts.
Import Fs FsSpec FsFacts.

Lemma save_unfold L fs :
  save_experiment_checkpoint L fs =
  let ckp := os_path_join L "checkpoint" in
  match resolve ckp fs with
  | Some (Dir _) => copy_files L ckp fs
  | _ =>
    match os_mkdir ckp fs with
    | (Ret _, fs') => copy_files L ckp fs'
    | (Raise e, fs') => (Raise e, fs')
    | (Hang, fs') => (Hang, fs')
    end
  end.
Proof.
  unfold save_experiment_checkpoint, os_path_isdir, bind, ret.
  by destruct (resolve (os_path_join L "checkpoint") fs) as [[c|es]|].
Qed.

Lemma save_existing L fs es D :
  at_log_dir L fs es D ->
  save_experiment_checkpoint L fs =
  let '(r, D') := copy_all es (map fst es) D in
  (r, graft L (Dir (put es "checkpoint" (Dir D'))) fs).
Proof.
  intros H. rewrite save_unfold. cbv zeta.
  rewrite (at_log_dir_checkpoint L fs es D H).
  rewrite (copy_files_spec L fs es D H).
  destruct (copy_all es (map fst es) D) as [r D'].
  by rewrite (graft_checkpoint L fs es D _ H).
Qed.

(** When the checkpoint directory is missing, the call creates it empty and
    goes on as if it had been there. *)
Lemma save_fresh L fs es :
  resolve L fs = Some (Dir es) -> lookup es "checkpoint" = None ->
  let fs0 := graft L (Dir (put es "checkpoint" (Dir []))) fs in
  save_experiment_checkpoint L fs = save_experiment_checkpoint L fs0 /\
  at_log_dir L fs0 (put es "checkpoint" (Dir [])) [].
Proof.
  intros HL Hck fs0.
  assert (H0 : at_log_dir L fs0 (put es "checkpoint" (Dir [])) []).
  { split; [by eapply resolve_graft | apply lookup_put_eq]. }
  split; [|done].
  rewrite !save_unfold. cbv zeta.
  rewrite (at_log_dir_checkpoint L fs0 _ _ H0).
  rewrite resolve_join, HL, Hck.
  unfold os_mkdir. rewrite split_last_join, HL, Hck.
  unfold set_entry. by rewrite HL.
Qed.

Lemma save_no_directory L fs :
  (forall es, resolve L fs <> Some (Dir es)) ->
  exists e, save_experiment_checkpoint L fs = (Raise e, fs).
Proof.
  intros H. rewrite save_unfold. cbv zeta. rewrite resolve_join.
  unfold os_mkdir. rewrite split_last_join.
  destruct (resolve L fs) as [[c|es]|].
  - by eexists.
  - by destruct (H es).
  - by eexists.
Qed.

Lemma save_checkpoint_is_file L fs es c :
  resolve L fs = Some (Dir es) -> lookup es "checkpoint" = Some (File c) ->
  exists e, save_experiment_checkpoint L fs = (Raise e, fs).
Proof.
  intros HL Hck. rewrite save_unfold. cbv zeta. rewrite resolve_join, HL, Hck.
  unfold os_mkdir. rewrite split_last_join, HL, Hck. by eexists.
Qed.

(** The two properties of a call that starts with the checkpoint directory
    in place. *)
Lemma save_existing_idempotent L fs es D r fs1 :
  at_log_dir L fs es D ->
  save_experiment_checkpoint L fs = (r, fs1) ->
  save_experiment_checkpoint L fs1 = (r, fs1) /\
  exists D1,
    fs1 = graft L (Dir (put es "checkpoint" (Dir D1))) fs /\
    (forall i, (forall c, lookup es i <> Some (File c)) ->
               lookup D1 i = lookup D i) /\
    (r = Ret tt ->
     forall i c, lookup es i = Some (File c) -> copied D1 i c).
Proof.
  intros H Hrun. rewrite (save_existing L fs es D H) in Hrun.
  destruct (copy_all es (map fst es) D) as [r' D1] eqn:Eall.
  injection Hrun as <- <-.
  destruct (copy_all_idem es (map fst es) [] D r' D1) as [Hidem Hall];
    [by intros i c Hi%elem_of_nil | done |].
  assert (H1 : at_log_dir L (graft L (Dir (put es "checkpoint" (Dir D1))) fs)
                 (put es "checkpoint" (Dir D1)) D1).
  { rewrite <- (graft_checkpoint L fs es D _ H). by apply (at_log_dir_graft L fs es D). }
  split.
  - rewrite (save_existing L _ _ _ H1).
    rewrite (map_fst_put es _ _ (Dir D)) by apply H.
    rewrite (copy_all_ext es (put es "checkpoint" (Dir D1))).
    + rewrite Hidem. rewrite put_put.
      destruct H as [HL _]. by rewrite (graft_graft _ _ _ _ _ HL).
    + intros i Hi. by apply lookup_put_ne.
    + exists D, D1. split; [apply H | apply lookup_put_eq].
  - exists D1. split; [done|]. split.
    + intros i Hi. by eapply copy_all_others.
    + intros -> i c Hfile. apply Hall; [|done]. right. split; [done|].
      clear -Hfile. induction es as [|[n y] es IH]; simpl in *; [done|].
      apply elem_of_cons. destruct (String.eqb_spec n i); [by left|].
      right. by apply IH.
Qed.

(** A call returns exactly when the checkpoint can be taken. *)
Lemma save_returns_when_ready L fs :
  if checkpoint_ready L fs
  then exists fs1, save_experiment_checkpoint L fs = (Ret tt, fs1)
  else exists e fs1, save_experiment_checkpoint L fs = (Raise e, fs1).
Proof.
  unfold checkpoint_ready.
  destruct (resolve L fs) as [[c|es]|] eqn:HL.
  - destruct (save_no_directory L fs) as [e He]; [congruence|]. by eexists _, _.
  - destruct (lookup es "checkpoint") as [[c|D]|] eqn:Hck.
    + destruct (save_checkpoint_is_file L fs es c HL Hck) as [e He].
      by eexists _, _.
    + rewrite (save_existing L fs es D (conj HL Hck)).
      pose proof (copy_all_returns es (map fst es) (listed_lookup es) D) as H.
      destruct (forallb _ _).
      * destruct H as [D1 ->]. by eexists.
      * destruct H as (e & D1 & ->). by eexists _, _.
    + destruct (save_fresh L fs es HL Hck) as [-> H0].
      rewrite (save_existing L _ _ _ H0).
      pose proof (copy_all_returns (put es "checkpoint" (Dir []))
                    (map fst (put es "checkpoint" (Dir [])))
                    (listed_lookup _) []) as H.
      rewrite forallb_always in H.
      * destruct H as [D1 ->]. by eexists.
      * intros item. unfold blocked. cbn [lookup].
        by destruct (lookup _ item) as [[]|].
  - destruct (save_no_directory L fs) as [e He]; [congruence|]. by eexists _, _.
Qed.

(** C7 — [save_experiment_checkpoint log_dir] returns exactly when the
    checkpoint can be taken: [log_dir] is a directory, its entry
    [checkpoint] is missing or a directory, and no copy is blocked by a
    directory in its place; otherwise it raises.  A call that returns has
    copied every regular file directly inside [log_dir] into the
    [checkpoint] subdirectory, overwriting an earlier copy; entries of
    [log_dir] that are directories, the [checkpoint] directory among them,
    are not copied, and nothing else in the file system changes.  A second
    call, with nothing changed in between, returns the same outcome and
    leaves the file system exactly as the first call left it. *)
Theorem save_experiment_checkpoint_idempotent (log_dir : path) (fs : node) :
  let '(r1, fs1) := save_experiment_checkpoint log_dir fs in
  save_experiment_checkpoint log_dir fs1 = (r1, fs1) /\
  (if checkpoint_ready log_dir fs then r1 = Ret tt else exists e, r1 = Raise e) /\
  (r1 = Ret tt ->
   exists es D1,
     resolve log_dir fs = Some (Dir es) /\
     fs1 = graft log_dir (Dir (put es "checkpoint" (Dir D1))) fs /\
     (forall item c, lookup es item = Some (File c) -> copied D1 item c) /\
     (forall item, (forall c, lookup es item <> Some (File c)) ->
                   lookup D1 item = lookup (checkpoint_entries es) item)).
Proof.
  pose proof (save_returns_when_ready log_dir fs) as Hready.
  destruct (save_experiment_checkpoint log_dir fs) as [r1 fs1] eqn:Hrun.
  assert (Hr : if checkpoint_ready log_dir fs then r1 = Ret tt
               else exists e, r1 = Raise e).
  { destruct (checkpoint_ready log_dir fs).
    - destruct Hready as [fs' [= -> _]]. done.
    - destruct Hready as (e & fs' & [= -> _]). by eexists. }
  clear Hready.
  destruct (resolve log_dir fs) as [[c|es]|] eqn:HL.
  - destruct (save_no_directory log_dir fs) as [e He]; [congruence|].
    rewrite He in Hrun. injection Hrun as <- <-. by rewrite He.
  - destruct (lookup es "checkpoint") as [[c|D]|] eqn:Hck.
    + destruct (save_checkpoint_is_file log_dir fs es c HL Hck) as [e He].
      rewrite He in Hrun. injection Hrun as <- <-. by rewrite He.
    + destruct (save_existing_idempotent log_dir fs es D r1 fs1)
        as (Hidem & D1 & Hfs1 & Hothers & Hfiles); [done|done|].
      split; [done|]. split; [done|]. intros Hr1. exists es, D1.
      unfold checkpoint_entries. rewrite Hck. auto.
    + destruct (save_fresh log_dir fs es HL Hck) as [Hsame H0].
      rewrite Hsame in Hrun.
      destruct (save_existing_idempotent log_dir _ _ _ r1 fs1 H0 Hrun)
        as (Hidem & D1 & Hfs1 & Hothers & Hfiles).
      split; [done|]. split; [done|]. intros Hr1. exists es, D1.
      split; [done|]. split; [|split].
      * rewrite Hfs1, put_put. by rewrite (graft_graft _ _ _ _ _ HL).
      * intros item c Hfile. apply (Hfiles Hr1).
        rewrite lookup_put_ne; [done|]. intros <-. congruence.
      * intros item Hitem. unfold checkpoint_entries. rewrite Hck.
        apply Hothers. intros c.
        destruct (String.eqb_spec "checkpoint" item) as [<-|Hne].
        -- by rewrite lookup_put_eq.
        -- rewrite lookup_put_ne by done. apply Hitem.
  - destruct (save_no_directory log_dir fs) as [e He]; [congruence|].
    rewrite He in Hrun. injection Hrun as <- <-. by rewrite He.
Qed.

Lemma save_experiment_checkpoint_idempotent_witness :
  let '(r1, fs1) :=
    save_experiment_checkpoint ["logs"; "e1"] Scenario.files in
  checkpoint_ready ["logs"; "e1"] Scenario.files = true /\
  r1 = Ret tt /\
  resolve ["logs"; "e1"; "checkpoint"] fs1 =
    Some (Dir [("train.log", File "log"); ("model.pkl", File "weights")]) /\
  save_experiment_checkpoint ["logs"; "e1"] fs1 = (Ret tt, fs1).
Proof.
  pose proof (save_experiment_checkpoint_idempotent ["logs"; "e1"]
                Scenario.files) as H.
  destruct (save_experiment_checkpoint ["logs"; "e1"] Scenario.files)
    as [r1 fs1] eqn:Hrun.
  destruct H as (Hidem & Hready & _).
  assert (Hc : checkpoint_ready ["logs"; "e1"] Scenario.files = true)
    by reflexivity.
  rewrite Hc in Hready. subst r1. split; [reflexivity|]. split; [reflexivity|]. split; [|exact Hidem].
  vm_compute in Hrun. injection Hrun as <-. reflexivity.
Defined.

End CheckpointFacts.


Module RosalindFacts.
Import Rosalind RosalindSpec.

Ltac wsimpl :=
  cbn [experiments Rosalind.client_pool users fs now uuids_drawn trace
       set_experiments set_client_pool set_fs set_now set_uuids_drawn set_trace
       fst snd].

Tactic Notation "wsimpl" "in" hyp(H) :=
  cbn [experiments Rosalind.client_pool users fs now uuids_drawn trace
       set_experiments set_client_pool set_fs set_now set_uuids_drawn set_trace
       fst snd] in H.

Lemma notices_app tr1 tr2 : notices (tr1 ++ tr2) = (notices tr1 ++ notices tr2)%list.
Proof. unfold notices. apply flat_map_app. Qed.

(** *** The database queries *)

Lemma apply_fields_id fields e :
  Experiments.id (fold_left (fun e f => apply_experiment_field f e) fields e) =
  Experiments.id e.
Proof.
  revert e. induction fields as [|f fields IH]; intros e; simpl; [done|].
  rewrite IH. by destruct e, f.
Qed.

Lemma find_experiment_updated i j fields rows :
  find_experiment i (updated_experiments j fields rows) =
  (fun e => if String.eqb (Experiments.id e) j
            then fold_left (fun e f => apply_experiment_field f e) fields e
            else e) <$> find_experiment i rows.
Proof.
  unfold find_experiment, updated_experiments.
  induction rows as [|e rows IH]; simpl; [done|].
  destruct (String.eqb_spec (Experiments.id e) j) as [Hj|Hj].
  - rewrite apply_fields_id.
    destruct (String.eqb (Experiments.id e) i); [|done].
    simpl. destruct (String.eqb_spec (Experiments.id e) j); done.
  - destruct (String.eqb (Experiments.id e) i); [|done].
    simpl. destruct (String.eqb_spec (Experiments.id e) j); done.
Qed.

Lemma update_experiment_found i fields w e :
  find_experiment i (experiments w) = Some e ->
  update_experiment i fields w =
  (Ret tt,
   set_trace (trace w ++ [EvUpdateExperiment i fields])
     (set_experiments (updated_experiments i fields (experiments w)) w)).
Proof.
  intros H. unfold update_experiment, bind, get, modify, emit, modify.
  by rewrite H.
Qed.

Lemma update_experiment_missing i fields w :
  find_experiment i (experiments w) = None ->
  update_experiment i fields w =
  (Raise (db_error NotFound "update_experiment"), w).
Proof.
  intros H. unfold update_experiment, bind, get. by rewrite H.
Qed.

Lemma create_experiment_spec i g m v o n l p w :
  create_experiment i g m v o n l p w =
  match find_experiment i (experiments w) with
  | Some _ => (Raise (db_error DuplicateKey "create_experiment"), w)
  | None =>
    match n with
    | PInt z =>
      (Ret tt,
       set_trace (trace w ++ [EvCreateExperiment i PENDING])
         (set_experiments
            (experiments w ++
             [Experiments.Build i g m v o z l p None PENDING None]) w))
    | _ => (Raise (db_error TypeError "create_experiment"), w)
    end
  end.
Proof.
  unfold create_experiment, bind, get, modify, emit, modify, raise.
  destruct (find_experiment i (experiments w)); [done|]. by destruct n.
Qed.

Lemma get_experiment_spec i w :
  get_experiment i w =
  match find_experiment i (experiments w) with
  | Some e => (Ret e, w)
  | None => (Raise (db_error NotFound "get_experiment"), w)
  end.
Proof.
  unfold get_experiment, bind, get, ret, raise.
  by destruct (find_experiment i (experiments w)).
Qed.

Lemma send_message_to_owner_spec experiment text w :
  send_message_to_owner experiment text w =
  match find_user (Experiments.owner experiment) (users w) with
  | Some u =>
    (Ret tt, set_trace (trace w ++ [EvSendMessage (Users.chat_id u) text]) w)
  | None => (Raise (db_error NotFound "get_user"), w)
  end.
Proof.
  unfold send_message_to_owner, get_user, bot_send_message, emit, modify, bind,
    get, ret, raise.
  by destruct (find_user _ _).
Qed.

(** *** Waiting for a client *)

Lemma silent_refl w : silent w w.
Proof. repeat split. exists []. by rewrite app_nil_r. Qed.

Lemma silent_trans w1 w2 w3 : silent w1 w2 -> silent w2 w3 -> silent w1 w3.
Proof.
  intros (He1 & Hu1 & d1 & Ht1 & Hn1) (He2 & Hu2 & d2 & Ht2 & Hn2).
  split; [congruence|]. split; [congruence|].
  exists (d1 ++ d2)%list. rewrite Ht2, Ht1, app_assoc. split; [done|].
  by rewrite notices_app, Hn1, Hn2.
Qed.

Lemma find_and_reserve_client_silent i w :
  silent w (snd (find_and_reserve_client i w)).
Proof.
  unfold find_and_reserve_client, bind, get, modify, emit, modify, ret.
  destruct (reserve_first i (client_pool w)) as [[a rows]|]; simpl.
  - repeat split. by exists [EvReserveClient a i].
  - apply silent_refl.
Qed.

Lemma time_sleep_silent n w : silent w (snd (time_sleep n w)).
Proof.
  unfold time_sleep, bind, modify, emit, modify. simpl.
  repeat split. by exists [EvSleep n].
Qed.

Lemma wait_for_client_silent fuel i :
  forall w, silent w (snd (wait_for_client fuel i w)).
Proof.
  induction fuel as [|fuel IH]; intros w; simpl.
  - apply silent_refl.
  - unfold bind at 1.
    pose proof (find_and_reserve_client_silent i w) as H1.
    destruct (find_and_reserve_client i w) as [[r| |] w1] eqn:E1; simpl in H1.
    + unfold bind at 1. pose proof (time_sleep_silent 10 w1) as H2.
      destruct (time_sleep 10 w1) as [[[]| |] w2] eqn:E2; simpl in H2.
      * destruct r as [a|].
        -- destruct (String.eqb a "").
           ++ eapply silent_trans; [|apply IH]. by eapply silent_trans.
           ++ simpl. by eapply silent_trans.
        -- eapply silent_trans; [|apply IH]. by eapply silent_trans.
      * simpl. by eapply silent_trans.
      * simpl. by eapply silent_trans.
    + done.
    + done.
Qed.

(** With [client_pool] still empty, the first pass of the reservation loop
    waits for a client and then fails at [client_pool[0]]: the loop never
    returns. *)
Lemma reserve_clients_first_pass fuel i n addr w :
  let '(r, w') := reserve_clients fuel i (S n) [] addr w in
  w' = snd (wait_for_client fuel i w) /\
  match fst (wait_for_client fuel i w) with
  | Ret _ => r = Raise (Exn IndexError "list index out of range"
                          (here "113" "train_model"))
  | Raise e => r = Raise e
  | Hang => r = Hang
  end.
Proof.
  simpl. unfold bind at 1.
  by destruct (wait_for_client fuel i w) as [[a|e|] w1].
Qed.

End RosalindFacts.


Module TrainFacts.
Import Rosalind RosalindSpec RosalindFacts.

(** The three parts of the [try] statement of [train_model], from a world
    in which the experiment is stored. *)
Section TryBlock.
Variables (experiment : Experiments.t) (log_dir : Fs.path)
  (model_runner : runner) (env_id : string) (model_params : params).
Local Abbreviation i := (Experiments.id experiment).
Local Abbreviation monitor := ("ExperimentMonitor-" +:+ Experiments.id experiment).
Local Abbreviation try_body_with :=
  (RosalindSpec.try_body_with experiment log_dir model_runner env_id
     model_params).
Local Abbreviation on_exception := (RosalindSpec.on_exception experiment).
Local Abbreviation on_return := (RosalindSpec.on_return experiment).
Local Abbreviation finally_release := (RosalindSpec.finally_release experiment).

Lemma try_body_missing client_pool w :
  find_experiment i (experiments w) = None ->
  try_body_with client_pool w =
  (Raise (db_error NotFound "update_experiment"), w).
Proof.
  intros H. unfold RosalindSpec.try_body_with. unfold bind at 1.
  by rewrite update_experiment_missing.
Qed.

Lemma try_body_found client_pool w e0 :
  find_experiment i (experiments w) = Some e0 ->
  try_body_with client_pool w =
  (match model_runner log_dir env_id client_pool 10 model_params with
   | None => Ret tt
   | Some e => Raise e
   end,
   set_trace
     (trace w ++
      [EvUpdateExperiment i [Set_status RUNNING];
       EvMonitorStart monitor;
       EvModelRunner log_dir env_id client_pool model_params])
     (set_experiments
        (updated_experiments i [Set_status RUNNING] (experiments w)) w)).
Proof.
  intros H. unfold RosalindSpec.try_body_with. unfold bind at 1.
  rewrite (update_experiment_found _ _ _ _ H).
  unfold bind, monitor_start, emit, modify. cbn.
  rewrite <- !app_assoc. cbn.
  by destruct (model_runner _ _ _ _ _).
Qed.

Lemma train_model_unfold fuel num_envs :
  train_model fuel experiment log_dir model_runner env_id model_params num_envs =
  (on_fs (Fs.open_append (Fs.os_path_join log_dir "train.log")) ;;;
   supervise experiment log_dir model_runner env_id model_params fuel num_envs).
Proof. reflexivity. Qed.

Lemma supervise_unfold fuel num_envs :
  supervise experiment log_dir model_runner env_id model_params fuel num_envs =
  (reserved <- reserve_clients fuel i (Z.to_nat num_envs) [] None ;;
   try_except_else_finally (try_body_with (fst reserved))
     on_exception on_return (finally_release (snd reserved))).
Proof. reflexivity. Qed.

Ltac finish_delta :=
  cbn; split; [done|]; eexists; rewrite <- ?app_assoc; cbn;
  split; [reflexivity|]; done.

(** The [except] suite. *)
Lemma on_exception_spec e w :
  let '(r, w') := on_exception e w in
  r <> Hang /\ users w' = users w /\
  exists delta,
    trace w' = (trace w ++ delta)%list /\
    match find_experiment i (experiments w) with
    | None => notices delta = []
    | Some _ =>
      notices delta =
      (Wrote i FAILED :: sent_to_owner w experiment
                           (failed_message i (format_exc e)))
    end.
Proof.
  unfold RosalindSpec.on_exception. rewrite !bind_unfold.
  unfold monitor_stop, monitor_join, emit, modify, utcnow, get, ret.
  rewrite !bind_unfold.
  destruct (find_experiment i (experiments w)) as [e0|] eqn:Hfind.
  - erewrite update_experiment_found by (cbn; exact Hfind).
    rewrite bind_unfold, send_message_to_owner_spec. cbn [users set_trace set_experiments].
    unfold sent_to_owner.
    destruct (find_user (Experiments.owner experiment) (users w)) as [u|];
      (split; [done|]); finish_delta.
  - rewrite update_experiment_missing by (cbn; exact Hfind).
    split; [done|]. finish_delta.
Qed.

(** The [else] suite. *)
Lemma on_return_spec w :
  let '(r, w') := on_return w in
  r <> Hang /\ users w' = users w /\
  exists delta,
    trace w' = (trace w ++ delta)%list /\
    match find_experiment i (experiments w) with
    | None => notices delta = []
    | Some _ =>
      notices delta =
      (Wrote i COMPLETED :: sent_to_owner w experiment (completed_message i))
    end.
Proof.
  unfold RosalindSpec.on_return. rewrite !bind_unfold. unfold utcnow, get, ret.
  rewrite !bind_unfold.
  destruct (find_experiment i (experiments w)) as [e0|] eqn:Hfind.
  - erewrite update_experiment_found by exact Hfind.
    rewrite send_message_to_owner_spec. cbn [users set_trace set_experiments].
    unfold sent_to_owner.
    destruct (find_user (Experiments.owner experiment) (users w)) as [u|].
    + split; [done|]. finish_delta.
    + cbn. split; [done|]. split; [done|]. eexists. split; [reflexivity|]. done.
  - rewrite update_experiment_missing by exact Hfind.
    cbn. split; [done|]. split; [done|]. exists []. by rewrite app_nil_r.
Qed.

(** The [finally] suite writes no status and sends no message. *)
Lemma finally_release_silent client_address w :
  let '(r, w') := finally_release client_address w in
  r <> Hang /\ users w' = users w /\
  exists delta, trace w' = (trace w ++ delta)%list /\ notices delta = [].
Proof.
  unfold RosalindSpec.finally_release. rewrite !bind_unfold.
  unfold monitor_stop, monitor_join, emit, modify. rewrite !bind_unfold.
  destruct client_address as [a|].
  - unfold update_client. rewrite !bind_unfold. unfold get.
    cbn [Rosalind.client_pool set_trace].
    destruct (find_client a (Rosalind.client_pool w)).
    + rewrite !bind_unfold. unfold emit, modify. split; [done|]. finish_delta.
    + split; [done|]. finish_delta.
  - split; [done|]. finish_delta.
Qed.

End TryBlock.

Lemma sent_to_owner_users w1 w2 experiment text :
  users w1 = users w2 ->
  sent_to_owner w1 experiment text = sent_to_owner w2 experiment text.
Proof. unfold sent_to_owner. by intros ->. Qed.

Lemma supervise_notices fuel experiment log_dir model_runner env_id
    model_params num_envs w :
  let '(r, w') :=
    supervise experiment log_dir model_runner env_id model_params fuel
      num_envs w in
  exists delta,
    trace w' = (trace w ++ delta)%list /\
    run_notices w experiment log_dir model_runner env_id model_params
      (notices delta).
Proof.
  rewrite supervise_unfold, bind_unfold.
  destruct (Z.to_nat num_envs) as [|n] eqn:Hn.
  - (* no client wanted: the [try] statement runs at once *)
    cbn [reserve_clients]. unfold ret at 1. cbn [fst snd].
    unfold try_except_else_finally.
    set (i := Experiments.id experiment).
    destruct (find_experiment i (experiments w)) as [e0|] eqn:Hfind.
    + rewrite (try_body_found _ _ _ _ _ _ _ e0 Hfind).
      set (wb := set_trace _ _).
      assert (Hfindb : exists e1, find_experiment i (experiments wb) = Some e1).
      { unfold wb. cbn [experiments set_trace set_experiments].
        rewrite find_experiment_updated. fold i. rewrite Hfind. by eexists. }
      destruct Hfindb as [e1 Hfindb].
      assert (Husers : users wb = users w) by done.
      destruct (model_runner log_dir env_id [] 10 model_params) as [e|] eqn:Hrun.
      * pose proof (on_exception_spec experiment e wb) as Hh.
        destruct (on_exception experiment e wb) as [r1 w1].
        fold i in Hh. rewrite Hfindb in Hh.
        destruct Hh as (Hr1 & Hu1 & d1 & Ht1 & Hn1).
        pose proof (finally_release_silent experiment None w1) as Hf.
        destruct (finally_release experiment None w1) as [r2 w2].
        destruct Hf as (Hr2 & Hu2 & d2 & Ht2 & Hn2).
        assert (Hgoal : exists delta,
                   trace w2 = (trace w ++ delta)%list /\
                   run_notices w experiment log_dir model_runner env_id
                     model_params (notices delta)).
        { match eval unfold wb in wb with
          | set_trace (_ ++ ?L)%list _ => exists (L ++ d1 ++ d2)%list
          end.
          split.
          { rewrite Ht2, Ht1. unfold wb. cbn [trace set_trace].
            by rewrite <- !app_assoc. }
          right. right. exists e, []. split; [done|].
          rewrite !notices_app, Hn1, Hn2, app_nil_r.
          by rewrite (sent_to_owner_users wb w). }
        destruct r1 as [[]|?|]; [| |by destruct Hr1];
          (destruct r2 as [[]|?|]; [exact Hgoal|exact Hgoal|by destruct Hr2]).
      * pose proof (on_return_spec experiment wb) as Hh.
        destruct (on_return experiment wb) as [r1 w1].
        fold i in Hh. rewrite Hfindb in Hh.
        destruct Hh as (Hr1 & Hu1 & d1 & Ht1 & Hn1).
        pose proof (finally_release_silent experiment None w1) as Hf.
        destruct (finally_release experiment None w1) as [r2 w2].
        destruct Hf as (Hr2 & Hu2 & d2 & Ht2 & Hn2).
        assert (Hgoal : exists delta,
                   trace w2 = (trace w ++ delta)%list /\
                   run_notices w experiment log_dir model_runner env_id
                     model_params (notices delta)).
        { match eval unfold wb in wb with
          | set_trace (_ ++ ?L)%list _ => exists (L ++ d1 ++ d2)%list
          end.
          split.
          { rewrite Ht2, Ht1. unfold wb. cbn [trace set_trace].
            by rewrite <- !app_assoc. }
          right. left.
          rewrite !notices_app, Hn1, Hn2, app_nil_r.
          by rewrite (sent_to_owner_users wb w). }
        destruct r1 as [[]|?|]; [| |by destruct Hr1];
          (destruct r2 as [[]|?|]; [exact Hgoal|exact Hgoal|by destruct Hr2]).
    + rewrite (try_body_missing _ _ _ _ _ _ _ Hfind).
      pose proof (on_exception_spec experiment
                    (db_error NotFound "update_experiment") w) as Hh.
      destruct (on_exception experiment _ w) as [r1 w1].
      fold i in Hh. rewrite Hfind in Hh.
      destruct Hh as (Hr1 & Hu1 & d1 & Ht1 & Hn1).
      pose proof (finally_release_silent experiment None w1) as Hf.
      destruct (finally_release experiment None w1) as [r2 w2].
      destruct Hf as (Hr2 & Hu2 & d2 & Ht2 & Hn2).
      assert (Hgoal : exists delta,
                 trace w2 = (trace w ++ delta)%list /\
                 run_notices w experiment log_dir model_runner env_id
                   model_params (notices delta)).
      { exists (d1 ++ d2)%list. split.
        { rewrite Ht2, Ht1. by rewrite <- !app_assoc. }
        left. by rewrite notices_app, Hn1, Hn2. }
      destruct r1 as [[]|?|]; [| |by destruct Hr1];
          (destruct r2 as [[]|?|]; [exact Hgoal|exact Hgoal|by destruct Hr2]).
  - (* at least one client wanted: the reservation loop does not return *)
    pose proof (reserve_clients_first_pass fuel (Experiments.id experiment)
                  n None w) as Hres.
    destruct (reserve_clients fuel _ (S n) [] None w) as [r0 w0].
    destruct Hres as [-> Hr0].
    pose proof (wait_for_client_silent fuel (Experiments.id experiment) w)
      as (_ & _ & delta & Ht & Hn0).
    destruct (wait_for_client fuel (Experiments.id experiment) w)
      as [[a|e|] w1]; cbn [fst snd] in *; subst r0;
      (exists delta; split; [done | by left]).
Qed.

Lemma train_model_notices fuel experiment log_dir model_runner env_id
    model_params num_envs w :
  let '(r, w') :=
    train_model fuel experiment log_dir model_runner env_id model_params
      num_envs w in
  exists delta,
    trace w' = (trace w ++ delta)%list /\
    run_notices w experiment log_dir model_runner env_id model_params
      (notices delta).
Proof.
  rewrite train_model_unfold, bind_unfold. unfold on_fs.
  destruct (Fs.open_append _ (fs w)) as [[[]|e|] fs1].
  - exact (supervise_notices fuel experiment log_dir model_runner env_id
             model_params num_envs (set_fs fs1 w)).
  - exists []. rewrite app_nil_r. split; [done | by left].
  - exists []. rewrite app_nil_r. split; [done | by left].
Qed.

End TrainFacts.


Module FacadeFacts.
Import Rosalind RosalindSpec RosalindFacts TrainFacts.

Lemma string_app_assoc (a b c : string) : (a +:+ b) +:+ c = a +:+ (b +:+ c).
Proof.
  induction a as [|x a IH]; [done|].
  change (String x ((a +:+ b) +:+ c) = String x (a +:+ (b +:+ c))).
  by rewrite IH.
Qed.

Lemma string_app_nil_r (a : string) : a +:+ "" = a.
Proof.
  induction a as [|x a IH]; [done|].
  change (String x (a +:+ "") = String x a). by rewrite IH.
Qed.

Lemma failed_message_contains i tb : contains tb (failed_message i tb).
Proof.
  exists ("The experiment with id " +:+ i +:+ " failed!" +:+ "Traceback: "
          +:+ nl +:+ " "), "".
  unfold failed_message. rewrite string_app_nil_r.
  by rewrite !string_app_assoc.
Qed.

Lemma status_writes_app tr1 tr2 :
  status_writes (tr1 ++ tr2) = (status_writes tr1 ++ status_writes tr2)%list.
Proof. unfold status_writes. by rewrite notices_app, flat_map_app. Qed.

Ltac close_delta d :=
  exists d; wsimpl; rewrite <- ?app_assoc; split; [reflexivity | auto].

Section Facade.
Variables (train_a2c train_dqn : runner) (uuid4_value : nat -> string)
  (process_start : Experiments.t -> exn + Z).

Local Abbreviation launch := (RosalindSpec.launch process_start).
Local Abbreviation relaunch_all :=
  (RosalindSpec.relaunch_all train_a2c train_dqn process_start).
Local Abbreviation draw_group_id := (RosalindSpec.draw_group_id uuid4_value).
Local Abbreviation continue_experiment :=
  (continue_experiement_with_monitoring train_a2c train_dqn process_start).

Lemma same_but_pid_refl e : same_but_pid e e.
Proof. by repeat split. Qed.

Lemma set_pid_same j pid e :
  same_but_pid e
    (if String.eqb (Experiments.id e) j
     then fold_left (fun e f => apply_experiment_field f e) [Set_pid pid] e
     else e).
Proof. destruct (String.eqb _ _); by destruct e. Qed.

Lemma launch_spec experiment' w :
  let '(r, w') := launch experiment' w in
  r <> Hang /\
  fs w' = fs w /\ users w' = users w /\
  (forall i e, find_experiment i (experiments w) = Some e ->
     exists e', find_experiment i (experiments w') = Some e' /\
                same_but_pid e e') /\
  exists delta,
    trace w' = (trace w ++ delta)%list /\ status_writes delta = [].
Proof.
  unfold RosalindSpec.launch. rewrite bind_unfold. unfold try_except, start_training_process.
  destruct (process_start experiment') as [x|pid] eqn:Hstart.
  - unfold raise at 1. rewrite bind_unfold, send_message_to_owner_spec.
    destruct (find_user _ _) as [u|].
    + split; [done|]. split; [done|]. split; [done|]. split.
      { intros i e He. exists e. split; [exact He | apply same_but_pid_refl]. }
      eexists. split; [reflexivity|done].
    + split; [done|]. split; [done|]. split; [done|]. split.
      { intros i e He. exists e. split; [exact He | apply same_but_pid_refl]. }
      exists []. by rewrite app_nil_r.
  - rewrite !bind_unfold. unfold emit, modify, ret.
    rewrite !bind_unfold.
    destruct (find_experiment (Experiments.id experiment') (experiments w))
      as [e0|] eqn:Hfind.
    + erewrite update_experiment_found by exact Hfind.
      split; [done|]. split; [done|]. split; [done|]. split.
      { intros i e He. wsimpl. rewrite find_experiment_updated, He.
        eexists. split; [reflexivity | apply set_pid_same]. }
      eexists. wsimpl. rewrite <- !app_assoc. split; [reflexivity|done].
    + rewrite update_experiment_missing by exact Hfind.
      split; [done|]. split; [done|]. split; [done|]. split.
      { intros i e He. exists e. split; [exact He | apply same_but_pid_refl]. }
      eexists. split; [reflexivity|done].
Qed.

Lemma with_model_params_id p e :
  Experiments.id (with_model_params p e) = Experiments.id e.
Proof. by destruct e. Qed.

Lemma with_model_params_total p e :
  Experiments.total_timesteps (with_model_params p e) =
  Experiments.total_timesteps e.
Proof. by destruct e. Qed.

Lemma continue_unfold user experiment total_timesteps w :
  continue_experiment user experiment total_timesteps w =
  (emit (EvEnter (Experiments.id experiment)) ;;;
   match dict_get (Experiments.model experiment) (_MODELS train_a2c train_dqn) with
   | None =>
     raise (unknown_model (Experiments.model experiment)
              "continue_experiement_with_monitoring" "238")
   | Some _ =>
     log_dir <- on_fs (build_log_dir (Experiments.id experiment)) ;;
     emit (EvCheckpoint log_dir) ;;;
     on_fs (Fs.save_experiment_checkpoint log_dir) ;;;
     update_experiment (Experiments.id experiment)
       (resume_fields user experiment log_dir total_timesteps) ;;;
     launch
       (with_model_params
          (resumed_params log_dir total_timesteps
             (Experiments.model_params experiment)) experiment)
   end) w.
Proof. by destruct experiment. Qed.

(** Every call of [continue_experiement_with_monitoring] writes PENDING
    for its experiment once, or writes no status at all. *)
Lemma continue_status_writes user experiment total_timesteps w :
  let '(r, w') := continue_experiment user experiment total_timesteps w in
  exists delta,
    trace w' = (trace w ++ EvEnter (Experiments.id experiment) :: delta)%list /\
    (status_writes delta = [] \/
     status_writes delta = [(Experiments.id experiment, PENDING)]).
Proof.
  rewrite continue_unfold, bind_unfold. unfold emit at 1, modify.
  destruct (dict_get _ _) as [model_runner|]; [|close_delta (@nil event)].
  rewrite bind_unfold. unfold on_fs at 1. wsimpl.
  destruct (build_log_dir (Experiments.id experiment) (fs w))
    as [[log_dir|x|] fs1];
    [|close_delta (@nil event)|close_delta (@nil event)].
  rewrite bind_unfold. unfold emit at 1, modify.
  rewrite bind_unfold. unfold on_fs at 1. wsimpl.
  destruct (Fs.save_experiment_checkpoint log_dir fs1) as [[[]|x|] fs2];
    [|close_delta [EvCheckpoint log_dir]|close_delta [EvCheckpoint log_dir]].
  rewrite bind_unfold.
  destruct (find_experiment (Experiments.id experiment) (experiments w))
    as [e0|] eqn:Hfind.
  - erewrite update_experiment_found by (wsimpl; exact Hfind).
    match goal with
    | |- context [launch ?e ?w1] =>
      pose proof (launch_spec e w1) as Hl; destruct (launch e w1) as [r w']
    end.
    destruct Hl as (_ & _ & _ & _ & delta & Ht & Hs).
    exists ([EvCheckpoint log_dir;
             EvUpdateExperiment (Experiments.id experiment)
               (resume_fields user experiment log_dir total_timesteps)]
            ++ delta)%list.
    rewrite Ht. wsimpl. rewrite <- !app_assoc. split; [reflexivity|]. right.
    rewrite status_writes_app, Hs. done.
  - rewrite update_experiment_missing by (wsimpl; exact Hfind).
    close_delta [EvCheckpoint log_dir].
Qed.

Lemma find_experiment_id i rows e :
  find_experiment i rows = Some e -> Experiments.id e = i.
Proof.
  unfold find_experiment. intros H. apply find_some in H as [_ H].
  by apply String.eqb_eq.
Qed.

(** The path of [continue_experiement_with_monitoring] on which the model
    is registered, the checkpoint succeeds and the record exists. *)
Lemma continue_resumes user experiment total_timesteps w runner_ stored
    log_dir fs1 fs2 :
  dict_get (Experiments.model experiment) (_MODELS train_a2c train_dqn)
    = Some runner_ ->
  find_experiment (Experiments.id experiment) (experiments w) = Some stored ->
  build_log_dir (Experiments.id experiment) (fs w) = (Ret log_dir, fs1) ->
  Fs.save_experiment_checkpoint log_dir fs1 = (Ret tt, fs2) ->
  let fields := resume_fields user experiment log_dir total_timesteps in
  let '(r, w') := continue_experiment user experiment total_timesteps w in
  fs w' = fs2 /\
  (exists stored',
     find_experiment (Experiments.id experiment) (experiments w') = Some stored' /\
     same_but_pid
       (fold_left (fun e f => apply_experiment_field f e) fields stored)
       stored') /\
  exists rest,
    trace w' =
      (trace w ++
       [EvEnter (Experiments.id experiment);
        EvCheckpoint log_dir;
        EvUpdateExperiment (Experiments.id experiment) fields] ++ rest)%list /\
    status_writes rest = [].
Proof.
  intros Hmodel Hfind Hbuild Hsave fields.
  rewrite continue_unfold, bind_unfold. unfold emit at 1, modify.
  rewrite Hmodel.
  rewrite bind_unfold. unfold on_fs at 1. wsimpl. rewrite Hbuild.
  rewrite bind_unfold. unfold emit at 1, modify.
  rewrite bind_unfold. unfold on_fs at 1. wsimpl. rewrite Hsave.
  rewrite bind_unfold.
  erewrite update_experiment_found by (wsimpl; exact Hfind).
  match goal with
  | |- context [launch ?e ?w1] =>
    pose proof (launch_spec e w1) as Hl; destruct (launch e w1) as [r w']
  end.
  destruct Hl as (_ & Hfs & _ & Hrows & delta & Ht & Hs).
  split; [by rewrite Hfs|]. split.
  - apply (Hrows (Experiments.id experiment)). wsimpl.
    rewrite find_experiment_updated, Hfind. cbn [fmap option_fmap option_map].
    rewrite (find_experiment_id _ _ _ Hfind), String.eqb_refl. done.
  - exists delta. rewrite Ht. wsimpl. rewrite <- !app_assoc.
    split; [reflexivity | exact Hs].
Qed.

(** *** The group resume *)

Lemma continue_experiment_group_unfold user group_id total_timesteps w :
  continue_experiment_group train_a2c train_dqn process_start user group_id
    total_timesteps w =
  relaunch_all user total_timesteps (group_members group_id w) w.
Proof. reflexivity. Qed.

Lemma relaunch_all_app user total_timesteps pre rest w :
  relaunch_all user total_timesteps (pre ++ rest) w =
  match relaunch_all user total_timesteps pre w with
  | (Ret _, w1) => relaunch_all user total_timesteps rest w1
  | other => other
  end.
Proof. apply for_each_app. Qed.

Lemma relaunch_all_raises user total_timesteps e post w x w' :
  continue_experiment user e total_timesteps w = (Raise x, w') ->
  relaunch_all user total_timesteps (e :: post) w = (Raise x, w').
Proof.
  intros H. unfold RosalindSpec.relaunch_all. cbn [for_each]. rewrite !bind_unfold.
  by rewrite H.
Qed.

(** *** Starting a new experiment *)

Local Abbreviation run_new :=
  (run_new_single_experiment_with_monitoring train_a2c train_dqn uuid4_value
     process_start).

Lemma run_new_unfold user model env_id model_params group_id :
  run_new user model env_id model_params group_id =
  match dict_get model (_MODELS train_a2c train_dqn) with
  | None =>
    raise (unknown_model model "run_new_single_experiment_with_monitoring" "177")
  | Some _ =>
    experiment_id <- uuid4 uuid4_value ;;
    group_id <- draw_group_id group_id ;;
    log_dir <- on_fs (build_log_dir experiment_id) ;;
    total_timesteps <- requested_timesteps model_params ;;
    create_experiment experiment_id group_id model env_id user
      total_timesteps log_dir model_params ;;;
    experiment <- get_experiment experiment_id ;;
    launch experiment
  end.
Proof. reflexivity. Qed.

Lemma uuid4_spec w :
  uuid4 uuid4_value w =
  (Ret (uuid4_value (uuids_drawn w)), set_uuids_drawn (S (uuids_drawn w)) w).
Proof. reflexivity. Qed.

Lemma draw_group_id_trace g w :
  same_trace w (snd (draw_group_id g w)).
Proof.
  unfold RosalindSpec.draw_group_id. destruct g as [g|]; [destruct (String.eqb g "")|]; done.
Qed.

Lemma requested_timesteps_state p w :
  snd (requested_timesteps p w) = w.
Proof.
  unfold requested_timesteps. by destruct (p !! "total_timesteps").
Qed.

(** Every call of [run_new_single_experiment_with_monitoring] creates one
    record in state PENDING, or writes no status at all. *)
Lemma run_new_status_writes user model env_id model_params group_id w :
  let '(r, w') := run_new user model env_id model_params group_id w in
  exists delta,
    trace w' = (trace w ++ delta)%list /\
    (status_writes delta = [] \/
     status_writes delta = [(uuid4_value (uuids_drawn w), PENDING)]).
Proof.
  rewrite run_new_unfold.
  destruct (dict_get _ _) as [model_runner|];
    [|exists []; rewrite app_nil_r; auto].
  rewrite bind_unfold, uuid4_spec. rewrite bind_unfold.
  set (i := uuid4_value (uuids_drawn w)).
  pose proof (draw_group_id_trace group_id (set_uuids_drawn (S (uuids_drawn w)) w))
    as Hg.
  destruct (draw_group_id group_id _) as [[g|x|] w1]; cbn [snd] in Hg;
    unfold same_trace in Hg; wsimpl in Hg;
    [|exists []; rewrite app_nil_r; auto|exists []; rewrite app_nil_r; auto].
  rewrite bind_unfold. unfold on_fs at 1.
  destruct (build_log_dir i (fs w1)) as [[log_dir|x|] fs1];
    [|exists []; wsimpl; rewrite app_nil_r; auto
     |exists []; wsimpl; rewrite app_nil_r; auto].
  rewrite bind_unfold.
  pose proof (requested_timesteps_state model_params (set_fs fs1 w1)) as Hq.
  destruct (requested_timesteps model_params _) as [[n|x|] w2]; cbn [snd] in Hq;
    subst w2;
    [|exists []; wsimpl; rewrite app_nil_r; auto
     |exists []; wsimpl; rewrite app_nil_r; auto].
  rewrite bind_unfold, create_experiment_spec.
  destruct (find_experiment i (experiments (set_fs fs1 w1))) as [e0|];
    [exists []; wsimpl; rewrite app_nil_r; auto|].
  destruct n as [|s|z|l|l];
    try (exists []; wsimpl; rewrite app_nil_r; by auto).
  rewrite bind_unfold, get_experiment_spec.
  match goal with
  | |- context [find_experiment i ?rows] =>
    destruct (find_experiment i rows) as [e1|]
  end.
  - match goal with
    | |- context [launch ?e ?w3] =>
      pose proof (launch_spec e w3) as Hl; destruct (launch e w3) as [r w']
    end.
    destruct Hl as (_ & _ & _ & _ & delta & Ht & Hs).
    exists (EvCreateExperiment i PENDING :: delta).
    rewrite Ht. wsimpl. rewrite Hg, <- app_assoc. split; [reflexivity|].
    right. change (EvCreateExperiment i PENDING :: delta)
      with ([EvCreateExperiment i PENDING] ++ delta)%list.
    by rewrite status_writes_app, Hs.
  - exists [EvCreateExperiment i PENDING]. wsimpl. rewrite Hg. auto.
Qed.

End Facade.
End FacadeFacts.


Module RosalindClaims.
Import Rosalind RosalindSpec RosalindFacts TrainFacts FacadeFacts Scenario.

(** C1 — (the code breaks the claim) With the default [num_envs = 1] and one
    free client, [train_model] reserves the client, raises [IndexError] at
    [client_pool[0]] before it enters its [try] statement, and leaves the
    client RESERVED for the experiment: nothing is released. *)
Theorem train_model_leaves_client_reserved :
  let '(r, w') :=
    train_model 1 (experiment "e1" "a2c" PENDING) ["logs"; "e1"] ok_runner
      "MalmoMaze-v0" params0 1 pending_world in
  r = Raise (Exn IndexError "list index out of range" (here "113" "train_model")) /\
  Rosalind.client_pool w' =
    [ClientPool.Build "127.0.0.1:10000" RESERVED (Some "e1")] /\
  trace w' =
    (trace pending_world ++
     [EvReserveClient "127.0.0.1:10000" "e1"; EvSleep 10])%list.
Proof. vm_compute. by repeat split. Qed.

(** C3 — (the code breaks the claim) The address the reservation returns
    splits into host and port, but [train_model] reads [client_pool[0]]
    instead of the split parts: the run raises [IndexError] and the training
    entry point is never called, with the parsed pair or any other. *)
Theorem train_model_drops_parsed_address :
  str_split ":" "127.0.0.1:10000" = ["127.0.0.1"; "10000"] /\
  int_of_string "10000" = Some 10000 /\
  let '(r, w') :=
    train_model 5 (experiment "e1" "a2c" PENDING) ["logs"; "e1"] ok_runner
      "MalmoMaze-v0" params0 1 pending_world in
  r = Raise (Exn IndexError "list index out of range" (here "113" "train_model")) /\
  entry_point_calls (trace w') = [].
Proof. vm_compute. by repeat split. Qed.

(** C2 (as stated, refuted) — In a group of three whose second member has
    an unregistered model kind, [continue_experiment_group] raises the
    [KeyError] of the second relaunch, and the relaunch of the third member
    is never attempted. *)
Lemma continue_group_skips_later_members :
  map Experiments.id (group_members "g1" group_world) = ["e1"; "e2"; "e3"] /\
  let '(r, w') :=
    continue_experiment_group ok_runner ok_runner spawn_ok alice "g1" 500
      group_world in
  r = Raise (unknown_model "ppo" "continue_experiement_with_monitoring" "238") /\
  relaunch_attempted "e1" (trace w') = true /\
  relaunch_attempted "e2" (trace w') = true /\
  relaunch_attempted "e3" (trace w') = false.
Proof. vm_compute. by repeat split. Qed.

(** C2 (amended) — [continue_experiment_group] relaunches the members in
    retrieval order; when the relaunch of a member raises, after the members
    before it were relaunched, the call raises that exception at once and
    ends in the state the failed relaunch left: the members after it are not
    touched. *)
Theorem continue_group_stops_at_first_failure
    (train_a2c train_dqn : runner) (process_start : Experiments.t -> exn + Z)
    (user : Users.t) (group_id : string) (total_timesteps : Z)
    (pre post : list Experiments.t) (member : Experiments.t) (x : exn)
    (w w1 w2 : World) :
  group_members group_id w = (pre ++ member :: post)%list ->
  relaunch_all train_a2c train_dqn process_start user total_timesteps pre w
    = (Ret tt, w1) ->
  continue_experiement_with_monitoring train_a2c train_dqn process_start user
    member total_timesteps w1 = (Raise x, w2) ->
  continue_experiment_group train_a2c train_dqn process_start user group_id
    total_timesteps w = (Raise x, w2).
Proof.
  intros Hmembers Hpre Hfail.
  rewrite continue_experiment_group_unfold, Hmembers, relaunch_all_app, Hpre.
  by apply relaunch_all_raises.
Qed.

Lemma continue_group_stops_at_first_failure_witness :
  exists w1 w2,
    group_members "g1" group_world =
      ([experiment "e1" "a2c" COMPLETED] ++
       experiment "e2" "ppo" COMPLETED :: [experiment "e3" "a2c" COMPLETED])%list /\
    relaunch_all ok_runner ok_runner spawn_ok alice 500
      [experiment "e1" "a2c" COMPLETED] group_world = (Ret tt, w1) /\
    continue_experiement_with_monitoring ok_runner ok_runner spawn_ok alice
      (experiment "e2" "ppo" COMPLETED) 500 w1
      = (Raise (unknown_model "ppo" "continue_experiement_with_monitoring" "238"),
         w2) /\
    continue_experiment_group ok_runner ok_runner spawn_ok alice "g1" 500
      group_world
      = (Raise (unknown_model "ppo" "continue_experiement_with_monitoring" "238"),
         w2).
Proof.
  eexists. eexists.
  split; [reflexivity|].
  split; [vm_compute; reflexivity|].
  split; [vm_compute; reflexivity|].
  eapply (continue_group_stops_at_first_failure ok_runner ok_runner spawn_ok
            alice "g1" 500 [experiment "e1" "a2c" COMPLETED]
            [experiment "e3" "a2c" COMPLETED] (experiment "e2" "ppo" COMPLETED)).
  - reflexivity.
  - vm_compute. reflexivity.
  - vm_compute. reflexivity.
Defined.

(** C4 (as stated, refuted) — Resuming a completed experiment twice in a
    row, before a worker has written RUNNING, writes PENDING twice in
    succession: the history is no sequence of PENDING, RUNNING, terminal
    cycles. *)
Lemma resume_twice_repeats_pending :
  let resume :=
    continue_experiement_with_monitoring ok_runner ok_runner spawn_ok alice
      (experiment "e1" "a2c" COMPLETED) 500 in
  let w1 := snd (resume completed_world) in
  let w2 := snd (resume w1) in
  valid_history (status_history "e1" (trace completed_world)) = true /\
  status_history "e1" (trace w2) =
    [PENDING; RUNNING; COMPLETED; PENDING; PENDING] /\
  valid_history (status_history "e1" (trace w2)) = false.
Proof. vm_compute. by repeat split. Qed.

(** C4 (amended) — One run of [train_model] writes, for its experiment,
    RUNNING and then exactly one of COMPLETED and FAILED, or it writes no
    status at all; one call of [continue_experiement_with_monitoring] writes
    PENDING for its experiment once, whatever the status was, or writes no
    status; one call of [run_new_single_experiment_with_monitoring] creates
    its record as PENDING or writes no status.  No call writes a status of
    another experiment. *)
Theorem status_writes_of_each_operation
    (train_a2c train_dqn : runner) (uuid4_value : nat -> string)
    (process_start : Experiments.t -> exn + Z) :
  (forall fuel experiment log_dir model_runner env_id model_params num_envs w,
     exists delta,
       trace (snd (train_model fuel experiment log_dir model_runner env_id
                     model_params num_envs w)) = (trace w ++ delta)%list /\
       (status_writes delta = [] \/
        status_writes delta =
          [(Experiments.id experiment, RUNNING);
           (Experiments.id experiment, COMPLETED)] \/
        status_writes delta =
          [(Experiments.id experiment, RUNNING);
           (Experiments.id experiment, FAILED)])) /\
  (forall user experiment total_timesteps w,
     exists delta,
       trace (snd (continue_experiement_with_monitoring train_a2c train_dqn
                     process_start user experiment total_timesteps w))
         = (trace w ++ delta)%list /\
       (status_writes delta = [] \/
        status_writes delta = [(Experiments.id experiment, PENDING)])) /\
  (forall user model env_id model_params group_id w,
     exists delta,
       trace (snd (run_new_single_experiment_with_monitoring train_a2c train_dqn
                     uuid4_value process_start user model env_id model_params
                     group_id w))
         = (trace w ++ delta)%list /\
       (status_writes delta = [] \/
        status_writes delta = [(uuid4_value (uuids_drawn w), PENDING)])).
Proof.
  split; [|split].
  - intros fuel experiment log_dir model_runner env_id model_params num_envs w.
    pose proof (train_model_notices fuel experiment log_dir model_runner env_id
                  model_params num_envs w) as H.
    destruct (train_model _ _ _ _ _ _ _ w) as [r w'].
    destruct H as (delta & Ht & Hn). exists delta. split; [exact Ht|].
    unfold status_writes.
    destruct Hn as [->|[->|(e & pool & _ & ->)]]; [by left| |];
      unfold sent_to_owner; destruct (find_user _ _); cbn; auto.
  - intros user experiment total_timesteps w.
    pose proof (continue_status_writes train_a2c train_dqn process_start user
                  experiment total_timesteps w) as H.
    destruct (continue_experiement_with_monitoring _ _ _ _ _ _ w) as [r w'].
    destruct H as (delta & Ht & Hs).
    exists (EvEnter (Experiments.id experiment) :: delta). split; [exact Ht|].
    change (EvEnter (Experiments.id experiment) :: delta)
      with ([EvEnter (Experiments.id experiment)] ++ delta)%list.
    rewrite status_writes_app. exact Hs.
  - intros user model env_id model_params group_id w.
    pose proof (run_new_status_writes train_a2c train_dqn uuid4_value
                  process_start user model env_id model_params group_id w) as H.
    destruct (run_new_single_experiment_with_monitoring _ _ _ _ _ _ _ _ _ w)
      as [r w'].
    exact H.
Qed.

(** C5 (as stated, refuted) — A run for an experiment whose owner is not
    among the users writes RUNNING and then COMPLETED, and sends no message
    at all: the terminal transition goes unreported. *)
Lemma train_model_completes_without_message :
  let '(r, w') :=
    train_model 1 (experiment "e1" "a2c" PENDING) ["logs"; "e1"] ok_runner
      "MalmoMaze-v0" params0 0 ownerless_world in
  find_user "alice" (users ownerless_world) = None /\
  notices (trace w') =
    [Wrote "e1" PENDING; Wrote "e1" RUNNING; Wrote "e1" COMPLETED].
Proof. vm_compute. by split. Qed.

(** C5 (amended) — In every run of [train_model], what is written and sent
    is one of three things.  The run writes no status and sends nothing; or
    it writes RUNNING, then COMPLETED, and then sends the completion message
    to the owner; or the trainer raised, and it writes RUNNING, then FAILED,
    and then sends the owner one message that contains the whole traceback
    of that exception.  The message goes out exactly once when [get_user]
    finds the owner, and not at all when it does not; nothing is sent for
    RUNNING. *)
Theorem train_model_notifies_known_owner (fuel : nat)
    (experiment : Experiments.t) (log_dir : Fs.path) (model_runner : runner)
    (env_id : string) (model_params : params) (num_envs : Z) (w : World) :
  let i := Experiments.id experiment in
  let to_owner text :=
    match find_user (Experiments.owner experiment) (users w) with
    | Some user => [Sent (Users.chat_id user) text]
    | None => []
    end in
  let '(r, w') :=
    train_model fuel experiment log_dir model_runner env_id model_params
      num_envs w in
  exists delta,
    trace w' = (trace w ++ delta)%list /\
    (notices delta = [] \/
     notices delta =
       (Wrote i RUNNING :: Wrote i COMPLETED ::
        to_owner (completed_message i)) \/
     exists e client_pool,
       model_runner log_dir env_id client_pool 10 model_params = Some e /\
       notices delta =
         (Wrote i RUNNING :: Wrote i FAILED ::
          to_owner (failed_message i (format_exc e))) /\
       contains (format_exc e) (failed_message i (format_exc e))).
Proof.
  intros i to_owner.
  pose proof (train_model_notices fuel experiment log_dir model_runner env_id
                model_params num_envs w) as H.
  destruct (train_model _ _ _ _ _ _ _ w) as [r w'].
  destruct H as (delta & Ht & Hn). exists delta. split; [exact Ht|].
  destruct Hn as [Hn|[Hn|(e & pool & Hrun & Hn)]]; [by left|by right; left|].
  right. right. exists e, pool. split; [exact Hrun|]. split; [exact Hn|].
  apply failed_message_contains.
Qed.

(** C6 (as stated, refuted) — Resumed twice with the same experiment
    object, whose total is 1000, the record holds 1500 after the first
    resume and still 1500 after the second: the extra steps are added to
    the total of the object, not to the total persisted. *)
Lemma resume_with_stale_object_misses_total :
  let resume :=
    continue_experiement_with_monitoring ok_runner ok_runner spawn_ok alice
      (experiment "e1" "a2c" COMPLETED) 500 in
  let w1 := snd (resume completed_world) in
  let w2 := snd (resume w1) in
  Experiments.total_timesteps <$> find_experiment "e1" (experiments w1)
    = Some 1500 /\
  fst (resume w1) = Ret (with_model_params
                           (resumed_params ["logs"; "e1"] 500 params0)
                           (experiment "e1" "a2c" COMPLETED)) /\
  Experiments.total_timesteps <$> find_experiment "e1" (experiments w2)
    = Some 1500.
Proof. vm_compute. by repeat split. Qed.

(** C6 (amended) — When the model kind of the experiment is registered, its
    record is stored and its log directory is there or can be made,
    [continue_experiement_with_monitoring] takes the checkpoint first.  When
    the checkpoint fails, the call raises its exception and nothing has been
    persisted.  When it succeeds, the record is then persisted with the total
    of the experiment object passed in raised by the extra steps, status
    PENDING and [load_path] set in the model parameters; whatever the process
    start does afterwards, the record keeps those values and the file system
    is the one the checkpoint left. *)
Theorem continue_persists_object_total
    (train_a2c train_dqn : runner) (process_start : Experiments.t -> exn + Z)
    (user : Users.t) (experiment stored : Experiments.t) (total_timesteps : Z)
    (w : World) (registered : runner) (log_dir : Fs.path) (fs1 : Fs.node) :
  dict_get (Experiments.model experiment) (_MODELS train_a2c train_dqn)
    = Some registered ->
  find_experiment (Experiments.id experiment) (experiments w) = Some stored ->
  build_log_dir (Experiments.id experiment) (fs w) = (Ret log_dir, fs1) ->
  let '(r, w') :=
    continue_experiement_with_monitoring train_a2c train_dqn process_start user
      experiment total_timesteps w in
  match Fs.save_experiment_checkpoint log_dir fs1 with
  | (Ret _, fs2) =>
    fs w' = fs2 /\
    (exists stored',
       find_experiment (Experiments.id experiment) (experiments w')
         = Some stored' /\
       Experiments.total_timesteps stored' =
         Experiments.total_timesteps experiment + total_timesteps /\
       Experiments.status stored' = PENDING /\
       Experiments.model_params stored' !! "load_path" =
         Some (PStr (path_string (Fs.os_path_join log_dir "model.pkl")))) /\
    exists rest,
      trace w' =
        (trace w ++
         [EvEnter (Experiments.id experiment);
          EvCheckpoint log_dir;
          EvUpdateExperiment (Experiments.id experiment)
            (resume_fields user experiment log_dir total_timesteps)] ++ rest)%list /\
      status_writes rest = []
  | (failed, fs2) =>
    (r = Hang \/ exists e, r = Raise e) /\
    (forall e, failed = Raise e <-> r = Raise e) /\
    fs w' = fs2 /\
    experiments w' = experiments w /\
    trace w' =
      (trace w ++ [EvEnter (Experiments.id experiment); EvCheckpoint log_dir])%list
  end.
Proof.
  intros Hmodel Hfind Hbuild.
  destruct (Fs.save_experiment_checkpoint log_dir fs1) as [[[]|e|] fs2] eqn:Hsave.
  - pose proof (continue_resumes train_a2c train_dqn process_start user
                  experiment total_timesteps w registered stored log_dir fs1
                  fs2 Hmodel Hfind Hbuild Hsave) as H.
    cbv zeta in H.
    destruct (continue_experiement_with_monitoring _ _ _ _ _ _ w) as [r w'].
    destruct H as (Hfs & (stored' & Hfind' & Hsame) & Hrest).
    split; [exact Hfs|]. split; [|exact Hrest].
    exists stored'. split; [exact Hfind'|].
    destruct Hsame as (_ & Hstatus & Htot & Hparams & _).
    rewrite Hstatus, Htot, Hparams. destruct stored. cbn.
    split; [done|]. split; [done|].
    unfold resumed_params. rewrite lookup_insert_ne by done.
    apply lookup_insert_eq.
  - rewrite continue_unfold, bind_unfold. unfold emit at 1, modify.
    rewrite Hmodel, bind_unfold. unfold on_fs at 1. wsimpl. rewrite Hbuild.
    rewrite bind_unfold. unfold emit at 1, modify.
    rewrite bind_unfold. unfold on_fs at 1. wsimpl. rewrite Hsave.
    wsimpl. rewrite <- app_assoc.
    split; [right; by eexists|].
    split; [intros e0; split; intros H; by inversion H|]. done.
  - rewrite continue_unfold, bind_unfold. unfold emit at 1, modify.
    rewrite Hmodel, bind_unfold. unfold on_fs at 1. wsimpl. rewrite Hbuild.
    rewrite bind_unfold. unfold emit at 1, modify.
    rewrite bind_unfold. unfold on_fs at 1. wsimpl. rewrite Hsave.
    wsimpl. rewrite <- app_assoc.
    split; [by left|].
    split; [intros e0; split; intros H; by inversion H|]. done.
Qed.

Lemma continue_persists_object_total_witness :
  exists stored',
    find_experiment "e1"
      (experiments
         (snd (continue_experiement_with_monitoring ok_runner ok_runner spawn_ok
                 alice (experiment "e1" "a2c" COMPLETED) 500 completed_world)))
      = Some stored' /\
    Experiments.total_timesteps stored' = 1500 /\
    Experiments.status stored' = PENDING.
Proof.
  pose proof (continue_persists_object_total ok_runner ok_runner spawn_ok
                alice (experiment "e1" "a2c" COMPLETED)
                (experiment "e1" "a2c" COMPLETED) 500 completed_world ok_runner
                ["logs"; "e1"] files eq_refl eq_refl eq_refl) as H.
  destruct (continue_experiement_with_monitoring _ _ _ _ _ _ completed_world)
    as [r w'].
  destruct (Fs.save_experiment_checkpoint ["logs"; "e1"] files)
    as [[[]|e|] fs2] eqn:Hsave; try (by vm_compute in Hsave).
  destruct H as (_ & (stored' & Hfind & Htotal & Hstatus & _) & _).
  exists stored'. split; [exact Hfind|]. split; [exact Htotal | exact Hstatus].
Defined.

(** C8 — For a model name that is not in [_MODELS],
    [run_new_single_experiment_with_monitoring] raises the unknown-model
    [KeyError] and leaves the world as it was: no record is created or
    updated, no client is reserved, no directory is made, no UUID is
    drawn. *)
Theorem run_new_unknown_model_changes_nothing
    (train_a2c train_dqn : runner) (uuid4_value : nat -> string)
    (process_start : Experiments.t -> exn + Z)
    (user model env_id : string) (model_params : params)
    (group_id : option string) (w : World) :
  dict_get model (_MODELS train_a2c train_dqn) = None ->
  run_new_single_experiment_with_monitoring train_a2c train_dqn uuid4_value
    process_start user model env_id model_params group_id w =
  (Raise (unknown_model model "run_new_single_experiment_with_monitoring" "177"),
   w).
Proof.
  intros Hmodel. unfold run_new_single_experiment_with_monitoring.
  by rewrite Hmodel.
Qed.

Lemma run_new_unknown_model_changes_nothing_witness :
  dict_get "ppo" (_MODELS ok_runner boom_runner) = None /\
  run_new_single_experiment_with_monitoring ok_runner boom_runner uuids spawn_ok
    "alice" "ppo" "MalmoMaze-v0" params0 None pending_world =
  (Raise (unknown_model "ppo" "run_new_single_experiment_with_monitoring" "177"),
   pending_world).
Proof.
  split; [reflexivity|].
  exact (run_new_unknown_model_changes_nothing ok_runner boom_runner uuids
           spawn_ok "alice" "ppo" "MalmoMaze-v0" params0 None pending_world
           eq_refl).
Defined.

End RosalindClaims.


Module MalmoFacts.
Import Malmo MalmoSpec.

Section Facts.
Context {X : Externals}.

Lemma step_unfold fuel action :
  step fuel action =
  (world_state <- agent_peekWorldState ;;
   world_state <-
     (if is_mission_running world_state then
        _take_action action ;;;
        s <- get ;;
        modify (set_num_actions (num_actions s + 1)) ;;;
        _get_world_state fuel false
      else ret world_state) ;;
   step_finish world_state).
Proof. reflexivity. Qed.

Lemma untouched_refl s : untouched s s.
Proof. by repeat split. Qed.

Lemma untouched_trans s1 s2 s3 :
  untouched s1 s2 -> untouched s2 s3 -> untouched s1 s3.
Proof. unfold untouched. intros (?&?&?) (?&?&?). repeat split; congruence. Qed.

Local Hint Resolve untouched_refl untouched_trans : core.

Ltac quiet :=
  repeat first
    [ apply keeps_ret; [by auto | done]
    | apply keeps_raise; by auto
    | apply keeps_get; [by auto | done]
    | apply keeps_modify; intros ?; by repeat split
    | eapply keeps_bind; [by eauto | | intros ? ?]
    | progress unfold py_assert, py_last, lift_exn
    | match goal with
      | |- keeps _ _ (if ?b then _ else _) => destruct b
      | |- keeps _ _ (match ?x with _ => _ end) => destruct x
      end ].

Lemma quiet_get_observation ws :
  keeps untouched (fun _ => True) (_get_observation ws).
Proof. unfold _get_observation. quiet. Qed.

Lemma quiet_get_video_frame ws :
  keeps untouched (fun _ => True) (_get_video_frame ws).
Proof. unfold _get_video_frame. quiet. Qed.

Lemma quiet_update_replay_buffer o :
  keeps untouched (fun _ => True)
    (_update_replay_buffer_and_get_observation o).
Proof. unfold _update_replay_buffer_and_get_observation. quiet. Qed.

Lemma step_finish_spec ws :
  keeps untouched (fun out => done out = negb (is_mission_running ws))
    (step_finish ws).
Proof.
  unfold step_finish.
  eapply keeps_bind; [by eauto | | intros _ _].
  { apply keeps_for_each; [by eauto | by eauto |]. intros text. quiet. }
  eapply keeps_bind; [by eauto | apply quiet_get_observation | intros o _].
  eapply keeps_bind; [by eauto | by apply keeps_get with (P := fun _ => True) | intros s _].
  eapply keeps_bind with (Q := fun _ => True); [by eauto | | intros p _].
  - destruct (parse_world_state s).
    + quiet.
    + eapply keeps_bind; [by eauto | apply quiet_get_video_frame | intros f _].
      eapply keeps_bind; [by eauto | apply quiet_update_replay_buffer | intros b _].
      by apply keeps_ret.
  - by apply keeps_ret.
Qed.

Lemma control_messages_loop msgs (s : MalmoEnvironment) :
  let '(r, s') :=
    for_each (S := MalmoEnvironment) msgs (fun text =>
      match ET_fromstring text with
      | Some e => raise e
      | None => ret tt
      end) s in
  s' = s /\ r <> Hang /\
  (Forall (fun text => ET_fromstring text = None) msgs -> r = Ret tt).
Proof.
  induction msgs as [|text msgs IH]; simpl.
  - by repeat split.
  - unfold bind. destruct (ET_fromstring text) as [e|] eqn:E; simpl.
    + repeat split; [done|]. intros H. inversion H; congruence.
    + destruct (for_each msgs _ s) as [r s'].
      destruct IH as (-> & Hr & Hall). repeat split; [done|].
      intros H. inversion H; auto.
Qed.

Lemma step_mission_over fuel action s :
  is_mission_running (peekWorldState (agent_host s)) = false ->
  step fuel action s =
  step_finish (peekWorldState (agent_host s))
    (set_journal (journal s ++ [JPeekWorldState]) s).
Proof.
  intros Hover. rewrite step_unfold.
  unfold bind at 1. unfold agent_peekWorldState, bind, get, note, modify, ret.
  simpl. by rewrite Hover.
Qed.

(** A sufficient condition for [step_finish] to return in image mode with
    no new video frame. *)
Lemma step_finish_returns ws s :
  Forall (fun text => ET_fromstring text = None) (mission_control_messages ws) ->
  is_mission_running ws = false ->
  parse_world_state s = false ->
  number_of_video_frames_since_last_state ws <= 0 ->
  (exists a, np_vstack (removelast (last_image s :: replay_buffer s)) = inr a) ->
  exists out, fst (step_finish ws s) = Ret out.
Proof.
  intros Hmsgs Hover Hparse Hframes [a Hstack]. unfold step_finish.
  unfold bind at 1.
  pose proof (control_messages_loop (mission_control_messages ws) s) as Hloop.
  destruct (for_each _ _ s) as [r0 s0]. destruct Hloop as (-> & _ & Hr0).
  rewrite (Hr0 Hmsgs).
  unfold _get_observation. rewrite Hover, andb_false_r.
  unfold bind, get, ret. simpl. rewrite Hparse.
  unfold _get_video_frame.
  destruct (0 <? number_of_video_frames_since_last_state ws) eqn:E;
    [apply Z.ltb_lt in E; lia|].
  unfold _update_replay_buffer_and_get_observation, bind, get, modify, ret,
    lift_exn. simpl in *. rewrite Hstack. simpl. by eexists.
Qed.

End Facts.

(** C10 — A call of [step] made while the peeked world state says the mission
    is no longer running sends no command to the agent host (the agent host
    is left as it was and the journal gains the peek alone), leaves
    [num_actions] unchanged, never hangs, and every tuple it returns has
    [done] set.  It does return when the control messages parse and, in
    image mode with no new video frame, the replay buffer stacks. *)
Theorem step_after_mission_end `{X : Externals} (fuel : nat) (action : action)
    (env : MalmoEnvironment) :
  is_mission_running (peekWorldState (agent_host env)) = false ->
  let world_state := peekWorldState (agent_host env) in
  let '(r, env') := step fuel action env in
  agent_host env' = agent_host env /\
  journal env' = (journal env ++ [JPeekWorldState])%list /\
  num_actions env' = num_actions env /\
  r <> Hang /\
  (forall out, r = Ret out -> done out = true) /\
  (Forall (fun text => ET_fromstring text = None)
     (mission_control_messages world_state) ->
   parse_world_state env = false ->
   number_of_video_frames_since_last_state world_state <= 0 ->
   (exists a,
      np_vstack (removelast (last_image env :: replay_buffer env)) = inr a) ->
   exists out, r = Ret out).
Proof.
  intros Hover world_state. rewrite (step_mission_over fuel action env Hover).
  fold world_state.
  pose proof (step_finish_spec world_state
                (set_journal (journal env ++ [JPeekWorldState]) env)) as Hspec.
  pose proof (step_finish_returns world_state
                (set_journal (journal env ++ [JPeekWorldState]) env)) as Hret.
  destruct (step_finish world_state _) as [r env'].
  destruct Hspec as [(Hhost & Hjournal & Hnum) Hr].
  split; [done|]. split; [done|]. split; [done|]. split.
  { by destruct r. }
  split.
  { intros out ->. rewrite Hr. fold world_state in Hover. by rewrite Hover. }
  intros Hmsgs Hparse Hframes Hstack. by apply Hret.
Qed.

Lemma step_after_mission_end_witness :
  is_mission_running
    (peekWorldState (agent_host (MalmoScenario.fresh_env 0))) = false /\
  exists out,
    fst (step 0 (AScalar (SInt 0)) (MalmoScenario.fresh_env 0)) = Ret out /\
    done out = true.
Proof.
  split; [reflexivity|].
  pose proof (step_after_mission_end (X := MalmoScenario.busy_client) 0
                (AScalar (SInt 0)) (MalmoScenario.fresh_env 0) eq_refl) as H.
  cbv zeta in H.
  destruct (step 0 (AScalar (SInt 0)) (MalmoScenario.fresh_env 0)) as [r env'].
  destruct H as (_ & _ & _ & _ & Hdone & Hret).
  destruct Hret as [out ->].
  - by repeat constructor.
  - reflexivity.
  - vm_compute. congruence.
  - by eexists.
  - exists out. split; [reflexivity | by apply Hdone].
Defined.

End MalmoFacts.


Module ResetFacts.
Import Malmo MalmoSpec.

Section Facts.
Context {X : Externals}.





End Facts.



End ResetFacts.


(** ** Frame conditions *)

Section Preserves.
Context {S : Type} (R : S -> S -> Prop).
Hypothesis R_refl : forall s, R s s.
Hypothesis R_trans : forall s1 s2 s3, R s1 s2 -> R s2 s3 -> R s1 s3.

Lemma preserves_ret {A} (P : A -> Prop) a : P a -> preserves R P (ret a).
Proof using R_refl. intros H s. simpl. auto. Qed.

Lemma preserves_raise {A} (P : A -> Prop) e : preserves R P (raise e).
Proof using R_refl. intros s. simpl. auto. Qed.

Lemma preserves_hang {A} (P : A -> Prop) : preserves R P hang.
Proof using R_refl. intros s. simpl. auto. Qed.

Lemma preserves_get (P : S -> Prop) : (forall s, P s) -> preserves R P get.
Proof using R_refl. intros H s. simpl. auto. Qed.

Lemma preserves_modify (f : S -> S) :
  (forall s, R s (f s)) -> preserves R (fun _ => True) (modify f).
Proof. intros H s. simpl. auto. Qed.

Lemma preserves_bind {A B} (Q : A -> Prop) (P : B -> Prop) m (k : A -> M S B) :
  preserves R Q m -> (forall a, Q a -> preserves R P (k a)) ->
  preserves R P (bind m k).
Proof using R_trans.
  intros Hm Hk s. unfold bind. specialize (Hm s).
  destruct (m s) as [[a|e|] s1]; destruct Hm as [HR HQ]; [|done|done].
  specialize (Hk a HQ s1). destruct (k a s1) as [r s2].
  destruct Hk as [HR2 HP]. eauto.
Qed.

Lemma preserves_weaken {A} (P Q : A -> Prop) m :
  (forall a, P a -> Q a) -> preserves R P m -> preserves R Q m.
Proof.
  intros HPQ Hm s. specialize (Hm s). destruct (m s) as [[a|e|] s1];
    destruct Hm; auto.
Qed.

Lemma preserves_for_each {A} (xs : list A) (body : A -> M S unit) :
  (forall x, preserves R (fun _ => True) (body x)) ->
  preserves R (fun _ => True) (for_each xs body).
Proof using R_refl R_trans.
  intros H. induction xs as [|x xs IH]; simpl.
  - by apply preserves_ret.
  - eapply preserves_bind; [apply H|]. intros _ _. apply IH.
Qed.

Lemma keeps_preserves {A} (P : A -> Prop) m : keeps R P m -> preserves R P m.
Proof.
  intros H s. specialize (H s). destruct (m s) as [[a|e|] s1];
    destruct H; auto.
Qed.

(** A [try] statement whose four suites preserve [R]; it returns only if
    its [finally] suite does. *)
Lemma preserves_try {A} (Q : A -> Prop) (F : unit -> Prop) body handler orelse
    final :
  preserves R (fun _ => True) body ->
  (forall e, preserves R Q (handler e)) ->
  preserves R Q orelse ->
  preserves R F final ->
  preserves R (fun a => Q a /\ F tt)
    (try_except_else_finally body handler orelse final).
Proof using R_trans.
  intros Hb Hh Ho Hf s. unfold try_except_else_finally.
  specialize (Hb s). destruct (body s) as [[[]|e|] s0]; destruct Hb as [HR0 _].
  - specialize (Ho s0). destruct (orelse s0) as [r1 s1]. destruct Ho as [HR1 HQ].
    specialize (Hf s1).
    destruct r1 as [a|e|]; [| |by eauto];
      destruct (final s1) as [[[]|e2|] s2]; destruct Hf as [HR2 HF]; eauto.
  - specialize (Hh e s0). destruct (handler e s0) as [r1 s1].
    destruct Hh as [HR1 HQ]. specialize (Hf s1).
    destruct r1 as [a|e1|]; [| |by eauto];
      destruct (final s1) as [[[]|e2|] s2]; destruct Hf as [HR2 HF]; eauto.
  - eauto.
Qed.

Lemma preserves_try_except {A} (P : A -> Prop) body handler :
  preserves R P body -> (forall e, preserves R P (handler e)) ->
  preserves R P (try_except body handler).
Proof using R_trans.
  intros Hb Hh s. unfold try_except. specialize (Hb s).
  destruct (body s) as [[a|e|] s0]; destruct Hb as [HR0 HP]; [done| |done].
  specialize (Hh e s0). destruct (handler e s0) as [r1 s1].
  destruct Hh as [HR1 HQ]. eauto.
Qed.

End Preserves.

(** ** The worker, whatever its input *)

Module RunnerFacts.
Import Rosalind RosalindSpec RunnerSpec RosalindFacts TrainFacts.

Lemma appends_refl P w : appends P w w.
Proof. exists []. by rewrite app_nil_r. Qed.

Lemma appends_trans P w1 w2 w3 :
  appends P w1 w2 -> appends P w2 w3 -> appends P w1 w3.
Proof.
  intros (d1 & Ht1 & Hp1) (d2 & Ht2 & Hp2). exists (d1 ++ d2)%list.
  rewrite Ht2, Ht1, app_assoc. split; [done|].
  by rewrite forallb_app, Hp1, Hp2.
Qed.

Local Hint Resolve appends_refl appends_trans : core.

Lemma emit_appends P e :
  P e = true -> preserves (appends P) (fun _ => True) (emit e).
Proof.
  intros H w. unfold emit, modify. split; [|done].
  exists [e]. split; [done|]. cbn. by rewrite H.
Qed.

Lemma quiet_appends P (f : World -> World) :
  (forall w, trace (f w) = trace w) ->
  preserves (appends P) (fun _ => True) (modify f).
Proof.
  intros H. apply preserves_modify. intros w. exists [].
  by rewrite H, app_nil_r.
Qed.

Lemma on_fs_appends {A} P (m : M Fs.node A) :
  preserves (appends P) (fun _ => True) (on_fs m).
Proof.
  intros w. unfold on_fs. destruct (m (fs w)) as [[a|e|] fs1];
    (split; [|done]); exists []; by rewrite app_nil_r.
Qed.

Lemma update_experiment_appends P i fields :
  P (EvUpdateExperiment i fields) = true ->
  preserves (appends P) (fun _ => True) (update_experiment i fields).
Proof.
  intros H. unfold update_experiment.
  eapply preserves_bind; [by eauto | by apply preserves_get with (P := fun _ => True) |].
  intros w _. destruct (find_experiment i (experiments w)).
  - eapply preserves_bind; [by eauto | by apply quiet_appends |].
    intros _ _. by apply emit_appends.
  - by apply preserves_raise.
Qed.

Lemma send_message_appends P experiment text :
  (forall c, P (EvSendMessage c text) = true) ->
  preserves (appends P) (fun _ => True) (send_message_to_owner experiment text).
Proof.
  intros H w. rewrite send_message_to_owner_spec.
  destruct (find_user _ _) as [u|]; (split; [|done]); [|by auto].
  exists [EvSendMessage (Users.chat_id u) text]. split; [done|].
  cbn. by rewrite H.
Qed.

Lemma find_and_reserve_client_appends P i :
  (forall a, P (EvReserveClient a i) = true) ->
  preserves (appends P) (fun _ => True) (find_and_reserve_client i).
Proof.
  intros H w. unfold find_and_reserve_client, bind, get, modify, emit, modify, ret.
  destruct (reserve_first i (Rosalind.client_pool w)) as [[a rows]|];
    (split; [|done]); [|by auto].
  exists [EvReserveClient a i]. split; [done|]. cbn. by rewrite H.
Qed.

Lemma time_sleep_appends P n :
  P (EvSleep n) = true -> preserves (appends P) (fun _ => True) (time_sleep n).
Proof.
  intros H. unfold time_sleep.
  eapply preserves_bind; [by eauto | by apply quiet_appends |].
  intros _ _. by apply emit_appends.
Qed.

Lemma utcnow_appends P : preserves (appends P) (fun _ => True) utcnow.
Proof. intros w. cbn. auto. Qed.

Lemma wait_for_client_appends P fuel i :
  (forall a, P (EvReserveClient a i) = true) -> P (EvSleep 10) = true ->
  preserves (appends P) (fun _ => True) (wait_for_client fuel i).
Proof.
  intros Hr Hs. induction fuel as [|fuel IH]; cbn [wait_for_client].
  - by apply preserves_hang.
  - eapply preserves_bind;
      [by eauto | by apply find_and_reserve_client_appends |].
    intros client_address _.
    eapply preserves_bind; [by eauto | by apply time_sleep_appends |].
    intros _ _. destruct client_address as [a|]; [|done].
    destruct (String.eqb a ""); [done|]. by apply preserves_ret.
Qed.

(** The reservation loop returns only when it has nothing to do. *)
Lemma reserve_clients_appends P fuel i n :
  (forall a, P (EvReserveClient a i) = true) -> P (EvSleep 10) = true ->
  preserves (appends P) (fun reserved => reserved = ([], None))
    (reserve_clients fuel i n [] None).
Proof.
  intros Hr Hs. destruct n as [|n]; cbn [reserve_clients].
  - by apply preserves_ret.
  - eapply preserves_bind; [by eauto | by apply wait_for_client_appends |].
    intros a _. unfold py_index. cbn. by apply preserves_raise.
Qed.

Lemma wait_for_client_result fuel i :
  forall w,
    fst (wait_for_client fuel i w) = Hang \/
    exists a, fst (wait_for_client fuel i w) = Ret a.
Proof.
  induction fuel as [|fuel IH]; intros w; cbn [wait_for_client]; [by left|].
  rewrite bind_unfold.
  unfold find_and_reserve_client, bind, get, modify, emit, modify, ret, time_sleep.
  destruct (reserve_first i (Rosalind.client_pool w)) as [[a rows]|]; cbn.
  - destruct (String.eqb a ""); [apply IH | right; by eexists].
  - apply IH.
Qed.

Lemma finally_release_unbound experiment w :
  finally_release experiment None w =
  (Raise unbound_client_address,
   set_trace
     (trace w ++
      [EvMonitorStop ("ExperimentMonitor-" +:+ Experiments.id experiment);
       EvMonitorJoin ("ExperimentMonitor-" +:+ Experiments.id experiment) 2])
     w).
Proof.
  unfold finally_release, monitor_stop, monitor_join, emit, modify, bind, raise.
  cbn. by rewrite <- app_assoc.
Qed.

Section Suites.
Variables (experiment : Experiments.t) (log_dir : Fs.path)
  (model_runner : runner) (env_id : string) (model_params : params).
Local Abbreviation P := (train_model_event experiment).

Lemma event_monitor_stop :
  P (EvMonitorStop ("ExperimentMonitor-" +:+ Experiments.id experiment)) = true.
Proof. cbn. apply String.eqb_refl. Qed.

Lemma event_monitor_join :
  P (EvMonitorJoin ("ExperimentMonitor-" +:+ Experiments.id experiment) 2) = true.
Proof. cbn. by rewrite String.eqb_refl. Qed.

Lemma try_body_appends :
  preserves (appends P) (fun _ => True)
    (try_body_with experiment log_dir model_runner env_id model_params []).
Proof.
  unfold try_body_with.
  eapply preserves_bind; [by eauto | |intros _ _].
  { apply update_experiment_appends. cbn. apply String.eqb_refl. }
  eapply preserves_bind; [by eauto | |intros _ _].
  { apply emit_appends. cbn. apply String.eqb_refl. }
  eapply preserves_bind; [by eauto | |intros _ _].
  { by apply emit_appends. }
  destruct (model_runner _ _ _ _ _); [by apply preserves_raise | by apply preserves_ret].
Qed.

Lemma on_exception_appends e :
  preserves (appends P) (fun _ : unit => True) (on_exception experiment e).
Proof.
  unfold on_exception.
  eapply preserves_bind; [by eauto | |intros _ _].
  { apply emit_appends, event_monitor_stop. }
  eapply preserves_bind; [by eauto | |intros _ _].
  { apply emit_appends, event_monitor_join. }
  eapply preserves_bind; [by eauto | apply utcnow_appends |].
  intros end_date _.
  eapply preserves_bind; [by eauto | |intros _ _].
  { apply update_experiment_appends. cbn. apply String.eqb_refl. }
  eapply preserves_bind; [by eauto | |intros _ _].
  { by apply send_message_appends. }
  by apply preserves_raise.
Qed.

Lemma on_return_appends :
  preserves (appends P) (fun _ : unit => True) (on_return experiment).
Proof.
  unfold on_return.
  eapply preserves_bind; [by eauto | apply utcnow_appends |].
  intros end_date _.
  eapply preserves_bind; [by eauto | |intros _ _].
  { apply update_experiment_appends. cbn. apply String.eqb_refl. }
  by apply send_message_appends.
Qed.

Lemma finally_release_appends :
  preserves (appends P) (fun _ => False) (finally_release experiment None).
Proof.
  intros w. rewrite finally_release_unbound. split; [|done].
  eexists. split; [reflexivity|]. cbn. by rewrite !String.eqb_refl.
Qed.

Lemma train_model_appends fuel num_envs :
  preserves (appends P) (fun _ => False)
    (train_model fuel experiment log_dir model_runner env_id model_params
       num_envs).
Proof.
  rewrite train_model_unfold.
  eapply preserves_bind; [by eauto | apply on_fs_appends | intros _ _].
  rewrite supervise_unfold.
  eapply preserves_bind; [by eauto | |].
  { apply reserve_clients_appends; [|done]. intros a. cbn. apply String.eqb_refl. }
  intros reserved ->. cbn [fst snd].
  eapply preserves_weaken;
    [|apply preserves_try with (Q := fun _ => True) (F := fun _ => False);
      [by eauto | apply try_body_appends | apply on_exception_appends
      | apply on_return_appends | apply finally_release_appends]].
  by intros _ [_ ?].
Qed.

End Suites.

Lemma train_model_event_no_update experiment delta :
  forallb (train_model_event experiment) delta = true ->
  client_updates delta = [] /\ Forall (eq []) (entry_point_calls delta).
Proof.
  induction delta as [|e delta IH]; [by split|].
  cbn [forallb]. intros [He Hd]%andb_true_iff. destruct (IH Hd) as [IH1 IH2].
  unfold client_updates, entry_point_calls in *. cbn [flat_map].
  rewrite IH1. split.
  - by destruct e.
  - destruct e; try done. cbn in He. destruct client_pool0; [|done].
    cbn. by constructor.
Qed.

End RunnerFacts.


Module RunnerTheorems.
Import Rosalind RosalindSpec RunnerSpec RosalindFacts TrainFacts RunnerFacts.

(** A [try] statement whose [finally] suite always raises [x], and whose
    other suites terminate, raises [x]. *)
Lemma try_finally_raises {S A} (body : M S unit) (handler : exn -> M S A)
    (orelse : M S A) (final : M S unit) (x : exn) (s : S) :
  (forall s, fst (final s) = Raise x) ->
  fst (body s) <> Hang ->
  (forall e s, fst (handler e s) <> Hang) ->
  (forall s, fst (orelse s) <> Hang) ->
  fst (try_except_else_finally body handler orelse final s) = Raise x.
Proof.
  intros Hf Hb Hh Ho. unfold try_except_else_finally.
  destruct (body s) as [[[]|e|] s0]; [| |done].
  - specialize (Ho s0). destruct (orelse s0) as [[a|e|] s1]; [| |done];
      specialize (Hf s1); destruct (final s1) as [[[]|e2|] s2]; simpl in *; congruence.
  - specialize (Hh e s0). destruct (handler e s0) as [[a|e1|] s1]; [| |done];
      specialize (Hf s1); destruct (final s1) as [[[]|e2|] s2]; simpl in *; congruence.
Qed.

Lemma try_body_terminates experiment log_dir model_runner env_id model_params
    pool w :
  fst (try_body_with experiment log_dir model_runner env_id model_params pool w)
    <> Hang.
Proof.
  destruct (find_experiment (Experiments.id experiment) (experiments w))
    as [e0|] eqn:Hfind.
  - rewrite (try_body_found _ _ _ _ _ _ _ e0 Hfind). cbn.
    by destruct (model_runner _ _ _ _ _).
  - by rewrite (try_body_missing _ _ _ _ _ _ _ Hfind).
Qed.

Lemma open_append_terminates p fs : fst (Fs.open_append p fs) <> Hang.
Proof.
  unfold Fs.open_append. destruct (Fs.split_last p) as [[parent name]|]; [|done].
  destruct (Fs.resolve parent fs) as [[c|es]|]; [done| |done].
  by destruct (Fs.lookup es name) as [[c|sub]|].
Qed.

Lemma supervise_never_returns fuel experiment log_dir model_runner env_id
    model_params num_envs w :
  let r :=
    fst (supervise experiment log_dir model_runner env_id model_params fuel
           num_envs w) in
  (num_envs <= 0 /\ r = Raise unbound_client_address) \/
  (1 <= num_envs /\ (r = Hang \/ r = Raise empty_client_pool)).
Proof.
  cbv zeta. rewrite supervise_unfold, bind_unfold.
  destruct (Z.to_nat num_envs) as [|n] eqn:Hn.
  - left. split; [lia|]. cbn [reserve_clients]. unfold ret at 1. cbn [fst snd].
    apply try_finally_raises.
    + intros s. by rewrite finally_release_unbound.
    + apply try_body_terminates.
    + intros e s. pose proof (on_exception_spec experiment e s) as H.
      destruct (on_exception experiment e s). by destruct H.
    + intros s. pose proof (on_return_spec experiment s) as H.
      destruct (on_return experiment s). by destruct H.
  - right. split; [lia|].
    pose proof (reserve_clients_first_pass fuel (Experiments.id experiment)
                  n None w) as Hres.
    destruct (reserve_clients fuel _ (S n) [] None w) as [r0 w0].
    destruct Hres as [_ Hr0].
    destruct (wait_for_client_result fuel (Experiments.id experiment) w)
      as [Hw|[a Hw]]; rewrite Hw in Hr0; subst r0; cbn; auto.
Qed.

(** X1 — [train_model] never returns.  When its log file cannot be opened,
    it raises the exception of the file handler.  Otherwise, asked for no
    environment ([num_envs <= 0]) it runs its [try] statement, and the
    [finally] suite reads the local [client_address] that was never bound:
    the call raises [UnboundLocalError], whatever the trainer did; asked for
    at least one environment it waits for a client and then raises
    [IndexError] at [client_pool[0]], or is still waiting. *)
Theorem train_model_never_returns (fuel : nat) (experiment : Experiments.t)
    (log_dir : Fs.path) (model_runner : runner) (env_id : string)
    (model_params : params) (num_envs : Z) (w : World) :
  let r :=
    fst (train_model fuel experiment log_dir model_runner env_id model_params
           num_envs w) in
  match Fs.open_append (Fs.os_path_join log_dir "train.log") (fs w) with
  | (Ret _, _) =>
    (num_envs <= 0 /\ r = Raise unbound_client_address) \/
    (1 <= num_envs /\ (r = Hang \/ r = Raise empty_client_pool))
  | (failed, _) => exists e, failed = Raise e /\ r = Raise e
  end.
Proof.
  cbv zeta. rewrite train_model_unfold, bind_unfold. unfold on_fs.
  pose proof (open_append_terminates (Fs.os_path_join log_dir "train.log")
                (fs w)) as Hopen.
  destruct (Fs.open_append _ (fs w)) as [[[]|e|] fs1]; [|by eexists|done].
  apply supervise_never_returns.
Qed.

(** X2 — Whatever its input, [train_model] only asks for clients, sleeps,
    writes the status of its own experiment, drives its monitor, calls the
    trainer and sends messages.  It never calls [update_client]: no client is
    ever released; and the trainer never receives a client: the list it is
    called with is empty. *)
Theorem train_model_never_releases (fuel : nat) (experiment : Experiments.t)
    (log_dir : Fs.path) (model_runner : runner) (env_id : string)
    (model_params : params) (num_envs : Z) (w : World) :
  exists delta,
    trace (snd (train_model fuel experiment log_dir model_runner env_id
                  model_params num_envs w)) = (trace w ++ delta)%list /\
    forallb (train_model_event experiment) delta = true /\
    client_updates delta = [] /\
    Forall (eq []) (entry_point_calls delta).
Proof.
  pose proof (train_model_appends experiment log_dir model_runner env_id
                model_params fuel num_envs w) as H.
  destruct (train_model _ _ _ _ _ _ _ w) as [r w'].
  destruct H as [(delta & Ht & Hp) _]. exists delta.
  split; [exact Ht|]. split; [exact Hp|].
  by apply (train_model_event_no_update experiment).
Qed.

(** X3 — The reservation leak in general: when the log file opens, at
    least one environment is asked for and a client is free, [train_model]
    reserves the client, sleeps ten seconds and raises [IndexError]; the
    client stays RESERVED for the experiment.  Records and users are as they
    were, and the history has grown by the reservation and the sleep only:
    no status is written, no message is sent and the trainer is not
    called. *)
Theorem train_model_leaks_reservation (fuel : nat) (experiment : Experiments.t)
    (log_dir : Fs.path) (model_runner : runner) (env_id : string)
    (model_params : params) (num_envs : Z) (w : World)
    (address : string) (rows : list ClientPool.t) :
  fst (Fs.open_append (Fs.os_path_join log_dir "train.log") (fs w)) = Ret tt ->
  1 <= num_envs ->
  reserve_first (Experiments.id experiment) (Rosalind.client_pool w)
    = Some (address, rows) ->
  String.eqb address "" = false ->
  let '(r, w') :=
    train_model (S fuel) experiment log_dir model_runner env_id model_params
      num_envs w in
  r = Raise empty_client_pool /\
  Rosalind.client_pool w' = rows /\
  In (ClientPool.Build address RESERVED (Some (Experiments.id experiment)))
    rows /\
  experiments w' = experiments w /\
  users w' = users w /\
  now w' = now w + 10 /\
  uuids_drawn w' = uuids_drawn w /\
  trace w' =
    (trace w ++
     [EvReserveClient address (Experiments.id experiment); EvSleep 10])%list.
Proof.
  intros Hopen Hn Hres Ha.
  assert (Hin : In (ClientPool.Build address RESERVED
                      (Some (Experiments.id experiment))) rows).
  { revert rows Hres.
    induction (Rosalind.client_pool w) as [|c pool IH]; intros rows; [done|].
    cbn [reserve_first]. destruct (is_available c).
    - intros [= <- <-]. by left.
    - destruct (reserve_first _ pool) as [[a rows']|]; [|done].
      intros [= <- <-]. right. by apply IH. }
  rewrite train_model_unfold, bind_unfold. unfold on_fs.
  destruct (Fs.open_append _ (fs w)) as [r0 fs1]. cbn [fst] in Hopen. subst r0.
  rewrite supervise_unfold, bind_unfold.
  destruct (Z.to_nat num_envs) as [|n] eqn:En; [lia|].
  cbn [reserve_clients wait_for_client]. rewrite !bind_unfold.
  unfold find_and_reserve_client at 1. rewrite bind_unfold. unfold get at 1.
  wsimpl. rewrite Hres.
  unfold time_sleep, bind, modify, emit, modify, ret. cbn.
  rewrite Ha. cbn. rewrite <- app_assoc. by repeat split.
Qed.

Lemma train_model_leaks_reservation_witness :
  let '(r, w') :=
    train_model 1 (Scenario.experiment "e1" "a2c" PENDING) ["logs"; "e1"]
      Scenario.ok_runner "MalmoMaze-v0" Scenario.params0 2
      Scenario.pending_world in
  r = Raise empty_client_pool /\
  Rosalind.client_pool w' =
    [ClientPool.Build "127.0.0.1:10000" RESERVED (Some "e1")] /\
  trace w' =
    (trace Scenario.pending_world ++
     [EvReserveClient "127.0.0.1:10000" "e1"; EvSleep 10])%list.
Proof.
  pose proof (train_model_leaks_reservation 0
                (Scenario.experiment "e1" "a2c" PENDING) ["logs"; "e1"]
                Scenario.ok_runner "MalmoMaze-v0" Scenario.params0 2
                Scenario.pending_world "127.0.0.1:10000"
                [ClientPool.Build "127.0.0.1:10000" RESERVED (Some "e1")]
                eq_refl ltac:(lia) eq_refl eq_refl) as H.
  destruct (train_model 1 _ _ _ _ _ 2 Scenario.pending_world) as [r w'].
  destruct H as (Hr & Hpool & _ & _ & _ & _ & _ & Ht). by repeat split.
Defined.

End RunnerTheorems.


(** ** The entry points, whatever their input *)

Module EntryFacts.
Import Rosalind RosalindSpec RunnerSpec RosalindFacts FacadeFacts RunnerFacts.

Lemma same_clients_refl w : same_clients w w.
Proof. by repeat split. Qed.

Lemma same_clients_trans w1 w2 w3 :
  same_clients w1 w2 -> same_clients w2 w3 -> same_clients w1 w3.
Proof. intros (?&?&?) (?&?&?). repeat split; congruence. Qed.

Lemma same_identity_refl e : same_identity e e.
Proof. by repeat split. Qed.

Lemma same_identity_trans e1 e2 e3 :
  same_identity e1 e2 -> same_identity e2 e3 -> same_identity e1 e3.
Proof. intros (?&?&?&?&?) (?&?&?&?&?). repeat split; congruence. Qed.

Lemma same_records_refl w : same_records w w.
Proof.
  unfold same_records. induction (experiments w); constructor;
    [apply same_identity_refl | done].
Qed.

Lemma same_records_eq w w' :
  experiments w' = experiments w -> same_records w w'.
Proof. unfold same_records. intros ->. apply same_records_refl. Qed.

Lemma same_records_trans w1 w2 w3 :
  same_records w1 w2 -> same_records w2 w3 -> same_records w1 w3.
Proof.
  unfold same_records. generalize (experiments w1), (experiments w2), (experiments w3).
  intros l1 l2 l3 H. revert l3.
  induction H as [|x y l1 l2 Hxy H IH]; intros l3 H3; inversion H3; subst;
    constructor; eauto using same_identity_trans.
Qed.

Lemma apply_fields_identity fields e :
  same_identity e (fold_left (fun e f => apply_experiment_field f e) fields e).
Proof.
  revert e. induction fields as [|f fields IH]; intros e; cbn [fold_left].
  - apply same_identity_refl.
  - eapply same_identity_trans; [|apply IH]. by destruct e, f.
Qed.

Lemma updated_experiments_identity i fields rows :
  Forall2 same_identity rows (updated_experiments i fields rows).
Proof.
  unfold updated_experiments. induction rows as [|e rows IH]; cbn [map].
  - constructor.
  - constructor; [|exact IH].
    destruct (String.eqb _ _);
      [apply apply_fields_identity | apply same_identity_refl].
Qed.

Local Hint Resolve same_clients_refl same_clients_trans same_records_refl
  same_records_trans appends_refl appends_trans : core.

(** *** What each collaborator leaves alone *)

Section Primitives.
Variables (R : World -> World -> Prop).
Hypothesis R_trace :
  forall w e, is_enter e = false -> R w (set_trace (trace w ++ [e]) w).
Hypothesis R_fs : forall w x, R w (set_fs x w).
Hypothesis R_uuid : forall w x, R w (set_uuids_drawn x w).
Hypothesis R_refl : forall w, R w w.
Hypothesis R_trans : forall w1 w2 w3, R w1 w2 -> R w2 w3 -> R w1 w3.

Lemma emit_frame e :
  is_enter e = false -> preserves R (fun _ => True) (emit e).
Proof using R_trace. intros He w. unfold emit, modify. auto. Qed.

Lemma on_fs_frame {A} (m : M Fs.node A) : preserves R (fun _ => True) (on_fs m).
Proof using R_fs.
  intros w. unfold on_fs. destruct (m (fs w)) as [[a|e|] fs1]; auto.
Qed.

Lemma uuid4_frame f : preserves R (fun _ => True) (uuid4 f).
Proof using R_uuid. intros w. rewrite uuid4_spec. auto. Qed.

Lemma draw_group_id_frame f g :
  preserves R (fun _ => True) (draw_group_id f g).
Proof using R_uuid R_refl.
  unfold draw_group_id. destruct g as [g|]; [destruct (String.eqb g "")|];
    try apply uuid4_frame. by apply preserves_ret.
Qed.

Lemma requested_timesteps_frame p :
  preserves R (fun _ => True) (requested_timesteps p).
Proof using R_refl.
  intros w. pose proof (requested_timesteps_state p w) as H.
  destruct (requested_timesteps p w) as [[a|e|] w1]; cbn in H; subst w1; auto.
Qed.

Lemma get_experiment_frame i : preserves R (fun _ => True) (get_experiment i).
Proof using R_refl.
  intros w. rewrite get_experiment_spec. destruct (find_experiment _ _); auto.
Qed.

Lemma send_message_frame experiment text :
  preserves R (fun _ => True) (send_message_to_owner experiment text).
Proof using R_trace R_refl.
  intros w. rewrite send_message_to_owner_spec. destruct (find_user _ _); auto.
Qed.

Lemma start_training_process_frame process_start experiment :
  preserves R (fun _ => True) (start_training_process process_start experiment).
Proof using R_trace R_refl.
  intros w. unfold start_training_process.
  destruct (process_start experiment); unfold emit, modify, bind, ret, raise;
    auto.
Qed.

(** The tail [launch], given what [update_experiment] does to [R]. *)
Lemma launch_frame process_start experiment :
  (forall i fields, preserves R (fun _ => True) (update_experiment i fields)) ->
  preserves R (fun _ => True) (launch process_start experiment).
Proof using R_trace R_refl R_trans.
  intros Hupdate. unfold launch.
  eapply preserves_bind; [by auto | |intros pid _].
  { apply preserves_try_except; [by auto | apply start_training_process_frame |].
    intros e. eapply preserves_bind; [by auto | apply send_message_frame |].
    intros _ _. by apply preserves_raise. }
  eapply preserves_bind; [by auto | apply Hupdate |].
  intros _ _. by apply preserves_ret.
Qed.

(** [continue_experiement_with_monitoring] after its first event. *)
Lemma resume_frame train_a2c train_dqn process_start user experiment total :
  (forall i fields, preserves R (fun _ => True) (update_experiment i fields)) ->
  preserves R (fun _ => True)
    (match dict_get (Experiments.model experiment) (_MODELS train_a2c train_dqn) with
     | None =>
       raise (unknown_model (Experiments.model experiment)
                "continue_experiement_with_monitoring" "238")
     | Some _ =>
       log_dir <- on_fs (build_log_dir (Experiments.id experiment)) ;;
       emit (EvCheckpoint log_dir) ;;;
       on_fs (Fs.save_experiment_checkpoint log_dir) ;;;
       update_experiment (Experiments.id experiment)
         (resume_fields user experiment log_dir total) ;;;
       launch process_start
         (with_model_params
            (resumed_params log_dir total
               (Experiments.model_params experiment)) experiment)
     end).
Proof using R_trace R_fs R_refl R_trans.
  intros Hupdate. destruct (dict_get _ _); [|by apply preserves_raise].
  eapply preserves_bind; [by auto | apply on_fs_frame | intros log_dir _].
  eapply preserves_bind; [by auto | by apply emit_frame | intros _ _].
  eapply preserves_bind; [by auto | apply on_fs_frame | intros _ _].
  eapply preserves_bind; [by auto | apply Hupdate | intros _ _].
  by apply launch_frame.
Qed.

Lemma continue_frame train_a2c train_dqn process_start user experiment total :
  (forall w i, R w (set_trace (trace w ++ [EvEnter i]) w)) ->
  (forall i fields, preserves R (fun _ => True) (update_experiment i fields)) ->
  preserves R (fun _ => True)
    (continue_experiement_with_monitoring train_a2c train_dqn process_start
       user experiment total).
Proof using R_trace R_fs R_refl R_trans.
  intros Henter Hupdate w. rewrite continue_unfold. revert w.
  eapply preserves_bind with (Q := fun _ => True); [by auto | | intros _ _].
  { intros w. unfold emit, modify. auto. }
  by apply resume_frame.
Qed.

Lemma group_frame train_a2c train_dqn process_start user group_id total :
  (forall w i, R w (set_trace (trace w ++ [EvEnter i]) w)) ->
  (forall i fields, preserves R (fun _ => True) (update_experiment i fields)) ->
  preserves R (fun _ => True)
    (continue_experiment_group train_a2c train_dqn process_start user group_id
       total).
Proof using R_trace R_fs R_refl R_trans.
  intros Henter Hupdate. unfold continue_experiment_group.
  eapply preserves_bind with (Q := fun _ => True); [by auto | |intros members _].
  { intros w. cbn. auto. }
  apply preserves_for_each; [by auto | by auto |]. intros experiment.
  eapply preserves_bind; [by auto | by apply continue_frame | intros _ _].
  by apply preserves_ret.
Qed.

Lemma run_new_frame train_a2c train_dqn uuid4_value process_start user model
    env_id model_params group_id :
  (forall i fields, preserves R (fun _ => True) (update_experiment i fields)) ->
  (forall i g m v o n l p,
     preserves R (fun _ => True) (create_experiment i g m v o n l p)) ->
  preserves R (fun _ => True)
    (run_new_single_experiment_with_monitoring train_a2c train_dqn uuid4_value
       process_start user model env_id model_params group_id).
Proof using R_trace R_fs R_uuid R_refl R_trans.
  intros Hupdate Hcreate. rewrite run_new_unfold.
  destruct (dict_get _ _); [|by apply preserves_raise].
  eapply preserves_bind; [by auto | apply uuid4_frame | intros i _].
  eapply preserves_bind; [by auto | apply draw_group_id_frame | intros g _].
  eapply preserves_bind; [by auto | apply on_fs_frame | intros log_dir _].
  eapply preserves_bind; [by auto | apply requested_timesteps_frame | intros n _].
  eapply preserves_bind; [by auto | apply Hcreate | intros _ _].
  eapply preserves_bind; [by auto | apply get_experiment_frame | intros e _].
  by apply launch_frame.
Qed.

End Primitives.

Lemma update_experiment_clients i fields :
  preserves same_clients (fun _ => True) (update_experiment i fields).
Proof.
  intros w. destruct (find_experiment i (experiments w)) as [e|] eqn:H.
  - by rewrite (update_experiment_found _ _ _ _ H).
  - by rewrite (update_experiment_missing _ _ _ H).
Qed.

Lemma create_experiment_clients i g m v o n l p :
  preserves same_clients (fun _ => True) (create_experiment i g m v o n l p).
Proof.
  intros w. rewrite create_experiment_spec.
  by destruct n, (find_experiment i (experiments w)).
Qed.

Lemma update_experiment_records i fields :
  preserves same_records (fun _ => True) (update_experiment i fields).
Proof.
  intros w. destruct (find_experiment i (experiments w)) as [e|] eqn:H.
  - rewrite (update_experiment_found _ _ _ _ H). split; [|done].
    apply updated_experiments_identity.
  - rewrite (update_experiment_missing _ _ _ H). auto.
Qed.

Lemma update_experiment_not_enter i fields :
  preserves (appends (fun e => negb (is_enter e))) (fun _ => True)
    (update_experiment i fields).
Proof. by apply update_experiment_appends. Qed.

Lemma appends_set_trace_not_enter w w' :
  trace w' = trace w -> appends (fun e => negb (is_enter e)) w w'.
Proof. intros H. exists []. by rewrite H, app_nil_r. Qed.

End EntryFacts.


Module EntryTheorems.
Import Rosalind RosalindSpec RunnerSpec RosalindFacts FacadeFacts RunnerFacts
  EntryFacts.

(** X4 — None of the three entry points touches the client pool, the clock
    or the users: clients are reserved by the worker alone. *)
Theorem entry_points_leave_clients_alone
    (train_a2c train_dqn : runner) (uuid4_value : nat -> string)
    (process_start : Experiments.t -> exn + Z) :
  (forall user model env_id model_params group_id w,
     same_clients w
       (snd (run_new_single_experiment_with_monitoring train_a2c train_dqn
               uuid4_value process_start user model env_id model_params
               group_id w))) /\
  (forall user experiment total_timesteps w,
     same_clients w
       (snd (continue_experiement_with_monitoring train_a2c train_dqn
               process_start user experiment total_timesteps w))) /\
  (forall user group_id total_timesteps w,
     same_clients w
       (snd (continue_experiment_group train_a2c train_dqn process_start user
               group_id total_timesteps w))).
Proof.
  split; [|split].
  - intros user model env_id model_params group_id w.
    pose proof (run_new_frame same_clients ltac:(done) ltac:(done) ltac:(done)
                  same_clients_refl same_clients_trans train_a2c train_dqn
                  uuid4_value process_start user model env_id model_params
                  group_id update_experiment_clients create_experiment_clients w)
      as H.
    destruct (run_new_single_experiment_with_monitoring _ _ _ _ _ _ _ _ _ w).
    by destruct H.
  - intros user experiment total_timesteps w.
    pose proof (continue_frame same_clients ltac:(done) ltac:(done)
                  same_clients_refl same_clients_trans train_a2c train_dqn
                  process_start user experiment total_timesteps ltac:(done)
                  update_experiment_clients w) as H.
    destruct (continue_experiement_with_monitoring _ _ _ _ _ _ w).
    by destruct H.
  - intros user group_id total_timesteps w.
    pose proof (group_frame same_clients ltac:(done) ltac:(done)
                  same_clients_refl same_clients_trans train_a2c train_dqn
                  process_start user group_id total_timesteps ltac:(done)
                  update_experiment_clients w) as H.
    destruct (continue_experiment_group _ _ _ _ _ _ w).
    by destruct H.
Qed.

(** X5 — Resuming creates and deletes no record, and leaves the id, the
    group, the model kind, the environment and the log directory of every
    record as they were, however the resume ends. *)
Theorem resume_keeps_record_identity
    (train_a2c train_dqn : runner) (process_start : Experiments.t -> exn + Z)
    (user : Users.t) (total_timesteps : Z) (w : World) :
  (forall experiment,
     Forall2 same_identity (experiments w)
       (experiments
          (snd (continue_experiement_with_monitoring train_a2c train_dqn
                  process_start user experiment total_timesteps w)))) /\
  (forall group_id,
     Forall2 same_identity (experiments w)
       (experiments
          (snd (continue_experiment_group train_a2c train_dqn process_start
                  user group_id total_timesteps w)))).
Proof.
  split.
  - intros experiment.
    pose proof (continue_frame same_records ltac:(intros; by apply same_records_eq)
                  ltac:(intros; by apply same_records_eq)
                  same_records_refl same_records_trans train_a2c train_dqn
                  process_start user experiment total_timesteps
                  ltac:(intros; by apply same_records_eq)
                  update_experiment_records w) as H.
    destruct (continue_experiement_with_monitoring _ _ _ _ _ _ w).
    by destruct H.
  - intros group_id.
    pose proof (group_frame same_records ltac:(intros; by apply same_records_eq)
                  ltac:(intros; by apply same_records_eq)
                  same_records_refl same_records_trans train_a2c train_dqn
                  process_start user group_id total_timesteps
                  ltac:(intros; by apply same_records_eq)
                  update_experiment_records w) as H.
    destruct (continue_experiment_group _ _ _ _ _ _ w).
    by destruct H.
Qed.

Lemma entered_app tr1 tr2 : entered (tr1 ++ tr2) = (entered tr1 ++ entered tr2)%list.
Proof. apply flat_map_app. Qed.

Lemma entered_not_enter delta :
  forallb (fun e => negb (is_enter e)) delta = true -> entered delta = [].
Proof.
  induction delta as [|e delta IH]; [done|]. cbn [forallb].
  intros [He Hd]%andb_true_iff. unfold entered in *. cbn [flat_map].
  rewrite (IH Hd). by destruct e.
Qed.

Lemma continue_enters_once train_a2c train_dqn process_start user experiment
    total_timesteps w :
  exists delta,
    trace (snd (continue_experiement_with_monitoring train_a2c train_dqn
                  process_start user experiment total_timesteps w)) =
      (trace w ++ EvEnter (Experiments.id experiment) :: delta)%list /\
    entered delta = [].
Proof.
  rewrite continue_unfold, bind_unfold. unfold emit at 1, modify.
  match goal with
  | |- context [match ?d with Some _ => ?k | None => ?n end ?w0] =>
    pose proof (resume_frame (appends (fun e => negb (is_enter e)))
                  ltac:(intros w1 e He; exists [e]; cbn; by rewrite He)
                  ltac:(intros; by apply appends_set_trace_not_enter)
                  (appends_refl _) (appends_trans _)
                  train_a2c train_dqn process_start user experiment
                  total_timesteps update_experiment_not_enter w0) as H;
      destruct (match d with Some _ => k | None => n end w0) as [r w']
  end.
  destruct H as [(delta & Ht & Hp) _]. exists delta.
  cbn [snd]. rewrite Ht. cbn [trace set_trace]. rewrite <- app_assoc.
  split; [done | by apply entered_not_enter].
Qed.

Lemma relaunch_all_entered train_a2c train_dqn process_start user
    total_timesteps members :
  forall w,
    let '(r, w') :=
      relaunch_all train_a2c train_dqn process_start user total_timesteps
        members w in
    exists delta k,
      trace w' = (trace w ++ delta)%list /\
      entered delta = map Experiments.id (take k members) /\
      match r with Ret _ => k = length members | _ => (0 < k)%nat end.
Proof.
  induction members as [|e members IH]; intros w.
  - exists [], 0%nat. by rewrite app_nil_r.
  - unfold relaunch_all. cbn [for_each]. rewrite !bind_unfold.
    destruct (continue_enters_once train_a2c train_dqn process_start user e
                total_timesteps w) as (d1 & Ht1 & He1).
    destruct (continue_experiement_with_monitoring _ _ _ _ _ _ w)
      as [[e'|x|] w1]; cbn [snd] in Ht1.
    + unfold ret at 1. specialize (IH w1). unfold relaunch_all in IH.
      destruct (for_each members _ w1) as [r w'].
      destruct IH as (d2 & k & Ht2 & He2 & Hk).
      exists (EvEnter (Experiments.id e) :: d1 ++ d2)%list, (S k).
      split; [by rewrite Ht2, Ht1, <- app_assoc|]. split.
      * change (EvEnter (Experiments.id e) :: d1 ++ d2)%list
          with ([EvEnter (Experiments.id e)] ++ d1 ++ d2)%list.
        rewrite !entered_app, He1, He2. done.
      * destruct r; [by rewrite Hk | lia | lia].
    + exists (EvEnter (Experiments.id e) :: d1), 1%nat.
      split; [done|]. split; [|lia].
      change (EvEnter (Experiments.id e) :: d1)
        with ([EvEnter (Experiments.id e)] ++ d1)%list.
      rewrite entered_app, He1. cbn. by rewrite take_0.
    + exists (EvEnter (Experiments.id e) :: d1), 1%nat.
      split; [done|]. split; [|lia].
      change (EvEnter (Experiments.id e) :: d1)
        with ([EvEnter (Experiments.id e)] ++ d1)%list.
      rewrite entered_app, He1. cbn. by rewrite take_0.
Qed.

(** X6 — [continue_experiment_group] enters the members of the group in
    retrieval order, each at most once, and no other experiment: the
    experiments entered are the first [k] members; all of them when the call
    returns, and at least one when it does not. *)
Theorem continue_group_enters_prefix
    (train_a2c train_dqn : runner) (process_start : Experiments.t -> exn + Z)
    (user : Users.t) (group_id : string) (total_timesteps : Z) (w : World) :
  let '(r, w') :=
    continue_experiment_group train_a2c train_dqn process_start user group_id
      total_timesteps w in
  exists delta k,
    trace w' = (trace w ++ delta)%list /\
    entered delta = map Experiments.id (take k (group_members group_id w)) /\
    match r with
    | Ret _ => k = length (group_members group_id w)
    | _ => (0 < k)%nat
    end.
Proof.
  rewrite continue_experiment_group_unfold.
  apply relaunch_all_entered.
Qed.

Lemma updated_experiments_absent i fields rows :
  find_experiment i rows = None -> updated_experiments i fields rows = rows.
Proof.
  unfold find_experiment, updated_experiments.
  induction rows as [|e rows IH]; cbn [find map]; [done|].
  destruct (String.eqb (Experiments.id e) i); [done|].
  intros H. by rewrite (IH H).
Qed.

Lemma find_experiment_new i rows e :
  find_experiment i rows = None -> Experiments.id e = i ->
  find_experiment i (rows ++ [e]) = Some e.
Proof.
  unfold find_experiment. intros Hnone Hid.
  induction rows as [|e0 rows IH]; cbn [find app] in *.
  - by rewrite Hid, String.eqb_refl.
  - destruct (String.eqb (Experiments.id e0) i); [done|]. by apply IH.
Qed.

(** X7 — A new experiment with a registered model kind, an integer
    [total_timesteps] and a UUID that is not yet taken: once the log
    directory is made, the record is created in state PENDING with no pid.
    When the process starts, the pid is written onto the record and the call
    returns; when the start raises, the PENDING record stays behind, and
    the caller gets the exception of the start, or the [NotFound] of
    [get_user] when the owner is no known user. *)
Theorem run_new_creates_pending_record
    (train_a2c train_dqn : runner) (uuid4_value : nat -> string)
    (process_start : Experiments.t -> exn + Z)
    (user model env_id : string) (model_params : params)
    (group_id : option string) (w : World)
    (registered : runner) (n : Z) (log_dir : Fs.path) (fs1 : Fs.node) :
  dict_get model (_MODELS train_a2c train_dqn) = Some registered ->
  model_params !! "total_timesteps" = Some (PInt n) ->
  find_experiment (uuid4_value (uuids_drawn w)) (experiments w) = None ->
  build_log_dir (uuid4_value (uuids_drawn w)) (fs w) = (Ret log_dir, fs1) ->
  let record :=
    new_record (uuid4_value (uuids_drawn w))
      (chosen_group_id uuid4_value group_id w) model env_id user n log_dir
      model_params in
  let '(r, w') :=
    run_new_single_experiment_with_monitoring train_a2c train_dqn uuid4_value
      process_start user model env_id model_params group_id w in
  fs w' = fs1 /\
  match process_start record with
  | inr pid =>
    (exists e, r = Ret e /\ Experiments.id e = uuid4_value (uuids_drawn w)) /\
    experiments w' =
      (experiments w ++ [apply_experiment_field (Set_pid pid) record])%list
  | inl x =>
    r = Raise (match find_user user (users w) with
               | Some _ => x
               | None => db_error NotFound "get_user"
               end) /\
    experiments w' = (experiments w ++ [record])%list
  end.
Proof.
  intros Hmodel Hparams Hfresh Hbuild record. subst record. unfold new_record.
  rewrite run_new_unfold, Hmodel.
  rewrite bind_unfold, uuid4_spec, bind_unfold.
  set (i := uuid4_value (uuids_drawn w)) in *.
  assert (Hgroup :
    draw_group_id uuid4_value group_id (set_uuids_drawn (S (uuids_drawn w)) w) =
    (Ret (chosen_group_id uuid4_value group_id w),
     set_uuids_drawn
       (match group_id with
        | Some g => if String.eqb g "" then S (S (uuids_drawn w)) else S (uuids_drawn w)
        | None => S (S (uuids_drawn w))
        end) w)).
  { unfold draw_group_id, chosen_group_id.
    destruct group_id as [g|]; [destruct (String.eqb g "")|]; done. }
  rewrite Hgroup. clear Hgroup.
  rewrite bind_unfold. unfold on_fs at 1. wsimpl. rewrite Hbuild.
  rewrite bind_unfold. unfold requested_timesteps at 1. rewrite Hparams.
  unfold ret at 1.
  rewrite bind_unfold, create_experiment_spec. wsimpl. rewrite Hfresh.
  rewrite bind_unfold, get_experiment_spec. wsimpl.
  erewrite (find_experiment_new i (experiments w)) by (exact Hfresh || reflexivity).
  unfold launch. rewrite bind_unfold. unfold try_except, start_training_process.
  destruct (process_start _) as [x|pid].
  - unfold raise at 1. rewrite bind_unfold, send_message_to_owner_spec.
    destruct (find_user _ _); unfold raise; cbv beta iota zeta; by wsimpl.
  - unfold emit, modify. rewrite !bind_unfold. unfold ret at 1.
    rewrite bind_unfold.
    erewrite update_experiment_found
      by (wsimpl; apply (find_experiment_new i); [exact Hfresh | reflexivity]).
    unfold ret. wsimpl. cbn [Experiments.id]. split; [done|]. split.
    + by eexists.
    + unfold updated_experiments. rewrite map_app.
      fold (updated_experiments i [Set_pid pid] (experiments w)).
      rewrite (updated_experiments_absent _ _ _ Hfresh). cbn [map Experiments.id].
      by rewrite String.eqb_refl.
Qed.

Lemma run_new_creates_pending_record_witness :
  let w' :=
    snd (run_new_single_experiment_with_monitoring Scenario.ok_runner
           Scenario.ok_runner Scenario.uuids Scenario.spawn_ok "alice" "a2c"
           "MalmoMaze-v0" Scenario.params0 (Some "g1") Scenario.pending_world) in
  experiments w' =
    (experiments Scenario.pending_world ++
     [Experiments.Build "uuid-0" "g1" "a2c" "MalmoMaze-v0" "alice" 1000
        ["logs"; "uuid-0"] Scenario.params0 (Some 4242) PENDING None])%list.
Proof.
  pose proof (run_new_creates_pending_record Scenario.ok_runner
                Scenario.ok_runner Scenario.uuids Scenario.spawn_ok "alice"
                "a2c" "MalmoMaze-v0" Scenario.params0 (Some "g1")
                Scenario.pending_world Scenario.ok_runner 1000
                ["logs"; "uuid-0"]
                (snd (build_log_dir "uuid-0" Scenario.files))
                eq_refl eq_refl eq_refl eq_refl) as H.
  cbv zeta in *.
  destruct (run_new_single_experiment_with_monitoring _ _ _ _ _ _ _ _ _ _)
    as [r w'].
  destruct H as [_ H]. cbn in H. destruct H as [_ H]. exact H.
Defined.

(** X8 — A resume hands the experiment over: once the record is updated its
    owner is the resuming user, whoever owned it before, and the parameters
    persisted are those of the experiment object passed in, with
    [total_timesteps] set to the extra steps alone and every key other than
    [load_path] and [total_timesteps] kept. *)
Theorem continue_hands_experiment_over
    (train_a2c train_dqn : runner) (process_start : Experiments.t -> exn + Z)
    (user : Users.t) (experiment stored : Experiments.t) (total_timesteps : Z)
    (w : World) (registered : runner) (log_dir : Fs.path) (fs1 fs2 : Fs.node) :
  dict_get (Experiments.model experiment) (_MODELS train_a2c train_dqn)
    = Some registered ->
  find_experiment (Experiments.id experiment) (experiments w) = Some stored ->
  build_log_dir (Experiments.id experiment) (fs w) = (Ret log_dir, fs1) ->
  Fs.save_experiment_checkpoint log_dir fs1 = (Ret tt, fs2) ->
  exists stored',
    find_experiment (Experiments.id experiment)
      (experiments
         (snd (continue_experiement_with_monitoring train_a2c train_dqn
                 process_start user experiment total_timesteps w)))
      = Some stored' /\
    Experiments.owner stored' = Users.id user /\
    Experiments.model_params stored' !! "total_timesteps"
      = Some (PInt total_timesteps) /\
    forall key, key <> "load_path" -> key <> "total_timesteps" ->
      Experiments.model_params stored' !! key =
      Experiments.model_params experiment !! key.
Proof.
  intros Hmodel Hfind Hbuild Hsave.
  pose proof (continue_resumes train_a2c train_dqn process_start user experiment
                total_timesteps w registered stored log_dir fs1 fs2
                Hmodel Hfind Hbuild Hsave) as H.
  cbv zeta in H.
  destruct (continue_experiement_with_monitoring _ _ _ _ _ _ w) as [r w'].
  destruct H as (_ & (stored' & Hfind' & Hsame) & _).
  exists stored'. split; [exact Hfind'|].
  destruct Hsame as (_ & _ & _ & Hparams & Howner).
  rewrite Howner, Hparams. destruct stored. cbn.
  split; [done|]. unfold resumed_params. split.
  - apply lookup_insert_eq.
  - intros key H1 H2. by rewrite !lookup_insert_ne.
Qed.

Lemma continue_hands_experiment_over_witness :
  exists stored',
    find_experiment "e1"
      (experiments
         (snd (continue_experiement_with_monitoring Scenario.ok_runner
                 Scenario.ok_runner Scenario.spawn_ok (Users.Build "bob" 1002)
                 (Scenario.experiment "e1" "a2c" COMPLETED) 500
                 Scenario.completed_world)))
      = Some stored' /\
    Experiments.owner stored' = "bob" /\
    Experiments.model_params stored' !! "total_timesteps" = Some (PInt 500).
Proof.
  destruct (continue_hands_experiment_over Scenario.ok_runner Scenario.ok_runner
              Scenario.spawn_ok (Users.Build "bob" 1002)
              (Scenario.experiment "e1" "a2c" COMPLETED)
              (Scenario.experiment "e1" "a2c" COMPLETED) 500
              Scenario.completed_world Scenario.ok_runner ["logs"; "e1"]
              Scenario.files
              (snd (Fs.save_experiment_checkpoint ["logs"; "e1"] Scenario.files))
              eq_refl eq_refl eq_refl eq_refl)
    as (stored' & Hfind & Howner & Hparams & _).
  by exists stored'.
Defined.

End EntryTheorems.


Module LogDirTheorems.
Import Fs Rosalind RunnerSpec FsFacts.

Lemma lookup_in_dir (es : dir) name x :
  lookup es name = Some x -> In (name, x) es.
Proof.
  induction es as [|[n y] es IH]; cbn [lookup]; [done|].
  destruct (String.eqb_spec n name) as [->|Hne].
  - intros [= ->]. by left.
  - intros H. right. by apply IH.
Qed.

Lemma lookup_listed (es : dir) name :
  In name (map fst es) -> exists x, lookup es name = Some x.
Proof.
  induction es as [|[n y] es IH]; cbn [lookup map fst]; [done|].
  intros [->|Hin].
  - rewrite String.eqb_refl. by eexists.
  - destruct (String.eqb n name); [by eexists | by apply IH].
Qed.

Lemma str_split_plain s :
  has_separator s = false -> str_split "/"%char s = [s].
Proof.
  induction s as [|c s IH]; [done|]. cbn [has_separator str_split].
  destruct (Ascii.eqb c "/"); [done|]. cbn [orb]. intros H. by rewrite (IH H).
Qed.

Lemma build_log_dir_unfold experiment_id :
  has_separator experiment_id = false ->
  build_log_dir experiment_id =
  (ensure_dir ["logs"] ;;;
   ensure_dir ["logs"; experiment_id] ;;;
   ret ["logs"; experiment_id]).
Proof.
  intros H. unfold build_log_dir, os_path_join_name. cbv zeta.
  by rewrite (str_split_plain _ H).
Qed.

Lemma ensure_dir_spec parent name fs :
  ensure_dir (os_path_join parent name) fs =
  match resolve parent fs with
  | Some (Dir es) =>
    match lookup es name with
    | Some (Dir _) => (Ret tt, fs)
    | Some (File _) => (Raise (os_error FileExistsError "mkdir"), fs)
    | None => (Ret tt, graft parent (Dir (put es name (Dir []))) fs)
    end
  | Some (File _) => (Raise (os_error NotADirectoryError "mkdir"), fs)
  | None => (Raise (os_error FileNotFoundError "mkdir"), fs)
  end.
Proof.
  unfold ensure_dir. rewrite bind_unfold. unfold os_path_isdir.
  rewrite resolve_join. unfold os_mkdir, set_entry. rewrite split_last_join.
  destruct (resolve parent fs) as [[c|es]|] eqn:Hp; cbn; rewrite ?Hp; try done.
  destruct (lookup es name) as [[c|sub]|] eqn:Hn; cbn; rewrite ?Hp, ?Hn; done.
Qed.

Lemma ensure_logs fs :
  ensure_dir ["logs"] fs =
  match fs with
  | Dir es =>
    match lookup es "logs" with
    | Some (Dir _) => (Ret tt, fs)
    | Some (File _) => (Raise (os_error FileExistsError "mkdir"), fs)
    | None => (Ret tt, Dir (put es "logs" (Dir [])))
    end
  | File _ => (Raise (os_error NotADirectoryError "mkdir"), fs)
  end.
Proof.
  change ["logs"] with (os_path_join [] "logs"). rewrite ensure_dir_spec.
  by destruct fs.
Qed.

Lemma ensure_log_dir experiment_id fs :
  ensure_dir ["logs"; experiment_id] fs =
  match resolve ["logs"] fs with
  | Some (Dir es) =>
    match lookup es experiment_id with
    | Some (Dir _) => (Ret tt, fs)
    | Some (File _) => (Raise (os_error FileExistsError "mkdir"), fs)
    | None => (Ret tt, graft ["logs"] (Dir (put es experiment_id (Dir []))) fs)
    end
  | Some (File _) => (Raise (os_error NotADirectoryError "mkdir"), fs)
  | None => (Raise (os_error FileNotFoundError "mkdir"), fs)
  end.
Proof.
  change ["logs"; experiment_id] with (os_path_join ["logs"] experiment_id).
  apply ensure_dir_spec.
Qed.

(** X9 — For an experiment id that is one path component, [build_log_dir]
    answers [logs/<id>] and makes what is missing of it: when it returns,
    the log directory is a directory, a second call returns the same path
    and changes nothing, and a log directory that was there already is left
    as it was; when it raises, because the package directory, [logs] or
    [logs/<id>] is a regular file, nothing has changed. *)
Theorem build_log_dir_makes_directory_once (experiment_id : string)
    (fs : node) :
  plain_name experiment_id = true ->
  let '(r, fs1) := build_log_dir experiment_id fs in
  match r with
  | Ret log_dir =>
    log_dir = ["logs"; experiment_id] /\
    (exists es, resolve log_dir fs1 = Some (Dir es)) /\
    build_log_dir experiment_id fs1 = (Ret log_dir, fs1) /\
    match resolve ["logs"; experiment_id] fs with
    | Some (Dir _) => fs1 = fs
    | _ => True
    end
  | Raise e => fs1 = fs
  | Hang => False
  end.
Proof.
  intros Hplain.
  assert (Hsep : has_separator experiment_id = false).
  { unfold plain_name in Hplain. apply andb_true_iff in Hplain as [_ H].
    by apply negb_true_iff in H. }
  rewrite !(build_log_dir_unfold _ Hsep), bind_unfold, ensure_logs.
  destruct fs as [c|es]; [done|].
  destruct (lookup es "logs") as [[c|logs]|] eqn:Hlogs; [done| |].
  - rewrite bind_unfold, ensure_log_dir. cbn [resolve]. rewrite Hlogs.
    destruct (lookup logs experiment_id) as [[c|sub]|] eqn:Hid; [done| |].
    + unfold ret. split; [done|]. cbn [resolve]. rewrite Hlogs, Hid.
      split; [by eauto|]. split; [|done].
      rewrite bind_unfold, ensure_logs, Hlogs, bind_unfold, ensure_log_dir.
      cbn [resolve]. by rewrite Hlogs, Hid.
    + unfold ret. cbn [graft resolve]. rewrite Hlogs.
      split; [done|]. rewrite lookup_put_eq, lookup_put_eq.
      split; [by eauto|]. split; [|done].
      rewrite bind_unfold, ensure_logs, lookup_put_eq, bind_unfold, ensure_log_dir.
      cbn [resolve]. by rewrite !lookup_put_eq.
  - rewrite bind_unfold, ensure_log_dir.
    cbn [resolve]. rewrite lookup_put_eq. cbn [lookup graft].
    rewrite lookup_put_eq. unfold ret. split; [done|].
    cbn [resolve]. rewrite !lookup_put_eq. cbn [lookup]. rewrite ?String.eqb_refl.
    split; [by eauto|]. split; [|by rewrite Hlogs].
    rewrite bind_unfold, ensure_logs, lookup_put_eq, bind_unfold, ensure_log_dir.
    cbn [resolve]. rewrite !lookup_put_eq. cbn [lookup].
    by rewrite ?String.eqb_refl.
Qed.

Lemma build_log_dir_makes_directory_once_witness :
  plain_name "e7" = true /\
  let '(r, fs1) := build_log_dir "e7" Scenario.files in
  r = Ret ["logs"; "e7"] /\
  resolve ["logs"; "e7"] fs1 = Some (Dir []) /\
  build_log_dir "e7" fs1 = (Ret ["logs"; "e7"], fs1).
Proof.
  split; [reflexivity|].
  pose proof (build_log_dir_makes_directory_once "e7" Scenario.files eq_refl)
    as H.
  destruct (build_log_dir "e7" Scenario.files) as [r fs1] eqn:Hrun.
  vm_compute in Hrun. injection Hrun as <- <-.
  destruct H as (_ & _ & Hidem & _).
  split; [reflexivity|]. split; [reflexivity | exact Hidem].
Defined.

(** X10 — [copy_files] copies regular files only and does not look at its
    destination otherwise: from a source directory whose entries are all
    directories (or that is empty) it returns and changes nothing, whatever
    the destination is, even one that does not exist. *)
Theorem copy_files_skips_directories (src dst : path) (fs : node) (es : dir) :
  resolve src fs = Some (Dir es) ->
  forallb (fun entry => is_dir (snd entry)) es = true ->
  copy_files src dst fs = (Ret tt, fs).
Proof.
  intros Hsrc Hdirs.
  unfold copy_files. rewrite bind_unfold. unfold os_listdir. rewrite Hsrc.
  assert (Hall : forall item, In item (map fst es) ->
                   exists sub, lookup es item = Some (Dir sub)).
  { intros item Hin. destruct (lookup_listed es item Hin) as [x Hx].
    apply lookup_in_dir in Hx as Hin'.
    rewrite forallb_forall in Hdirs. specialize (Hdirs _ Hin'). cbn in Hdirs.
    destruct x as [c|sub]; [done|]. by exists sub. }
  clear Hdirs. revert Hall. generalize (map fst es). intros items.
  induction items as [|item items IH]; intros Hall; [done|].
  cbn [for_each]. rewrite !bind_unfold. unfold os_path_isdir at 1.
  rewrite resolve_join, Hsrc.
  destruct (Hall item) as [sub Hsub]; [by left|]. rewrite Hsub. cbn.
  apply IH. intros item' Hin. apply Hall. by right.
Qed.

Lemma copy_files_skips_directories_witness :
  copy_files ["logs"] ["backup"] Scenario.files = (Ret tt, Scenario.files).
Proof.
  apply (copy_files_skips_directories ["logs"] ["backup"] Scenario.files
           [Scenario.log_tree "e1"; Scenario.log_tree "e2"; Scenario.log_tree "e3"]);
    reflexivity.
Defined.

End LogDirTheorems.


(** ** More about the Malmo environment *)

Module MalmoFrames.
Import Malmo MalmoSpec MalmoMore.

Section Frames.
Context {X : Externals}.
Variable R : MalmoEnvironment -> MalmoEnvironment -> Prop.
Hypothesis R_refl : forall s, R s s.
Hypothesis R_trans : forall s1 s2 s3, R s1 s2 -> R s2 s3 -> R s1 s3.
Hypothesis R_host : forall s h, R s (set_agent_host h s).
Hypothesis R_note :
  forall s e, is_command e = false -> R s (set_journal (journal s ++ [e]) s).
Hypothesis R_image : forall s x, R s (set_last_image x s).
Hypothesis R_observations : forall s x, R s (set_previous_observations x s).

Local Hint Resolve R_refl R_trans R_host R_note R_image R_observations : core.

Lemma note_frame e :
  is_command e = false -> preserves R (fun _ => True) (note e).
Proof using R_note. intros He s. unfold note, modify. auto. Qed.

Lemma lift_exn_frame {A} (r : exn + A) : preserves R (fun _ => True) (lift_exn r).
Proof using R_refl. intros s. destruct r; cbn; auto. Qed.

Lemma py_assert_frame b line fn :
  preserves R (fun _ => True) (py_assert b line fn).
Proof using R_refl. intros s. destruct b; cbn; auto. Qed.

Lemma py_last_frame {A} line fn (xs : list A) :
  preserves R (fun _ => True) (py_last line fn xs).
Proof using R_refl. intros s. unfold py_last. destruct (last xs); cbn; auto. Qed.

Lemma time_sleep_frame seconds :
  preserves R (fun _ => True) (time_sleep seconds).
Proof using R_host R_note R_trans.
  unfold time_sleep.
  eapply preserves_bind; [by auto | by apply preserves_modify | intros _ _].
  by apply note_frame.
Qed.

Lemma peek_frame : preserves R (fun _ => True) agent_peekWorldState.
Proof using R_note R_refl R_trans.
  unfold agent_peekWorldState.
  eapply preserves_bind;
    [by auto | by apply preserves_get with (P := fun _ => True) | intros s _].
  eapply preserves_bind; [by auto | by apply note_frame | intros _ _].
  by apply preserves_ret.
Qed.

Lemma get_frame : preserves R (fun _ => True) agent_getWorldState.
Proof using R_host R_note R_refl R_trans.
  unfold agent_getWorldState.
  eapply preserves_bind;
    [by auto | by apply preserves_get with (P := fun _ => True) | intros s _].
  destruct (getWorldState (agent_host s)) as [ws h].
  eapply preserves_bind; [by auto | by apply preserves_modify | intros _ _].
  eapply preserves_bind; [by auto | by apply note_frame | intros _ _].
  by apply preserves_ret.
Qed.

Lemma get_world_state_frame fuel ignore_rewards :
  preserves R (fun _ => True) (_get_world_state fuel ignore_rewards).
Proof using R_host R_note R_refl R_trans.
  induction fuel as [|fuel IH]; cbn [_get_world_state].
  - by apply preserves_hang.
  - eapply preserves_bind;
      [by auto | by apply preserves_get with (P := fun _ => True) | intros s _].
    eapply preserves_bind; [by auto | apply time_sleep_frame | intros _ _].
    eapply preserves_bind; [by auto | apply peek_frame | intros ws _].
    destruct (_ || _); [apply get_frame | apply IH].
Qed.

Lemma peek_valid_frame fuel :
  preserves R (fun _ => True) (_peek_valid_world_state fuel).
Proof using R_host R_note R_refl R_trans.
  induction fuel as [|fuel IH]; cbn [_peek_valid_world_state].
  - by apply preserves_hang.
  - eapply preserves_bind;
      [by auto | by apply preserves_get with (P := fun _ => True) | intros s _].
    eapply preserves_bind; [by auto | apply time_sleep_frame | intros _ _].
    eapply preserves_bind; [by auto | apply peek_frame | intros ws _].
    destruct (_ || _); [by apply preserves_ret | apply IH].
Qed.

Lemma get_video_frame_frame ws :
  preserves R (fun _ => True) (_get_video_frame ws).
Proof using R_image R_refl R_trans.
  unfold _get_video_frame. destruct (0 <? _).
  - eapply preserves_bind; [by auto | apply py_assert_frame | intros _ _].
    eapply preserves_bind; [by auto | apply py_last_frame | intros f _].
    eapply preserves_bind; [by auto | apply lift_exn_frame | intros image _].
    eapply preserves_bind; [by auto | by apply preserves_modify | intros _ _].
    by apply preserves_ret.
  - eapply preserves_bind;
      [by auto | by apply preserves_get with (P := fun _ => True) | intros s _].
    by apply preserves_ret.
Qed.

Lemma get_observation_frame ws :
  preserves R (fun _ => True) (_get_observation ws).
Proof using R_observations R_refl R_trans.
  unfold _get_observation. destruct (_ && _).
  - eapply preserves_bind; [by auto | apply py_assert_frame | intros _ _].
    eapply preserves_bind; [by auto | apply py_last_frame | intros f _].
    eapply preserves_bind; [by auto | apply lift_exn_frame | intros o _].
    eapply preserves_bind; [by auto | by apply preserves_modify | intros _ _].
    by apply preserves_ret.
  - eapply preserves_bind;
      [by auto | by apply preserves_get with (P := fun _ => True) | intros s _].
    by apply preserves_ret.
Qed.

Lemma start_mission_attempt_frame :
  preserves R (fun _ => True) agent_startMission.
Proof using R_host R_note R_refl R_trans.
  unfold agent_startMission.
  eapply preserves_bind;
    [by auto | by apply preserves_get with (P := fun _ => True) | intros s _].
  destruct (mission_spec s) as [spec|]; [|by apply preserves_raise].
  destruct (startMission spec (client_pool s) (agent_host s)) as [r h].
  eapply preserves_bind; [by auto | by apply preserves_modify | intros _ _].
  eapply preserves_bind; [by auto | by apply note_frame | intros _ _].
  by apply preserves_ret.
Qed.

Lemma start_mission_frame retries :
  preserves R (fun _ => True) (start_mission retries).
Proof using R_host R_note R_refl R_trans.
  induction retries as [|retry retries IH]; cbn [start_mission].
  - by apply preserves_ret.
  - eapply preserves_bind;
      [by auto | apply start_mission_attempt_frame | intros r _].
    destruct r as [msg|]; [|by apply preserves_ret].
    eapply preserves_bind;
      [by auto | by apply preserves_get with (P := fun _ => True) | intros s _].
    destruct (retry =? max_retries s); [by apply preserves_raise|].
    eapply preserves_bind; [by auto | apply time_sleep_frame | intros _ _].
    apply IH.
Qed.

Lemma wait_for_mission_frame fuel :
  forall ws, preserves R (fun _ => True) (wait_for_mission fuel ws).
Proof using R_host R_note R_refl R_trans.
  induction fuel as [|fuel IH]; intros ws; cbn [wait_for_mission];
    destruct (has_mission_begun ws); try by apply preserves_ret.
  - by apply preserves_hang.
  - eapply preserves_bind; [by auto | apply time_sleep_frame | intros _ _].
    eapply preserves_bind; [by auto | apply get_frame | intros ws' _].
    apply IH.
Qed.

(** What the rest depends on: the replay buffer, the commands and the
    counter of actions. *)
Section WithBuffer.
Hypothesis R_update :
  forall o, preserves R (fun _ => True)
              (_update_replay_buffer_and_get_observation o).

Lemma step_finish_frame ws : preserves R (fun _ => True) (step_finish ws).
Proof using R_update R_image R_observations R_refl R_trans.
  unfold step_finish.
  eapply preserves_bind; [by auto | | intros _ _].
  { apply preserves_for_each; [by auto | by auto |]. intros text.
    destruct (ET_fromstring text); [by apply preserves_raise | by apply preserves_ret]. }
  eapply preserves_bind; [by auto | apply get_observation_frame | intros o _].
  eapply preserves_bind;
    [by auto | by apply preserves_get with (P := fun _ => True) | intros s _].
  eapply preserves_bind with (Q := fun _ => True); [by auto | | intros p _].
  - destruct (parse_world_state s); [apply lift_exn_frame|].
    eapply preserves_bind; [by auto | apply get_video_frame_frame | intros f _].
    eapply preserves_bind; [by auto | apply R_update | intros b _].
    by apply preserves_ret.
  - by apply preserves_ret.
Qed.

Lemma reset_after_start_frame fuel :
  preserves R (fun _ => True) _init_replay_buffer ->
  preserves R (fun _ => True) (reset_after_start fuel).
Proof using R_update R_host R_note R_image R_refl R_trans.
  intros Hinit. unfold reset_after_start.
  eapply preserves_bind; [by auto | apply get_frame | intros ws _].
  eapply preserves_bind; [by auto | apply wait_for_mission_frame | intros _ _].
  eapply preserves_bind; [by auto | apply Hinit | intros _ _].
  eapply preserves_bind; [by auto | apply get_world_state_frame | intros ws' _].
  eapply preserves_bind;
    [by auto | by apply preserves_get with (P := fun _ => True) | intros s _].
  destruct (parse_world_state s).
  - eapply preserves_bind; [by auto | apply lift_exn_frame | intros p _].
    by apply preserves_ret.
  - eapply preserves_bind; [by auto | apply get_video_frame_frame | intros f _].
    eapply preserves_weaken; [|apply R_update]. done.
Qed.

(** [reset] after its first statement and the loading of the mission. *)
Lemma reset_startup_frame fuel :
  preserves R (fun _ => True) _init_replay_buffer ->
  preserves R (fun _ => True)
    (s <- get ;;
     start_mission (py_range (max_retries s + 1)) ;;;
     reset_after_start fuel).
Proof using R_update R_host R_note R_image R_refl R_trans.
  intros Hinit.
  eapply preserves_bind;
    [by auto | by apply preserves_get with (P := fun _ => True) | intros s _].
  eapply preserves_bind; [by auto | apply start_mission_frame | intros _ _].
  by apply reset_after_start_frame.
Qed.

End WithBuffer.

End Frames.
End MalmoFrames.


Module MalmoInvariants.
Import Malmo MalmoSpec MalmoMore MalmoFrames.

Section Invariants.
Context {X : Externals}.

(** *** The relations *)

Lemma no_command_refl s : no_command s s.
Proof. exists []. by rewrite app_nil_r. Qed.

Lemma commands_app j1 j2 : commands (j1 ++ j2) = (commands j1 ++ commands j2)%list.
Proof. apply flat_map_app. Qed.

Lemma no_command_trans s1 s2 s3 :
  no_command s1 s2 -> no_command s2 s3 -> no_command s1 s3.
Proof.
  intros (d1 & H1 & C1) (d2 & H2 & C2). exists (d1 ++ d2)%list.
  rewrite H2, H1, app_assoc. split; [done|].
  by rewrite commands_app, C1, C2.
Qed.

Lemma no_command_note s e :
  is_command e = false -> no_command s (set_journal (journal s ++ [e]) s).
Proof. intros He. exists [e]. split; [done|]. by destruct e. Qed.

Lemma no_command_quiet s s' : journal s' = journal s -> no_command s s'.
Proof. intros H. exists []. by rewrite H, app_nil_r. Qed.

Lemma update_replay_buffer_quiet (R : MalmoEnvironment -> MalmoEnvironment -> Prop) o :
  (forall s, R s s) ->
  (forall s1 s2 s3, R s1 s2 -> R s2 s3 -> R s1 s3) ->
  (forall s x, R s (set_replay_buffer x s)) ->
  preserves R (fun _ => True) (_update_replay_buffer_and_get_observation o).
Proof.
  intros R_refl R_trans R_buffer. unfold _update_replay_buffer_and_get_observation.
  eapply preserves_bind;
    [by auto | by apply preserves_get with (P := fun _ => True) | intros s _].
  eapply preserves_bind; [by auto | by apply preserves_modify | intros _ _].
  by apply lift_exn_frame.
Qed.

Lemma init_replay_buffer_quiet (R : MalmoEnvironment -> MalmoEnvironment -> Prop) :
  (forall s, R s s) ->
  (forall s1 s2 s3, R s1 s2 -> R s2 s3 -> R s1 s3) ->
  (forall s x, R s (set_replay_buffer x s)) ->
  preserves R (fun _ => True) _init_replay_buffer.
Proof.
  intros R_refl R_trans R_buffer. unfold _init_replay_buffer.
  eapply preserves_bind;
    [by auto | by apply preserves_get with (P := fun _ => True) | intros s _].
  destruct (observation_space_shape s); [by apply preserves_raise|].
  destruct (replay_buffer_size s =? 0); [by apply preserves_raise|].
  by apply preserves_modify.
Qed.

(** The statements of [reset] between [self.num_actions = 0] and the
    start-up loop. *)
Lemma prepare_tail_frame (R : MalmoEnvironment -> MalmoEnvironment -> Prop)
    force_reset :
  (forall s, R s s) ->
  (forall s1 s2 s3, R s1 s2 -> R s2 s3 -> R s1 s3) ->
  (forall s x, R s (set_mission_spec x s)) ->
  (forall s x, R s (set_num_resets x s)) ->
  (forall seconds, preserves R (fun _ => True) (time_sleep seconds)) ->
  preserves R (fun _ => True)
    (spec <- lift_exn _load_mission ;;
     modify (set_mission_spec (Some spec)) ;;;
     s <- get ;;
     (if forceWorldReset s || force_reset
      then modify (set_mission_spec (Some (mission_forceWorldReset spec)))
      else if _reset_counter s =? 0
           then raise (malmo_error ZeroDivisionError
                         "integer division or modulo by zero" "468" "reset")
           else if _num_resets s mod _reset_counter s =? 0
                then modify (set_mission_spec (Some (mission_forceWorldReset spec)))
                else ret tt) ;;;
     modify (set_num_resets (_num_resets s + 1)) ;;;
     time_sleep (1 # 10)).
Proof.
  intros R_refl R_trans R_spec R_resets R_sleep.
  eapply preserves_bind; [by auto | by apply lift_exn_frame | intros spec _].
  eapply preserves_bind; [by auto | by apply preserves_modify | intros _ _].
  eapply preserves_bind;
    [by auto | by apply preserves_get with (P := fun _ => True) | intros s _].
  eapply preserves_bind with (Q := fun _ => True); [by auto | | intros _ _].
  { destruct (_ || _); [by apply preserves_modify|].
    destruct (_ =? 0); [by apply preserves_raise|].
    destruct (_ =? 0); [by apply preserves_modify | by apply preserves_ret]. }
  eapply preserves_bind; [by auto | by apply preserves_modify | intros _ _].
  apply R_sleep.
Qed.

Lemma reset_unfold fuel force_reset env :
  reset fuel force_reset env =
  ((spec <- lift_exn _load_mission ;;
    modify (set_mission_spec (Some spec)) ;;;
    s <- get ;;
    (if forceWorldReset s || force_reset
     then modify (set_mission_spec (Some (mission_forceWorldReset spec)))
     else if _reset_counter s =? 0
          then raise (malmo_error ZeroDivisionError
                        "integer division or modulo by zero" "468" "reset")
          else if _num_resets s mod _reset_counter s =? 0
               then modify (set_mission_spec (Some (mission_forceWorldReset spec)))
               else ret tt) ;;;
    modify (set_num_resets (_num_resets s + 1)) ;;;
    time_sleep (1 # 10)) ;;;
   s <- get ;;
   start_mission (py_range (max_retries s + 1)) ;;;
   reset_after_start fuel) (set_num_actions 0 env).
Proof. reflexivity. Qed.

(** [reset] after [self.num_actions = 0], for a relation every later
    assignment respects. *)
Lemma reset_tail_frame (R : MalmoEnvironment -> MalmoEnvironment -> Prop)
    fuel force_reset env :
  (forall s, R s s) ->
  (forall s1 s2 s3, R s1 s2 -> R s2 s3 -> R s1 s3) ->
  (forall s h, R s (set_agent_host h s)) ->
  (forall s e, is_command e = false -> R s (set_journal (journal s ++ [e]) s)) ->
  (forall s x, R s (set_last_image x s)) ->
  (forall s x, R s (set_mission_spec x s)) ->
  (forall s x, R s (set_num_resets x s)) ->
  (forall s x, R s (set_replay_buffer x s)) ->
  R (set_num_actions 0 env) (snd (reset fuel force_reset env)).
Proof.
  intros R_refl R_trans R_host R_note R_image R_spec R_resets R_buffer.
  rewrite reset_unfold.
  match goal with
  | |- R ?s0 (snd (?m ?s0)) =>
    assert (H : preserves R (fun _ => True) m);
      [|specialize (H s0); destruct (m s0); by destruct H]
  end.
  eapply preserves_bind; [by auto | | intros _ _].
  { apply prepare_tail_frame; try done. intros seconds.
    by apply time_sleep_frame. }
  apply reset_startup_frame; try done.
  - intros o. by apply update_replay_buffer_quiet.
  - by apply init_replay_buffer_quiet.
Qed.

End Invariants.

(** X11 — However [reset] ends, by returning the first observation, by
    raising or while waiting, [num_actions] is 0 afterwards. *)
Theorem reset_zeroes_num_actions `{X : Externals} (fuel : nat)
    (force_reset : bool) (env : MalmoEnvironment) :
  num_actions (snd (reset fuel force_reset env)) = 0.
Proof.
  pose proof (reset_tail_frame same_num_actions fuel force_reset env) as H.
  unfold same_num_actions in H. rewrite H; done || congruence.
Qed.

(** X12 — [reset] never sends a command to the agent host, however it
    ends: its journal grows by mission starts, sleeps, peeks and gets
    only. *)
Theorem reset_sends_no_command `{X : Externals} (fuel : nat)
    (force_reset : bool) (env : MalmoEnvironment) :
  exists delta,
    journal (snd (reset fuel force_reset env)) = (journal env ++ delta)%list /\
    commands delta = [].
Proof.
  apply (reset_tail_frame no_command fuel force_reset env);
    try (intros; by apply no_command_quiet).
  - apply no_command_trans.
  - apply no_command_note.
Qed.

End MalmoInvariants.


Module StepInvariants.
Import Malmo MalmoSpec MalmoMore MalmoFacts MalmoFrames MalmoInvariants.

Section Step.
Context {X : Externals}.
Variable R : MalmoEnvironment -> MalmoEnvironment -> Prop.
Hypothesis R_refl : forall s, R s s.
Hypothesis R_trans : forall s1 s2 s3, R s1 s2 -> R s2 s3 -> R s1 s3.
Hypothesis R_send : forall c, preserves R (fun _ => True) (_send_command c).

Lemma py_getitem_frame {A} line fn (l : list A) i :
  preserves R (fun _ => True) (py_getitem line fn l i).
Proof using R_refl.
  intros s. unfold py_getitem. cbv zeta.
  destruct (if _ && _ then _ else _); cbn; auto.
Qed.

Lemma take_action_frame actions :
  preserves R (fun _ => True) (_take_action actions).
Proof using R_refl R_trans R_send.
  unfold _take_action.
  eapply preserves_bind;
    [by auto | by apply preserves_get with (P := fun _ => True) | intros s _].
  eapply preserves_bind with (Q := fun _ => True); [by auto | | intros acts _].
  { destruct (_ =? _)%nat; [by apply preserves_ret|].
    destruct actions; [by apply preserves_raise | by apply preserves_ret]. }
  apply preserves_for_each; [by auto | by auto |].
  intros [[spc cmds] act]. destruct spc as [n|n|ranges].
  - destruct act as [[i|text]|items]; try by apply preserves_raise.
    eapply preserves_bind; [by auto | apply py_getitem_frame | intros cmd _].
    apply R_send.
  - destruct act as [x|vals]; [by apply preserves_raise|].
    apply preserves_for_each; [by auto | by auto |]. intros [cmd val].
    apply R_send.
  - destruct act as [x|vals]; [by apply preserves_raise|].
    apply preserves_for_each; [by auto | by auto |]. intros [cmd val].
    apply R_send.
Qed.

End Step.

Section Theorems.
Context {X : Externals}.

Lemma send_command_quiet (R : MalmoEnvironment -> MalmoEnvironment -> Prop) c :
  (forall s1 s2 s3, R s1 s2 -> R s2 s3 -> R s1 s3) ->
  (forall s h, R s (set_agent_host h s)) ->
  (forall s j, R s (set_journal j s)) ->
  preserves R (fun _ => True) (_send_command c).
Proof.
  intros R_trans R_host R_journal. unfold _send_command.
  eapply preserves_bind; [by auto | by apply preserves_modify | intros _ _].
  unfold note. by apply preserves_modify.
Qed.

(** [step], for a relation that every assignment of [step] respects but the
    one to the replay buffer. *)
Lemma step_frame (R : MalmoEnvironment -> MalmoEnvironment -> Prop) fuel action :
  (forall s, R s s) ->
  (forall s1 s2 s3, R s1 s2 -> R s2 s3 -> R s1 s3) ->
  (forall s h, R s (set_agent_host h s)) ->
  (forall s j, R s (set_journal j s)) ->
  (forall s x, R s (set_last_image x s)) ->
  (forall s x, R s (set_previous_observations x s)) ->
  (forall s x, R s (set_num_actions x s)) ->
  (forall o, preserves R (fun _ => True)
               (_update_replay_buffer_and_get_observation o)) ->
  preserves R (fun _ => True) (step fuel action).
Proof.
  intros R_refl R_trans R_host R_journal R_image R_obs R_num R_update.
  rewrite step_unfold.
  eapply preserves_bind; [by auto | by apply peek_frame | intros ws _].
  eapply preserves_bind with (Q := fun _ => True); [by auto | | intros ws' _].
  { destruct (is_mission_running ws); [|by apply preserves_ret].
    eapply preserves_bind; [by auto | | intros _ _].
    { apply take_action_frame; try done. intros c.
      by apply send_command_quiet. }
    eapply preserves_bind;
      [by auto | by apply preserves_get with (P := fun _ => True) | intros s _].
    eapply preserves_bind; [by auto | by apply preserves_modify | intros _ _].
    by apply get_world_state_frame. }
  by apply step_finish_frame.
Qed.

Lemma peek_spec s :
  agent_peekWorldState s =
  (Ret (peekWorldState (agent_host s)),
   set_journal (journal s ++ [JPeekWorldState]) s).
Proof. reflexivity. Qed.

Lemma count_then_poll fuel s :
  (s0 <- get ;;
   modify (set_num_actions (num_actions s0 + 1)) ;;;
   _get_world_state fuel false) s =
  _get_world_state fuel false (set_num_actions (num_actions s + 1) s).
Proof. reflexivity. Qed.

Lemma removelast_length {A} (o : A) (b : list A) :
  length (removelast (o :: b)) = length b.
Proof.
  revert o. induction b as [|x b IH]; intros o; [done|].
  change (removelast (o :: x :: b)) with (o :: removelast (x :: b)).
  cbn [length]. by rewrite IH.
Qed.

Lemma update_replay_buffer_length o :
  preserves same_buffer_length (fun _ => True)
    (_update_replay_buffer_and_get_observation o).
Proof.
  intros s. unfold _update_replay_buffer_and_get_observation, bind, get, modify,
    lift_exn.
  destruct (np_vstack _); cbn; (split; [|done]); unfold same_buffer_length; cbn;
    apply removelast_length.
Qed.

End Theorems.

(** X13 — [step] never changes the length of the replay buffer, however it
    ends: each observation it stacks pushes the oldest one out. *)
Theorem step_keeps_replay_buffer_length `{X : Externals} (fuel : nat)
    (action : action) (env : MalmoEnvironment) :
  length (replay_buffer (snd (step fuel action env))) =
  length (replay_buffer env).
Proof.
  pose proof (step_frame same_buffer_length fuel action) as H.
  specialize (H ltac:(done) ltac:(unfold same_buffer_length; congruence)
                ltac:(done) ltac:(done) ltac:(done) ltac:(done) ltac:(done)
                update_replay_buffer_length env).
  destruct (step fuel action env). by destruct H.
Qed.

(** X14 — [step] counts an action only when it acts: [num_actions] grows by
    one when the mission is running and [_take_action] went through, and
    stays as it is otherwise; a step that returns has counted exactly one
    action if the mission was running and none if it was over. *)
Theorem step_counts_one_action `{X : Externals} (fuel : nat) (action : action)
    (env : MalmoEnvironment) :
  let running := is_mission_running (peekWorldState (agent_host env)) in
  let '(r, env') := step fuel action env in
  (num_actions env' = num_actions env \/
   (running = true /\ num_actions env' = num_actions env + 1)) /\
  match r with
  | Ret _ => num_actions env' = num_actions env + (if running then 1 else 0)
  | _ => True
  end.
Proof.
  intros running. rewrite step_unfold, bind_unfold, peek_spec. fold running.
  set (s1 := set_journal _ env).
  assert (Hfinish : forall ws, preserves same_num_actions (fun _ => True)
                                 (step_finish ws)).
  { intros ws. apply step_finish_frame; try done.
    - unfold same_num_actions. congruence.
    - intros o. apply update_replay_buffer_quiet; try done.
      unfold same_num_actions. congruence. }
  rewrite bind_unfold. destruct running.
  - rewrite bind_unfold.
    pose proof (take_action_frame same_num_actions ltac:(done)
                  ltac:(unfold same_num_actions; congruence)
                  ltac:(intros c; apply send_command_quiet; try done;
                        unfold same_num_actions; congruence)
                  action s1) as Htake.
    destruct (_take_action action s1) as [[[]|e|] s2];
      destruct Htake as [Hs2 _]; unfold same_num_actions in Hs2;
      [|split; [left; exact Hs2 | done]|split; [left; exact Hs2 | done]].
    rewrite count_then_poll.
    pose proof (get_world_state_frame same_num_actions ltac:(done)
                  ltac:(unfold same_num_actions; congruence)
                  ltac:(done) ltac:(done) fuel false
                  (set_num_actions (num_actions s2 + 1) s2)) as Hget.
    destruct (_get_world_state fuel false _) as [[ws|e|] s3];
      destruct Hget as [Hs3 _]; unfold same_num_actions in Hs3;
      cbn [num_actions set_num_actions] in Hs3.
    + specialize (Hfinish ws s3). destruct (step_finish ws s3) as [r s4].
      destruct Hfinish as [Hs4 _]. unfold same_num_actions in Hs4.
      assert (num_actions s4 = num_actions env + 1) as ->
        by (rewrite Hs4, Hs3, Hs2; done).
      split; [by right|]. by destruct r.
    + split; [|done]. right. split; [done|]. by rewrite Hs3, Hs2.
    + split; [|done]. right. split; [done|]. by rewrite Hs3, Hs2.
  - unfold ret at 1.
    specialize (Hfinish (peekWorldState (agent_host env)) s1).
    destruct (step_finish _ s1) as [r s4].
    destruct Hfinish as [Hs4 _]. unfold same_num_actions in Hs4.
    assert (num_actions s4 = num_actions env) as -> by (rewrite Hs4; done).
    split; [by left|]. destruct r; [lia|done|done].
Qed.

Section Coherence.
Context {X : Externals}.

Lemma step_finish_coherent ws :
  preserves (fun _ _ => True)
    (fun out =>
       done out = negb (info_is_mission_running (info out)) /\
       info_is_mission_running (info out) = is_mission_running ws /\
       info_mission_control_messages (info out) = mission_control_messages ws)
    (step_finish ws).
Proof.
  unfold step_finish.
  eapply preserves_bind with (Q := fun _ => True); [done | | intros _ _].
  { intros s. by destruct (for_each _ _ s) as [[]]. }
  eapply preserves_bind with (Q := fun _ => True); [done | | intros o _].
  { intros s. by destruct (_get_observation ws s) as [[]]. }
  eapply preserves_bind with (Q := fun _ => True); [done | | intros s _].
  { by apply preserves_get. }
  eapply preserves_bind with (Q := fun _ => True); [done | | intros p _].
  { intros s0. by destruct (_ s0) as [[]]. }
  by apply preserves_ret.
Qed.

End Coherence.

(** X15 — Every tuple [step] returns is coherent: its [done] flag is the
    negation of [info['is_mission_running']], whether the mission was
    running when [step] was called or not. *)
Theorem step_done_matches_info `{X : Externals} (fuel : nat) (action : action)
    (env : MalmoEnvironment) :
  match fst (step fuel action env) with
  | Ret out => done out = negb (info_is_mission_running (info out))
  | _ => True
  end.
Proof.
  assert (H : preserves (fun _ _ => True)
                (fun out => done out = negb (info_is_mission_running (info out)))
                (step fuel action)).
  { rewrite step_unfold.
    eapply preserves_bind with (Q := fun _ => True); [done | | intros ws _].
    { intros s. by destruct (agent_peekWorldState s) as [[]]. }
    eapply preserves_bind with (Q := fun _ => True); [done | | intros ws' _].
    { intros s. by destruct (_ s) as [[]]. }
    eapply preserves_weaken; [|apply step_finish_coherent].
    by intros out [? _]. }
  specialize (H env). destruct (step fuel action env) as [[out|e|] env'];
    by destruct H.
Qed.

(** X16 — With a single action space (what [continuous_discrete] gives),
    [_take_action] reads the action as an index into the command names and
    sends exactly that one command; nothing else of the environment
    changes. *)
Theorem take_action_sends_indexed_command `{X : Externals}
    (env : MalmoEnvironment) (n i : Z) (cmds : list string) (cmd : string) :
  action_spaces env = [Discrete n] ->
  action_names env = [cmds] ->
  0 <= i ->
  cmds !! Z.to_nat i = Some cmd ->
  _take_action (AScalar (SInt i)) env =
  (Ret tt,
   set_journal (journal env ++ [JSendCommand cmd])
     (set_agent_host (sendCommand cmd (agent_host env)) env)).
Proof.
  intros Hspaces Hnames Hi Hcmd.
  unfold _take_action. rewrite bind_unfold. unfold get at 1.
  rewrite Hspaces, Hnames. cbn [length Nat.eqb]. rewrite bind_unfold.
  unfold ret at 1. cbn [zip3 for_each]. rewrite !bind_unfold.
  unfold py_getitem. cbv zeta.
  assert (Hlt : i < Z.of_nat (length cmds)).
  { apply lookup_lt_Some in Hcmd. lia. }
  replace (i <? 0) with false by (symmetry; apply Z.ltb_ge; lia).
  replace (0 <=? i) with true by (symmetry; apply Z.leb_le; lia).
  replace (i <? Z.of_nat (length cmds)) with true
    by (symmetry; apply Z.ltb_lt; lia).
  cbn [andb]. rewrite Hcmd. reflexivity.
Qed.

Lemma take_action_sends_indexed_command_witness :
  commands
    (journal
       (snd (_take_action (AScalar (SInt 1)) (MalmoScenario.fresh_env 0)))) =
  ["move -1"].
Proof.
  rewrite (take_action_sends_indexed_command (X := MalmoScenario.busy_client)
             (MalmoScenario.fresh_env 0) 2 1 ["move 1"; "move -1"] "move -1"
             eq_refl eq_refl ltac:(lia) eq_refl).
  reflexivity.
Defined.

End StepInvariants.


Module PollingTheorems.
Import Malmo MalmoSpec MalmoMore MalmoFacts StepInvariants.

Section Polling.
Context {X : Externals}.

(** One round of the two polling loops. *)
Lemma poll_round (s : MalmoEnvironment) :
  (time_sleep (step_sleep s) ;;; agent_peekWorldState) s =
  (Ret (peekWorldState (elapse (step_sleep s) (agent_host s))),
   set_journal (journal s ++ [JSleep (step_sleep s); JPeekWorldState])
     (set_agent_host (elapse (step_sleep s) (agent_host s)) s)).
Proof.
  unfold time_sleep, agent_peekWorldState, note, bind, modify, get, ret. cbn.
  by rewrite <- app_assoc.
Qed.

Lemma get_world_state_round fuel ignore_rewards s :
  _get_world_state (S fuel) ignore_rewards s =
  let ws := peekWorldState (elapse (step_sleep s) (agent_host s)) in
  let s1 :=
    set_journal (journal s ++ [JSleep (step_sleep s); JPeekWorldState])
      (set_agent_host (elapse (step_sleep s) (agent_host s)) s) in
  if valid_world_state ignore_rewards (skip_steps s) ws
  then agent_getWorldState s1
  else _get_world_state fuel ignore_rewards s1.
Proof.
  cbn [_get_world_state]. rewrite bind_unfold. unfold get at 1.
  pose proof (poll_round s) as H. unfold bind in H |- *.
  destruct (time_sleep (step_sleep s) s) as [[[]|e|] s0]; try done.
  rewrite H. unfold valid_world_state.
  match goal with |- context [if ?c then _ else _] => by destruct c end.
Qed.

Lemma peek_valid_round fuel s :
  _peek_valid_world_state (S fuel) s =
  let ws := peekWorldState (elapse (step_sleep s) (agent_host s)) in
  let s1 :=
    set_journal (journal s ++ [JSleep (step_sleep s); JPeekWorldState])
      (set_agent_host (elapse (step_sleep s) (agent_host s)) s) in
  if valid_world_state false (skip_steps s) ws
  then (Ret ws, s1)
  else _peek_valid_world_state fuel s1.
Proof.
  cbn [_peek_valid_world_state]. rewrite bind_unfold. unfold get at 1.
  pose proof (poll_round s) as H. unfold bind in H |- *.
  destruct (time_sleep (step_sleep s) s) as [[[]|e|] s0]; try done.
  rewrite H. unfold valid_world_state. rewrite orb_false_r.
  match goal with |- context [if ?c then _ else _] => by destruct c end.
Qed.

End Polling.

(** X17 — [_get_world_state()] with its default argument is
    [_peek_valid_world_state()] followed by [getWorldState()]: the two loops
    poll alike, and only the first consumes the state. *)
Theorem get_world_state_peeks_then_gets `{X : Externals} (fuel : nat)
    (env : MalmoEnvironment) :
  _get_world_state fuel false env =
  (_peek_valid_world_state fuel ;;; agent_getWorldState) env.
Proof.
  revert env. induction fuel as [|fuel IH]; intros env; [done|].
  rewrite get_world_state_round, bind_unfold, peek_valid_round. cbv zeta.
  destruct (valid_world_state false _ _); [done|].
  by rewrite IH, bind_unfold.
Qed.


(** X21 — [_get_video_frame] and [_get_observation] answer from their
    caches: whatever they return is what [last_image], respectively
    [previous_observations], holds afterwards; neither touches the agent
    host or the journal. *)
Theorem frame_and_observation_are_cached `{X : Externals}
    (world_state : WorldState frame) (env : MalmoEnvironment) :
  (let '(r, env') := _get_video_frame world_state env in
   agent_host env' = agent_host env /\ journal env' = journal env /\
   match r with Ret image => last_image env' = image | _ => True end) /\
  (let '(r, env') := _get_observation world_state env in
   agent_host env' = agent_host env /\ journal env' = journal env /\
   match r with
   | Ret observation => previous_observations env' = observation
   | _ => True
   end).
Proof.
  split.
  - unfold _get_video_frame. destruct (0 <? _).
    + unfold py_assert, py_last, lift_exn, bind, modify, get, ret, raise.
      destruct (_ =? _)%nat; [|done].
      destruct (last (video_frames world_state)) as [f|]; [|done].
      by destruct (frame_image f).
    + done.
  - unfold _get_observation. destruct (_ && _).
    + unfold py_assert, py_last, lift_exn, bind, modify, get, ret, raise.
      destruct (_ =? _)%nat; [|done].
      destruct (last (observations world_state)) as [text|]; [|done].
      by destruct (json_loads text).
    + done.
Qed.

End PollingTheorems.


Module ResetTheorems.
Import Malmo MalmoSpec MalmoMore MalmoFacts MalmoFrames MalmoInvariants
  StepInvariants.

Section Reset.
Context {X : Externals}.

Lemma bind_ret_inv {S A B} (m : M S A) (k : A -> M S B) s b s' :
  bind m k s = (Ret b, s') ->
  exists a s1, m s = (Ret a, s1) /\ k a s1 = (Ret b, s').
Proof.
  unfold bind. destruct (m s) as [[a|e|] s1]; [|done|done]. by eauto.
Qed.

Lemma same_mission_refl s : same_mission s s.
Proof. done. Qed.

Lemma same_mission_trans s1 s2 s3 :
  same_mission s1 s2 -> same_mission s2 s3 -> same_mission s1 s3.
Proof. intros [??] [??]. split; congruence. Qed.

(** The start-up loop and the rest of [reset] keep the mission
    specification and the reset counter. *)
Lemma reset_startup_mission fuel s :
  same_mission s
    (snd ((s0 <- get ;;
           start_mission (py_range (max_retries s0 + 1)) ;;;
           reset_after_start fuel) s)).
Proof.
  pose proof (reset_startup_frame same_mission same_mission_refl
                same_mission_trans ltac:(done) ltac:(done) ltac:(done)
                ltac:(intros o; apply update_replay_buffer_quiet;
                        first [done | apply same_mission_trans])
                fuel
                ltac:(apply init_replay_buffer_quiet;
                        first [done | apply same_mission_trans]) s) as H.
  cbv beta in H.
  match type of H with
  | (let '(_, _) := ?t in _) => destruct t as [r s']
  end.
  by destruct H.
Qed.

End Reset.

(** X22 — Every [_reset_counter]-th reset starts from a new world: when the
    mission loads, and the world is forced or [_reset_counter] is not zero,
    [reset] counts the reset and leaves as [mission_spec] the loaded
    mission, with [forceWorldReset()] called on it exactly when the
    environment or the caller asks for it or [_num_resets] is a multiple of
    [_reset_counter]; this holds however the start-up ends. *)
Theorem reset_forces_world_on_schedule `{X : Externals} (fuel : nat)
    (force_reset : bool) (env : MalmoEnvironment) (spec : mission) :
  _load_mission = inr spec ->
  forceWorldReset env || force_reset || negb (_reset_counter env =? 0) = true ->
  let env' := snd (reset fuel force_reset env) in
  _num_resets env' = _num_resets env + 1 /\
  mission_spec env' =
    Some (if forces_world_reset force_reset env
          then mission_forceWorldReset spec else spec).
Proof.
  intros Hload Hok. cbv zeta. rewrite reset_unfold, bind_unfold.
  unfold forces_world_reset.
  match goal with
  | |- context [match ?m (set_num_actions 0 env) with _ => _ end] =>
    assert (Hprep : exists s1,
              m (set_num_actions 0 env) = (Ret tt, s1) /\
              _num_resets s1 = _num_resets env + 1 /\
              mission_spec s1 =
                Some (if forceWorldReset env || force_reset
                         || (_num_resets env mod _reset_counter env =? 0)
                      then mission_forceWorldReset spec else spec))
  end.
  { rewrite Hload. unfold lift_exn, time_sleep, note, bind, modify, get, ret, raise.
    cbn. destruct (forceWorldReset env || force_reset) eqn:Hforce; cbn.
    - by eexists.
    - cbn in Hok. destruct (_reset_counter env =? 0); [done|].
      destruct (_num_resets env mod _reset_counter env =? 0); by eexists. }
  destruct Hprep as (s1 & -> & Hresets & Hspec).
  pose proof (reset_startup_mission fuel s1) as [Hs Hn].
  by rewrite Hs, Hn.
Qed.

Lemma reset_forces_world_on_schedule_witness :
  let env' := snd (reset 1 false (MalmoScenario.fresh_env 1)) in
  _num_resets env' = 1 /\ mission_spec env' = Some true.
Proof.
  apply (reset_forces_world_on_schedule (X := MalmoScenario.busy_client) 1
           false (MalmoScenario.fresh_env 1) false); reflexivity.
Defined.

(** X23 — When [_load_mission] raises, as it does in the class
    [MalmoEnvironment] itself, [reset] raises that exception at once: no
    mission is started and nothing is retried, even for a [RuntimeError];
    [num_actions] is 0 already and nothing else has changed. *)
Theorem reset_fails_when_mission_does_not_load `{X : Externals} (fuel : nat)
    (force_reset : bool) (env : MalmoEnvironment) (e : exn) :
  _load_mission = inl e ->
  reset fuel force_reset env = (Raise e, set_num_actions 0 env).
Proof.
  intros Hload. rewrite reset_unfold, !bind_unfold. by rewrite Hload.
Qed.

Lemma reset_fails_when_mission_does_not_load_witness :
  exists e,
    reset 3 true base_env = (Raise e, set_num_actions 0 base_env) /\
    exn_cls e = NotImplementedError /\ is_RuntimeError e = true.
Proof.
  eexists. split; [|split].
  - apply (reset_fails_when_mission_does_not_load (X := base_class) 3 true
             base_env). reflexivity.
  - reflexivity.
  - reflexivity.
Defined.

Section Buffer.
Context {X : Externals}.

Lemma init_replay_buffer_spec s s' :
  _init_replay_buffer s = (Ret tt, s') ->
  exists rows dims,
    observation_space_shape s = rows :: dims /\
    replay_buffer s' =
      repeat (np_zeros ((rows ÷ replay_buffer_size s) :: dims))
        (Z.to_nat (replay_buffer_size s)).
Proof.
  unfold _init_replay_buffer. rewrite bind_unfold. unfold get at 1.
  destruct (observation_space_shape s) as [|rows dims]; [done|].
  destruct (replay_buffer_size s =? 0); [done|].
  unfold modify. intros [= <-]. by exists rows, dims.
Qed.

Lemma same_buffer_length_trans s1 s2 s3 :
  same_buffer_length s1 s2 -> same_buffer_length s2 s3 ->
  same_buffer_length s1 s3.
Proof. unfold same_buffer_length. congruence. Qed.

Lemma same_buffer_size_trans s1 s2 s3 :
  same_buffer_size s1 s2 -> same_buffer_size s2 s3 -> same_buffer_size s1 s3.
Proof. unfold same_buffer_size. congruence. Qed.

(** The first observation: what [reset] does after [_init_replay_buffer]. *)
Lemma first_observation_frame fuel :
  preserves same_buffer_length (fun _ => True)
    (world_state <- _get_world_state fuel true ;;
     s <- get ;;
     if parse_world_state s then
       obs_reward <- lift_exn (_world_state_parser world_state) ;;
       ret (fst obs_reward)
     else
       obs_frame <- _get_video_frame world_state ;;
       _update_replay_buffer_and_get_observation obs_frame).
Proof.
  eapply preserves_bind;
    [apply same_buffer_length_trans
    | apply get_world_state_frame;
        first [done | apply same_buffer_length_trans]
    | intros ws _].
  eapply preserves_bind;
    [apply same_buffer_length_trans
    | by apply preserves_get with (P := fun _ => True) | intros s _].
  destruct (parse_world_state s).
  - eapply preserves_bind;
      [apply same_buffer_length_trans | by apply lift_exn_frame | intros p _].
    by apply preserves_ret.
  - eapply preserves_bind;
      [apply same_buffer_length_trans
      | apply get_video_frame_frame;
          first [done | apply same_buffer_length_trans]
      | intros f _].
    eapply preserves_weaken; [|apply update_replay_buffer_length]. done.
Qed.

End Buffer.

(** X24 — A [reset] that returns leaves a replay buffer of
    [replay_buffer_size] entries (none when the size is negative): the
    buffer is filled with that many zero arrays and the first observation
    pushes one of them out. *)
Theorem reset_fills_replay_buffer `{X : Externals} (fuel : nat)
    (force_reset : bool) (env env' : MalmoEnvironment) (observation : ndarray) :
  reset fuel force_reset env = (Ret observation, env') ->
  length (replay_buffer env') = Z.to_nat (replay_buffer_size env).
Proof.
  rewrite reset_unfold. intros Hreset.
  apply bind_ret_inv in Hreset as ([] & s1 & Hprep & Hrest).
  apply bind_ret_inv in Hrest as (s1' & s1'' & Hget & Hrest).
  injection Hget as <- <-.
  apply bind_ret_inv in Hrest as ([] & s2 & Hstart & Hrest).
  unfold reset_after_start in Hrest.
  apply bind_ret_inv in Hrest as (ws & s3 & Hgetws & Hrest).
  apply bind_ret_inv in Hrest as ([] & s4 & Hwait & Hrest).
  apply bind_ret_inv in Hrest as ([] & s5 & Hinit & Hrest).
  assert (Hsize : replay_buffer_size s4 = replay_buffer_size env).
  { pose proof (prepare_tail_frame same_buffer_size force_reset ltac:(done)
                  same_buffer_size_trans ltac:(done) ltac:(done)
                  ltac:(intros; apply time_sleep_frame;
                          first [done | apply same_buffer_size_trans])
                  (set_num_actions 0 env)) as H1.
    rewrite Hprep in H1. destruct H1 as [H1 _].
    pose proof (start_mission_frame same_buffer_size ltac:(done)
                  same_buffer_size_trans ltac:(done) ltac:(done)
                  (py_range (max_retries s1 + 1)) s1) as H2.
    rewrite Hstart in H2. destruct H2 as [H2 _].
    pose proof (get_frame same_buffer_size ltac:(done)
                  same_buffer_size_trans ltac:(done) ltac:(done) s2) as H3.
    rewrite Hgetws in H3. destruct H3 as [H3 _].
    pose proof (wait_for_mission_frame same_buffer_size ltac:(done)
                  same_buffer_size_trans ltac:(done) ltac:(done) fuel ws s3)
      as H4.
    rewrite Hwait in H4. destruct H4 as [H4 _].
    unfold same_buffer_size in *. cbn in H1. congruence. }
  destruct (init_replay_buffer_spec s4 s5 Hinit) as (rows & dims & _ & Hbuffer).
  pose proof (first_observation_frame fuel s5) as H5.
  rewrite Hrest in H5. destruct H5 as [H5 _]. unfold same_buffer_length in H5.
  rewrite H5, Hbuffer, repeat_length. by rewrite Hsize.
Qed.

Lemma reset_fills_replay_buffer_witness :
  (exists observation,
     fst (reset 1 false (MalmoScenario.fresh_env 1)) = Ret observation) /\
  length (replay_buffer (snd (reset 1 false (MalmoScenario.fresh_env 1)))) = 5%nat.
Proof.
  split; [vm_compute; by eexists|].
  apply (reset_fills_replay_buffer (X := MalmoScenario.busy_client) 1 false
           (MalmoScenario.fresh_env 1)
           (snd (reset 1 false (MalmoScenario.fresh_env 1)))
           (match fst (reset 1 false (MalmoScenario.fresh_env 1)) with
            | Ret observation => observation
            | _ => 0
            end)).
  vm_compute. reflexivity.
Defined.

End ResetTheorems.


Module ActionSpaceTheorems.
Import Malmo MalmoMore.

Lemma add_command_ok cd ch cmd acc acc' :
  lists_ok cd acc -> add_command cd ch cmd acc = inr acc' -> lists_ok cd acc'.
Proof.
  intros [Hranges Hcd]. destruct acc as [d c m r]. cbn in Hranges, Hcd.
  unfold add_command.
  repeat match goal with
         | |- context [if ?b then _ else _] => destruct b eqn:?
         end;
    intros [= <-]; try done; split; cbn;
    first [ exact Hranges | exact Hcd | done
          | by rewrite length_app, repeat_app, Hranges ].
Qed.

Lemma add_commands_ok cd ch cmds :
  forall acc acc',
    lists_ok cd acc -> add_commands cd ch cmds acc = inr acc' -> lists_ok cd acc'.
Proof.
  induction cmds as [|cmd cmds IH]; intros acc acc' Hok; cbn [add_commands].
  - by intros [= <-].
  - destruct (add_command cd ch cmd acc) as [e|acc1] eqn:E; [done|].
    apply IH. by eapply add_command_ok.
Qed.

Lemma add_handlers_ok cd chs :
  forall acc acc',
    lists_ok cd acc -> add_handlers cd chs acc = inr acc' -> lists_ok cd acc'.
Proof.
  induction chs as [|[ch cmds] chs IH]; intros acc acc' Hok; cbn [add_handlers].
  - by intros [= <-].
  - destruct (add_commands cd ch cmds acc) as [e|acc1] eqn:E; [done|].
    apply IH. by eapply add_commands_ok.
Qed.

Lemma nonempty_length {A} (l : list A) : (0 <? length l)%nat = true -> l <> [].
Proof. by destruct l. Qed.

(** X25 — The action spaces [_create_action_space] sets describe the
    command names it sets beside them: there are as many spaces as lists of
    names, at most three, no list is empty, a [Discrete] or [Box] space has
    the size of its list and a [MultiDiscrete] space gives each of its
    commands the range [[0, 1]]. *)
Theorem create_action_space_fits_names (add_noop_command continuous_discrete : bool)
    (chs : list (string * list string)) (action_names : list (list string))
    (action_spaces : list space) :
  _create_action_space add_noop_command continuous_discrete chs
    = inr (action_names, action_spaces) ->
  Forall2 space_fits action_spaces action_names /\
  (length action_spaces <= 3)%nat.
Proof.
  unfold _create_action_space.
  destruct (add_handlers _ _ _) as [e|[d c m r]] eqn:Hrun; [done|].
  apply add_handlers_ok with (cd := continuous_discrete) in Hrun;
    [|by split; [|intros _]].
  destruct Hrun as [Hranges _]. cbn in Hranges.
  destruct (0 <? length d)%nat eqn:Hd; destruct (0 <? length c)%nat eqn:Hc;
    destruct (0 <? length m)%nat eqn:Hm; cbn; intros [= <- <-];
    (split; [|cbn; lia]);
    repeat constructor; try (by apply nonempty_length); exact Hranges.
Qed.

Lemma create_action_space_fits_names_witness :
  exists action_names action_spaces,
    _create_action_space true false example_handlers
      = inr (action_names, action_spaces) /\
    Forall2 space_fits action_spaces action_names /\
    length action_spaces = 3%nat.
Proof.
  eexists. eexists. split; [reflexivity|]. split; [|reflexivity].
  apply (create_action_space_fits_names true false example_handlers).
  reflexivity.
Defined.

(** X26 — With [continuous_discrete] every command becomes a discrete
    action: [_create_action_space] sets no action space at all, or one
    [Discrete] space over all the names, so that [_take_action] reads an
    action as one index. *)
Theorem create_action_space_discretizes (add_noop_command : bool)
    (chs : list (string * list string)) (action_names : list (list string))
    (action_spaces : list space) :
  _create_action_space add_noop_command true chs
    = inr (action_names, action_spaces) ->
  (action_names = [] /\ action_spaces = []) \/
  exists discrete,
    discrete <> [] /\ action_names = [discrete] /\
    action_spaces = [Discrete (Z.of_nat (length discrete))].
Proof.
  unfold _create_action_space.
  destruct (add_handlers _ _ _) as [e|[d c m r]] eqn:Hrun; [done|].
  apply add_handlers_ok with (cd := true) in Hrun; [|by split; [|intros _]].
  destruct Hrun as [_ Hcd]. destruct (Hcd eq_refl) as [Hc Hm]. cbn in Hc, Hm.
  subst c m. cbn.
  destruct d as [|x d]; cbn; intros [= <- <-]; [by left|].
  right. by exists (x :: d).
Qed.

Lemma create_action_space_discretizes_witness :
  _create_action_space false true example_handlers =
    inr ([["move 1"; "move -1"; "turn 1"; "turn -1"; "jump 1"; "jump 0"; "use 1"]],
         [Discrete 7]) /\
  exists discrete,
    [["move 1"; "move -1"; "turn 1"; "turn -1"; "jump 1"; "jump 0"; "use 1"]]
      = [discrete] /\
    [Discrete 7] = [Discrete (Z.of_nat (length discrete))].
Proof.
  split; [reflexivity|].
  destruct (create_action_space_discretizes false example_handlers
              [["move 1"; "move -1"; "turn 1"; "turn -1"; "jump 1"; "jump 0";
                "use 1"]] [Discrete 7] eq_refl) as [H|H].
  - by destruct H.
  - destruct H as (discrete & _ & H1 & H2). by exists discrete.
Defined.

End ActionSpaceTheorems.
